(** * The tview transport engine (utils/gui/moteus_gui/tview.py)

    A shallow embedding of the per-device byte stream ([DeviceStream]), the
    telemetry records ([Record], [RecordSignal]), the text protocol session
    ([Device]) and the polling scheduler ([TviewMainWindow]), followed by the
    properties established about them.

    Conventions of the embedding.
    - Python [bytes] are lists of [byte]; a Python [str] that holds latin-1
      text is a [string], so that [encode('latin1')] and [decode('latin1')]
      are [list_byte_of_string] and [string_of_list_byte].
    - Python integers are [Z].
    - A coroutine that awaits [_read_condition] is a function of the stream
      and of the list [wakes] of its future wake-ups: the n-th element holds
      the bytes that [process_message] appended to [_read_data] between the
      moment the coroutine suspended for the n-th time and the moment it ran
      again.  When the list is exhausted the coroutine is still suspended.
    - The Qt widgets, the console and the debug log are left out, but for
      the configuration tree that [add_config_line] fills, whose items are
      modelled with their texts and children. *)

From Stdlib Require Import ZArith List Strings.String Strings.Ascii Strings.Byte Lia Floats.
From stdpp Require Import base list strings gmap.

#[local] Open Scope Z_scope.

(** ** Python values used by the code *)

Abbreviation bytes := (list byte).

Definition byte_val (b : byte) : Z := Z.of_N (Byte.to_N b).

(** [len(l)] *)
Definition len {A : Type} (l : list A) : Z := Z.of_nat (length l).

(** [data[i]] on bytes, for an index known to be in range. *)
Definition index (data : bytes) (i : nat) : Z := byte_val (nth i data x00).

(** [l[lo:hi]] and [l[lo:]] for non-negative bounds; like Python's slices they
    clamp to the length of the list. *)
Definition slice {A : Type} (l : list A) (lo hi : Z) : list A :=
  take (Z.to_nat (hi - lo)) (drop (Z.to_nat lo) l).

Definition slice_from {A : Type} (l : list A) (lo : Z) : list A :=
  drop (Z.to_nat lo) l.

(** [data.find(c)]: the lowest index of [c], or -1. *)
Fixpoint find (c : byte) (data : bytes) : Z :=
  match data with
  | [] => -1
  | b :: data' =>
      if Byte.eqb b c then 0
      else let r := find c data' in if r <? 0 then -1 else 1 + r
  end.

(** [c in data] *)
Definition contains (c : byte) (data : bytes) : bool :=
  existsb (fun b => Byte.eqb b c) data.

(** [min(xs, default=None)] *)
Definition min_default (xs : list Z) : option Z :=
  match xs with
  | [] => None
  | x :: xs' => Some (fold_left Z.min xs' x)
  end.

(** The bytes that [bytes.rstrip()] removes: ASCII whitespace. *)
Definition is_space (b : byte) : bool :=
  existsb (Byte.eqb b) [x20; x09; x0a; x0d; x0b; x0c].

(** [data.rstrip()] *)
Fixpoint rstrip (data : bytes) : bytes :=
  match data with
  | [] => []
  | b :: data' =>
      match rstrip data' with
      | [] => if is_space b then [] else [b]
      | r => b :: r
      end
  end.

(** [struct.unpack('<I', data)[0]] on four bytes. *)
Definition unpack_le32 (data : bytes) : Z :=
  index data 0 + 2 ^ 8 * index data 1 + 2 ^ 16 * index data 2
  + 2 ^ 24 * index data 3.

Definition MAX_HISTORY_SIZE : Z := 100.
Definition MAX_SEND : Z := 61.

(** The frames handed to [transport.write]; they are built by the moteus
    library from the controller's id. *)
Inductive frame : Type :=
  | make_diagnostic_read (controller : Z)
  | make_diagnostic_write (controller : Z) (data : bytes).

(** ** class DeviceStream *)

Module DeviceStream.

(** [_read_condition] counts the calls of [notify_all]. *)
Record t : Type := mk {
  _write_data : bytes;
  _read_data : bytes;
  controller : Z;
  _read_condition : nat;
  emit_count : Z;
  poll_count : Z
}.

Definition __init__ (controller : Z) : t :=
  mk [] [] controller 0%nat 0 0.

Definition set_write_data (s : t) (v : bytes) : t :=
  mk v (_read_data s) (controller s) (_read_condition s)
     (emit_count s) (poll_count s).

Definition set_read_data (s : t) (v : bytes) : t :=
  mk (_write_data s) v (controller s) (_read_condition s)
     (emit_count s) (poll_count s).

Definition set_emit_count (s : t) (v : Z) : t :=
  mk (_write_data s) (_read_data s) (controller s) (_read_condition s)
     v (poll_count s).

Definition set_poll_count (s : t) (v : Z) : t :=
  mk (_write_data s) (_read_data s) (controller s) (_read_condition s)
     (emit_count s) v.

Definition notify_all (s : t) : t :=
  mk (_write_data s) (_read_data s) (controller s) (S (_read_condition s))
     (emit_count s) (poll_count s).

Definition ignore_all (s : t) : t := set_read_data s [].

Definition write (s : t) (data : bytes) : t :=
  set_write_data s (_write_data s ++ data).

Definition poll (s : t) : t * list frame :=
  (set_poll_count s (poll_count s + 1),
   [make_diagnostic_read (controller s)]).

Definition maybe_emit_one (s : t) : t * list frame :=
  if len (_write_data s) =? 0 then (s, [])
  else
    let s1 := set_emit_count s (emit_count s + 1) in
    let to_write := slice (_write_data s1) 0 MAX_SEND in
    let s2 := set_write_data s1 (slice_from (_write_data s1) MAX_SEND) in
    (s2, [make_diagnostic_write (controller s2) to_write]).

Definition process_message (s : t) (data : bytes) : t * bool :=
  if len data <? 3 then (s, false)
  else if negb (index data 0 =? 0x41) then (s, false)
  else if negb (index data 1 =? 1) then (s, false)
  else if index data 2 >? MAX_SEND then (s, false)
  else
    let datalen := index data 2 in
    if datalen >? len data - 3 then (s, false)
    else
      let s1 :=
        set_read_data s (_read_data s ++ slice data 3 (3 + datalen)) in
      (notify_all s1, datalen >? 0).

Definition _read_maybe_empty_line (s : t) : option bytes * t :=
  let first_newline :=
    min_default
      (map (fun c => find c (_read_data s))
           (List.filter (fun c => contains c (_read_data s)) [x0d; x0a])) in
  match first_newline with
  | None => (None, s)
  | Some n =>
      (Some (slice (_read_data s) 0 (n + 1)),
       set_read_data s (slice_from (_read_data s) (n + 1)))
  end.

(** What a coroutine reading the stream has done when its wake-ups are
    used up: it has returned, or it is suspended on [_read_condition]. *)
Inductive outcome (A : Type) : Type :=
  | Returned (a : A) (s : t) (wakes : list bytes)
  | Suspended (s : t).
Arguments Returned {A} a s wakes.
Arguments Suspended {A} s.

(** The stream as the coroutine finds it when it runs again. *)
Definition resume (s : t) (w : bytes) : t :=
  set_read_data s (_read_data s ++ w).

Fixpoint readline (s : t) (wakes : list bytes) : outcome bytes :=
  let '(maybe_line, s1) := _read_maybe_empty_line s in
  let line :=
    match maybe_line with
    | Some l =>
        if 0 <? len l
        then let l' := rstrip l in if len l' >? 0 then Some l' else None
        else None
    | None => None
    end in
  match line with
  | Some l => Returned l s1 wakes
  | None =>
      match wakes with
      | [] => Suspended s1
      | w :: wakes' => readline (resume s1 w) wakes'
      end
  end.

Fixpoint resynchronize (s : t) (wakes : list bytes) : outcome unit :=
  let oldlen := len (_read_data s) in
  match wakes with
  | [] => Suspended s
  | w :: wakes' =>
      let s1 := resume s w in
      let newlen := len (_read_data s1) in
      if newlen =? oldlen then Returned tt (set_read_data s1 []) wakes'
      else resynchronize s1 wakes'
  end.

(** The result is [None] where the code returns [False]. *)
Fixpoint read_sized_block (s : t) (wakes : list bytes)
  : outcome (option bytes) :=
  let attempt :=
    if len (_read_data s) >=? 5 then
      let size := unpack_le32 (slice (_read_data s) 1 5) in
      if size >? 2 ^ 24 then Some (None, s)
      else if len (_read_data s) >=? 5 + size then
        let block := slice (_read_data s) 5 (5 + size) in
        Some (Some block,
              set_read_data s (slice_from (_read_data s) (5 + size)))
      else None
    else None in
  match attempt with
  | Some (r, s1) => Returned r s1 wakes
  | None =>
      match wakes with
      | [] => Suspended s
      | w :: wakes' => read_sized_block (resume s w) wakes'
      end
  end.

(** The successive results of [readline] when one consumer calls it again
    and again: each line with the stream and the wake-ups it leaves, up to
    the call that stays suspended. *)
Inductive feed : Type :=
  | Got (line : bytes) (s : t) (wakes : list bytes) (next : feed)
  | Starved (s : t).

(** At most [n] successive calls. *)
Fixpoint readlines (n : nat) (s : t) (wakes : list bytes) : feed :=
  match n with
  | O => Starved s
  | S n' =>
      match readline s wakes with
      | Returned l s1 wakes1 => Got l s1 wakes1 (readlines n' s1 wakes1)
      | Suspended s1 => Starved s1
      end
  end.

(** A call that returns takes at least one byte out of what is buffered
    or still to come, so this many calls are never all answered. *)
Definition pending (s : t) (wakes : list bytes) : nat :=
  (length (_read_data s)
   + fold_right (fun w n => S (length w + n)) O wakes)%nat.

Definition lines (s : t) (wakes : list bytes) : feed :=
  readlines (S (pending s wakes)) s wakes.

Fixpoint feed_lines (f : feed) : list bytes :=
  match f with
  | Got l _ _ next => l :: feed_lines next
  | Starved _ => []
  end.

End DeviceStream.

(** ** Decoded telemetry values and text helpers *)

(** A decoded sample: numbers, lists, and objects with named fields. *)
#[local] Set Warnings "-register-all".
Inductive value : Type :=
  | VInt (z : Z)
  | VFloat (f : float)
  | VList (items : list value)
  | VObject (fields : list (string * value)).

(** What the code calls but the repository does not define: the schema
    decoder of the moteus library, Python's [int] and numpy's statistics.
    Each may raise, which is [None]. *)
Class External : Type := {
  archive : Type;
  archive_read : archive -> bytes -> option value;
  py_int : string -> option Z;
  numpy_mean : list value -> option value;
  numpy_std : list value -> option value
}.

Definition LF : string := String "010"%char EmptyString.
Definition CRLF : string := String "013"%char LF.

(** [s.startswith(p)] *)
Definition startswith (s p : string) : bool := String.prefix p s.

(** [s.split(sep)] for a non-empty separator: [skip] counts the characters
    of a separator found earlier that are still to be passed over. *)
Fixpoint split_aux (sep : string) (skip : nat) (s : string) : list string :=
  match s with
  | EmptyString => [EmptyString]
  | String c s' =>
      match skip with
      | S k => split_aux sep k s'
      | O =>
          if String.prefix sep s
          then EmptyString :: split_aux sep (String.length sep - 1)%nat s'
          else
            match split_aux sep O s' with
            | piece :: pieces => String c piece :: pieces
            | [] => [String c EmptyString]
            end
      end
  end.

Definition split (s sep : string) : list string := split_aux sep O s.

(** [getattr(value, field)] on a decoded object; a missing field raises.
    Only the fields of decoded objects are attributes here: a number has
    none. *)
Fixpoint getattr (fields : list (string * value)) (field : string)
  : option value :=
  match fields with
  | [] => None
  | (k, v) :: fields' => if String.eqb k field then Some v else getattr fields' field
  end.

(** [items[i]], a negative [i] counting from the end. *)
Definition getitem (items : list value) (i : Z) : option value :=
  if (0 <=? i) && (i <? len items) then items !! Z.to_nat i
  else if (i <? 0) && (- len items <=? i) then items !! Z.to_nat (len items + i)
  else None.

Section GetData.
Context `{External}.

Definition _get_data (v : value) (name : string) : option value :=
  let fields := split name "." in
  fold_left
    (fun (acc : option value) (field : string) =>
       match acc with
       | None => None
       | Some (VList items) =>
           match py_int field with
           | Some i => getitem items i
           | None => None
           end
       | Some (VObject fs) => getattr fs field
       | Some _ => None
       end)
    fields (Some v).
End GetData.

(** ** class RecordSignal *)

Module RecordSignal.

(** A handler is a callable of the user interface; it is known by a name,
    and calling it is recorded. *)
Definition handler := string.

Record t : Type := mk {
  _index : Z;
  _callbacks : list (Z * handler)
}.

Definition __init__ : t := mk 0 [].

(** The result is the index that the returned [Connection] holds. *)
Definition connect (sig : t) (h : handler) : t * Z :=
  let result := _index sig in
  (mk (_index sig + 1)
      (if existsb (fun kv => fst kv =? result) (_callbacks sig)
       then map (fun kv => if fst kv =? result then (result, h) else kv)
                (_callbacks sig)
       else _callbacks sig ++ [(result, h)]),
   result).

(** [Connection.remove]; deleting an absent index raises. *)
Definition remove (sig : t) (index : Z) : option t :=
  if existsb (fun kv => fst kv =? index) (_callbacks sig)
  then Some (mk (_index sig)
                (List.filter (fun kv => negb (fst kv =? index))
                             (_callbacks sig)))
  else None.

(** The calls made, in order, and the result. *)
Definition update (sig : t) (v : value) : list (handler * value) * bool :=
  (map (fun kv => (snd kv, v)) (_callbacks sig),
   negb (len (_callbacks sig) =? 0)).

End RecordSignal.

(** ** class Record *)

Module Record.
Section WithExternal.
Context `{External}.

(** [signals] is a dictionary: its keys are distinct and it is walked in
    insertion order. *)
Record t : Type := mk {
  archive_ : archive;
  signals : list (string * RecordSignal.t);
  history : list value
}.

Definition __init__ (a : archive) : t := mk a [] [].

Definition get_signal (r : t) (name : string) : t * RecordSignal.t :=
  match List.find (fun kv => String.eqb (fst kv) name) (signals r) with
  | Some kv => (r, snd kv)
  | None =>
      (mk (archive_ r) (signals r ++ [(name, RecordSignal.__init__)])
          (history r),
       RecordSignal.__init__)
  end.

(** The value that [update] computes for the signal stored under [key]. *)
Definition signal_value (hist : list value) (struct : value) (key : string)
  : option value :=
  if startswith key "__STDDEV_" then
    let remaining := nth 1 (split key "__STDDEV_") EmptyString in
    match mapM (fun x => _get_data x remaining) hist with
    | Some values => numpy_std values
    | None => None
    end
  else if startswith key "__MEAN_" then
    let remaining := nth 1 (split key "__MEAN_") EmptyString in
    match mapM (fun x => _get_data x remaining) hist with
    | Some values => numpy_mean values
    | None => None
    end
  else _get_data struct key.

(** The loop over [signals.items()]: the calls made, and the final
    [count], or [None] when computing a value raised. *)
Fixpoint update_signals (hist : list value) (struct : value)
    (items : list (string * RecordSignal.t)) (count : Z)
  : list (RecordSignal.handler * value) * option Z :=
  match items with
  | [] => ([], Some count)
  | (key, signal) :: items' =>
      match signal_value hist struct key with
      | None => ([], None)
      | Some v =>
          let '(calls, delivered) := RecordSignal.update signal v in
          let count' := if delivered then count + 1 else count in
          let '(calls', r) := update_signals hist struct items' count' in
          (calls ++ calls', r)
      end
  end.

Definition update (r : t) (struct : value)
  : t * list (RecordSignal.handler * value) * option bool :=
  let count := 0 in
  let history1 := history r ++ [struct] in
  let history2 :=
    if len history1 >? MAX_HISTORY_SIZE then slice_from history1 1
    else history1 in
  let r1 := mk (archive_ r) (signals r) history2 in
  let '(calls, res) := update_signals history2 struct (signals r1) count in
  (r1, calls,
   match res with
   | Some count' => Some (negb (count' =? 0))
   | None => None
   end).

End WithExternal.
End Record.

(** ** class Device *)

Inductive exn : Type :=
  | CommandError (cmd err : string)
  | Exception.

Module Device.
Section WithExternal.
Context `{External}.

Record t : Type := mk {
  error_count : Z;
  poll_count : Z;
  number : Z;
  _stream : DeviceStream.t;
  _telemetry_records : gmap string Record.t
}.

Definition __init__ (number : Z) : t :=
  mk 0 0 number (DeviceStream.__init__ number) ∅.

Definition set_error_count (d : t) (v : Z) : t :=
  mk v (poll_count d) (number d) (_stream d) (_telemetry_records d).

Definition set_poll_count (d : t) (v : Z) : t :=
  mk (error_count d) v (number d) (_stream d) (_telemetry_records d).

Definition set_stream (d : t) (s : DeviceStream.t) : t :=
  mk (error_count d) (poll_count d) (number d) s (_telemetry_records d).

Definition set_telemetry_records (d : t) (m : gmap string Record.t) : t :=
  mk (error_count d) (poll_count d) (number d) (_stream d) m.

(** What a coroutine of the session has done when the wake-ups of its
    stream are used up. *)
Inductive outcome (A : Type) : Type :=
  | Returned (a : A) (d : t) (wakes : list bytes)
  | Raised (e : exn) (d : t) (wakes : list bytes)
  | Suspended (d : t).
Arguments Returned {A} a d wakes.
Arguments Raised {A} e d wakes.
Arguments Suspended {A} d.

Definition encode (text : string) : bytes := list_byte_of_string text.
Definition decode (data : bytes) : string := string_of_list_byte data.

Definition write (d : t) (data : bytes) : t :=
  set_stream d (DeviceStream.write (_stream d) data).

Definition write_line (d : t) (line : string) : t :=
  write d (encode line).

Definition emit_any_writes (d : t) : t * list frame :=
  let '(s, sent) := DeviceStream.maybe_emit_one (_stream d) in
  (set_stream d s, sent).

Definition poll (d : t) : t * list frame :=
  let '(s, sent) := DeviceStream.poll (_stream d) in
  (set_stream d s, sent).

Definition process_message (d : t) (data : bytes) : t * bool :=
  let '(s, any_data_read) := DeviceStream.process_message (_stream d) data in
  (set_stream d s, any_data_read).

Definition read_sized_block (d : t) (wakes : list bytes)
  : outcome (option bytes) :=
  match DeviceStream.read_sized_block (_stream d) wakes with
  | DeviceStream.Returned r s wakes' => Returned r (set_stream d s) wakes'
  | DeviceStream.Suspended s => Suspended (set_stream d s)
  end.

(** The loops below call [readline] once per turn; they are written over
    the results of these calls, [DeviceStream.lines], decoded. *)

(** The first loop of [command]: up to the first line that is neither an
    [emit] nor a [schema] line. *)
Fixpoint command_first (f : DeviceStream.feed) : DeviceStream.feed :=
  match f with
  | DeviceStream.Got l s wakes next =>
      let line := decode l in
      if startswith line "emit " || startswith line "schema "
      then command_first next
      else f
  | DeviceStream.Starved s => f
  end.

(** The second loop of [command]; the head of [f] is the current [line]. *)
Fixpoint command_rest (d : t) (message result : string)
    (f : DeviceStream.feed) : outcome string :=
  match f with
  | DeviceStream.Got l s wakes next =>
      let line := decode l in
      if startswith line "ERR"
      then Raised (CommandError message line) (set_stream d s) wakes
      else if startswith line "OK"
      then Returned result (set_stream d s) wakes
      else command_rest d message (result +:+ line +:+ LF) next
  | DeviceStream.Starved s => Suspended (set_stream d s)
  end.

Definition command (d : t) (message : string) (wakes : list bytes)
  : outcome string :=
  let d1 := write_line d (message +:+ CRLF) in
  command_rest d1 message EmptyString
    (command_first (DeviceStream.lines (_stream d1) wakes)).

(** [read_schema], as its second definition has it. *)
Fixpoint read_schema_loop (d : t) (name : string) (f : DeviceStream.feed)
  : outcome (option bytes) :=
  match f with
  | DeviceStream.Got l s wakes next =>
      let line := decode l in
      if startswith line "ERR"
      then Raised (CommandError EmptyString line) (set_stream d s) wakes
      else if negb (String.eqb line ("schema " +:+ name)
                    || String.eqb line ("cschema " +:+ name))
      then read_schema_loop d name next
      else read_sized_block (set_stream d s) wakes
  | DeviceStream.Starved s => Suspended (set_stream d s)
  end.

Definition read_schema (d : t) (name : string) (wakes : list bytes)
  : outcome (option bytes) :=
  read_schema_loop d name (DeviceStream.lines (_stream d) wakes).

Fixpoint read_data_loop (d : t) (name : string) (f : DeviceStream.feed)
  : outcome (option bytes) :=
  match f with
  | DeviceStream.Got l s wakes next =>
      let line := decode l in
      if negb (String.eqb line ("cdata " +:+ name))
      then read_data_loop d name next
      else if startswith line "ERR"
      then Raised (CommandError EmptyString line) (set_stream d s) wakes
      else read_sized_block (set_stream d s) wakes
  | DeviceStream.Starved s => Suspended (set_stream d s)
  end.

Definition read_data (d : t) (name : string) (wakes : list bytes)
  : outcome (option bytes) :=
  read_data_loop d name (DeviceStream.lines (_stream d) wakes).

(** [not data]: the block is [False] or empty.  In [do_data] the later
    test [if record:] always holds, a [Record] being an object without
    [__bool__] or [__len__]; the refresh of the tree widget is left out. *)
Definition falsy (data : option bytes) : bool :=
  match data with
  | Some (_ :: _) => false
  | _ => true
  end.

Definition do_data (d : t) (name : string) (wakes : list bytes)
  : outcome unit :=
  match read_sized_block d wakes with
  | Suspended d1 => Suspended d1
  | Raised e d1 wakes1 => Raised e d1 wakes1
  | Returned data d1 wakes1 =>
      if falsy data then Returned tt d1 wakes1
      else
        match _telemetry_records d1 !! name with
        | None => Returned tt d1 wakes1
        | Some record =>
            match archive_read (Record.archive_ record)
                               (match data with
                                | Some block => block
                                | None => []
                                end) with
            | None => Raised Exception d1 wakes1
            | Some struct =>
                let '(record1, _, r) := Record.update record struct in
                let d2 :=
                  set_telemetry_records d1
                    (<[name := record1]> (_telemetry_records d1)) in
                match r with
                | None => Raised Exception d2 wakes1
                | Some _ => Returned tt d2 wakes1
                end
            end
        end
  end.

End WithExternal.

Arguments Returned {H A} a d wakes.
Arguments Raised {H A} e d wakes.
Arguments Suspended {H A} d.

End Device.

(** ** class TviewMainWindow: the transport loop *)

(** A frame read from the transport. *)
Record message : Type := mk_message {
  arbitration_id : Z;
  data : bytes
}.

(** What the transport does while [_dispatch_until] runs under [wait_for]:
    [transport.read()] returns a frame or [None], or the timeout of the
    poll passes first.  A transport with nothing more to deliver lets every
    later poll time out. *)
Inductive rx : Type :=
  | Read (m : option message)
  | Deadline.

Module TviewMainWindow.
Section WithExternal.
Context `{External}.

Definition source_id_of (m : message) : Z :=
  Z.land (Z.shiftr (arbitration_id m) 8) 0xff.

(** The [for device in self.devices] loop of [_dispatch_until], which
    stops at the first device whose number is [source_id]. *)
Fixpoint route (devices : list Device.t) (source_id : Z) (m : message)
  : list Device.t * bool :=
  match devices with
  | [] => ([], false)
  | device :: rest =>
      if Device.number device =? source_id then
        let '(device', any_data_read) :=
          Device.process_message device (data m) in
        (device' :: rest, any_data_read)
      else
        let '(rest', any_data_read) := route rest source_id m in
        (device :: rest', any_data_read)
  end.

(** [wait_for(self._dispatch_until(predicate), timeout)]: the result is
    [None] on [TimeoutError]. *)
Fixpoint _dispatch_until (devices : list Device.t)
    (predicate : message -> bool) (inbound : list rx)
  : list Device.t * option bool * list rx :=
  match inbound with
  | [] => (devices, None, [])
  | Deadline :: inbound' => (devices, None, inbound')
  | Read None :: inbound' => _dispatch_until devices predicate inbound'
  | Read (Some m) :: inbound' =>
      let source_id := source_id_of m in
      let '(devices', any_data_read) := route devices source_id m in
      if predicate m then (devices', Some any_data_read, inbound')
      else _dispatch_until devices' predicate inbound'
  end.

(** The first loop of [_run_transport_iteration]. *)
Fixpoint emit_all (devices : list Device.t) : list Device.t * list frame :=
  match devices with
  | [] => ([], [])
  | device :: rest =>
      let '(device', sent) := Device.emit_any_writes device in
      let '(rest', sent') := emit_all rest in
      (device' :: rest', sent ++ sent')
  end.

(** The state that the second loop carries from one device to the next. *)
Record polling : Type := mk_polling {
  devices_ : list Device.t;
  inbound_ : list rx;
  sent_ : list frame;
  any_data_read_ : bool
}.

(** One turn of the second loop, for the device at position [i]. *)
Definition poll_one (st : polling) (i : nat) : polling :=
  match devices_ st !! i with
  | None => st
  | Some device =>
      if negb (Device.poll_count device =? 0) then
        mk_polling
          (<[i := Device.set_poll_count device
                    (Device.poll_count device - 1)]> (devices_ st))
          (inbound_ st) (sent_ st) (any_data_read_ st)
      else
        let '(device1, sent) := Device.poll device in
        let devices1 := <[i := device1]> (devices_ st) in
        let '(devices2, r, inbound') :=
          _dispatch_until devices1
            (fun x => source_id_of x =? Device.number device)
            (inbound_ st) in
        match r with
        | Some this_data_read =>
            mk_polling
              (alter (fun d => Device.set_poll_count
                                 (Device.set_error_count d 0) 0)
                     i devices2)
              inbound' (sent_ st ++ sent)
              (if this_data_read then true else any_data_read_ st)
        | None =>
            mk_polling
              (alter (fun d =>
                        let d' := Device.set_error_count d
                                    (Z.min 1000 (Device.error_count d + 1)) in
                        Device.set_poll_count d' (Device.error_count d'))
                     i devices2)
              inbound' (sent_ st ++ sent) (any_data_read_ st)
        end
  end.

(** The devices and the transport afterwards, the frames written in the
    order they were written, and the result. *)
Definition _run_transport_iteration (devices : list Device.t)
    (inbound : list rx)
  : list Device.t * list rx * list frame * bool :=
  let any_data_read := false in
  let '(devices1, written) := emit_all devices in
  let st :=
    fold_left poll_one (seq 0 (length devices1))
      (mk_polling devices1 inbound written any_data_read) in
  (devices_ st, inbound_ st, sent_ st, any_data_read_ st).

(** [n] turns of the loop of [_run_transport]; the sleep between two idle
    turns is not modelled. *)
Fixpoint _run_transport (n : nat) (devices : list Device.t)
    (inbound : list rx) : list Device.t * list rx * list frame :=
  match n with
  | O => (devices, inbound, [])
  | S n' =>
      let '(devices1, inbound1, sent1, _) :=
        _run_transport_iteration devices inbound in
      let '(devices2, inbound2, sent2) :=
        _run_transport n' devices1 inbound1 in
      (devices2, inbound2, sent1 ++ sent2)
  end.

End WithExternal.
End TviewMainWindow.

(** ** An instance of the external functions, for running the model *)

Module Example.

Definition to_float (v : value) : option float :=
  match v with
  | VInt z =>
      Some (if z <? 0
            then PrimFloat.opp (PrimFloat.of_uint63 (Uint63.of_Z (- z)))
            else PrimFloat.of_uint63 (Uint63.of_Z z))
  | VFloat f => Some f
  | _ => None
  end.

Definition fsum (fs : list float) : float :=
  fold_left PrimFloat.add fs 0%float.

Definition fcount (fs : list float) : float :=
  PrimFloat.of_uint63 (Uint63.of_Z (len fs)).

(** The arithmetic mean in binary64, summed from left to right. *)
Definition mean (vs : list value) : option value :=
  match mapM to_float vs with
  | Some fs => Some (VFloat (PrimFloat.div (fsum fs) (fcount fs)))
  | None => None
  end.

(** The population standard deviation in binary64. *)
Definition std (vs : list value) : option value :=
  match mapM to_float vs with
  | Some fs =>
      let m := PrimFloat.div (fsum fs) (fcount fs) in
      let sq := map (fun x => PrimFloat.mul (PrimFloat.sub x m)
                                            (PrimFloat.sub x m)) fs in
      Some (VFloat (PrimFloat.sqrt (PrimFloat.div (fsum sq) (fcount fs))))
  | None => None
  end.

Fixpoint digits (s : string) (acc : Z) : option Z :=
  match s with
  | EmptyString => Some acc
  | String c s' =>
      let n := Z.of_nat (nat_of_ascii c) - 48 in
      if (0 <=? n) && (n <=? 9) then digits s' (10 * acc + n) else None
  end.

(** [int] on an optionally signed run of decimal digits. *)
Definition int (s : string) : option Z :=
  match s with
  | EmptyString => None
  | String "-"%char (String _ _ as s') => option_map Z.opp (digits s' 0)
  | String "+"%char (String _ _ as s') => digits s' 0
  | _ => digits s 0
  end.

(** A decoder for samples with one field [x], one byte wide. *)
Definition read (_ : unit) (data : bytes) : option value :=
  match data with
  | [b] => Some (VObject [("x"%string, VInt (byte_val b))])
  | _ => None
  end.

#[export] Instance external : External := {
  archive := unit;
  archive_read := read;
  py_int := int;
  numpy_mean := mean;
  numpy_std := std
}.

End Example.

(** * Properties *)

(** ** Arithmetic of the helpers *)

Lemma byte_val_range (b : byte) : 0 <= byte_val b < 256.
Proof.
  unfold byte_val. pose proof (Byte.to_N_bounded b) as Hb. lia.
Qed.

Lemma len_nonneg {A : Type} (l : list A) : 0 <= len l.
Proof. unfold len. lia. Qed.

Lemma len_app {A : Type} (l1 l2 : list A) : len (l1 ++ l2) = len l1 + len l2.
Proof. unfold len. rewrite length_app. lia. Qed.

Lemma len_nil_iff {A : Type} (l : list A) : len l = 0 <-> l = [].
Proof.
  unfold len. destruct l as [|x l]; simpl; split; intros Hl; try done; lia.
Qed.

Lemma len_slice {A : Type} (l : list A) (lo hi : Z) :
  0 <= lo -> lo <= hi -> hi <= len l -> len (slice l lo hi) = hi - lo.
Proof.
  unfold len, slice. intros Hlo Hhi Hlen.
  rewrite length_take, length_drop. lia.
Qed.

Lemma slice_0 {A : Type} (l : list A) (hi : Z) :
  slice l 0 hi = take (Z.to_nat hi) l.
Proof. unfold slice. rewrite Z.sub_0_r. reflexivity. Qed.

Lemma slice_app_exact {A : Type} (pre mid post : list A) :
  slice (pre ++ mid ++ post) (len pre) (len pre + len mid) = mid.
Proof.
  unfold slice, len.
  replace (Z.to_nat (Z.of_nat (length pre))) with (length pre) by lia.
  replace (Z.to_nat (Z.of_nat (length pre) + Z.of_nat (length mid)
                     - Z.of_nat (length pre))) with (length mid) by lia.
  rewrite drop_app_length. apply take_app_length.
Qed.

Lemma slice_0_app {A : Type} (pre post : list A) :
  slice (pre ++ post) 0 (len pre) = pre.
Proof.
  unfold slice, len. rewrite Z.sub_0_r, Nat2Z.id. simpl.
  apply take_app_length.
Qed.

Lemma slice_from_app_exact {A : Type} (pre post : list A) :
  slice_from (pre ++ post) (len pre) = post.
Proof.
  unfold slice_from, len.
  replace (Z.to_nat (Z.of_nat (length pre))) with (length pre) by lia.
  apply drop_app_length.
Qed.

Lemma gtb_true (a b : Z) : b < a -> (a >? b) = true.
Proof. intros Hab. rewrite Z.gtb_ltb. now apply Z.ltb_lt. Qed.

Lemma gtb_false (a b : Z) : a <= b -> (a >? b) = false.
Proof. intros Hab. rewrite Z.gtb_ltb. now apply Z.ltb_ge. Qed.

Lemma geb_true (a b : Z) : b <= a -> (a >=? b) = true.
Proof. intros Hab. rewrite Z.geb_leb. now apply Z.leb_le. Qed.

Lemma geb_false (a b : Z) : a < b -> (a >=? b) = false.
Proof. intros Hab. rewrite Z.geb_leb. now apply Z.leb_gt. Qed.

(** ** DeviceStream.process_message *)

(** The payloads that the specification calls malformed. *)
Definition malformed (data : bytes) : bool :=
  (len data <? 3)
  || negb (index data 0 =? 0x41)
  || negb (index data 1 =? 1)
  || (index data 2 >? 61)
  || (index data 2 >? len data - 3).

(** The two ways [process_message] can go. *)
Lemma process_message_cases (s : DeviceStream.t) (data : bytes) :
  DeviceStream.process_message s data
  = if malformed data then (s, false)
    else (DeviceStream.notify_all
            (DeviceStream.set_read_data s
               (DeviceStream._read_data s ++ slice data 3 (3 + index data 2))),
          index data 2 >? 0).
Proof.
  unfold malformed, DeviceStream.process_message, MAX_SEND.
  destruct (len data <? 3); [reflexivity|].
  destruct (index data 0 =? 65); [|reflexivity].
  destruct (index data 1 =? 1); [|reflexivity].
  destruct (index data 2 >? 61); [reflexivity|].
  destruct (index data 2 >? len data - 3); reflexivity.
Qed.

(** C3: a malformed payload (fewer than 3 bytes, byte 0 not 0x41, byte 1 not
    0x01, declared length above 61, or declared length above the bytes that
    follow the header) leaves the stream as it was (the inbound buffer is
    unchanged and [notify_all] is not called) and the call returns [False];
    any other payload appends exactly the declared number of data bytes,
    [data[3:3+L]], wakes the readers once, and returns whether [L] is
    non-zero. *)
Theorem process_message_drops_or_appends (s : DeviceStream.t) (data : bytes) :
  if malformed data
  then DeviceStream.process_message s data = (s, false)
  else
    let appended := slice data 3 (3 + index data 2) in
    len appended = index data 2
    /\ DeviceStream.process_message s data
       = (DeviceStream.notify_all
            (DeviceStream.set_read_data s
               (DeviceStream._read_data s ++ appended)),
          negb (len appended =? 0)).
Proof.
  rewrite process_message_cases.
  destruct (malformed data) eqn:Hm; [reflexivity|].
  unfold malformed in Hm.
  repeat (apply orb_false_elim in Hm as [Hm ?]).
  pose proof (byte_val_range (nth 2 data x00)) as Hb.
  fold (index data 2) in Hb.
  assert (Hl : len (slice data 3 (3 + index data 2)) = index data 2).
  { rewrite Z.gtb_ltb in *. rewrite len_slice; lia. }
  cbv zeta. split; [exact Hl|]. rewrite Hl. f_equal.
  destruct (index data 2 >? 0) eqn:Hp, (index data 2 =? 0) eqn:Hz;
    try reflexivity; rewrite Z.gtb_ltb in Hp; lia.
Qed.

(** ** DeviceStream.read_sized_block *)

Lemma unpack_le32_range (data : bytes) : 0 <= unpack_le32 data < 2 ^ 32.
Proof.
  unfold unpack_le32, index.
  pose proof (byte_val_range (nth 0 data x00)).
  pose proof (byte_val_range (nth 1 data x00)).
  pose proof (byte_val_range (nth 2 data x00)).
  pose proof (byte_val_range (nth 3 data x00)).
  lia.
Qed.

(** A block that is wholly buffered is cut out at once, whatever the first
    byte is, and what follows it stays. *)
Lemma read_sized_block_buffered (s : DeviceStream.t) (m b1 b2 b3 b4 : byte)
    (block extra : bytes) (wakes : list bytes) :
  unpack_le32 [b1; b2; b3; b4] = len block ->
  len block <= 2 ^ 24 ->
  DeviceStream.read_sized_block
    (DeviceStream.set_read_data s (m :: b1 :: b2 :: b3 :: b4 :: block ++ extra))
    wakes
  = DeviceStream.Returned (Some block) (DeviceStream.set_read_data s extra)
      wakes.
Proof.
  intros Hsize Hcap.
  set (hdr := [m; b1; b2; b3; b4]).
  change (m :: b1 :: b2 :: b3 :: b4 :: block ++ extra)
    with (hdr ++ block ++ extra).
  destruct wakes as [|w wakes]; cbn [DeviceStream.read_sized_block];
    cbn [DeviceStream._read_data DeviceStream.set_read_data];
    (replace (slice (hdr ++ block ++ extra) 1 5) with [b1; b2; b3; b4]
       by reflexivity);
    rewrite Hsize;
    (rewrite (geb_true (len (hdr ++ block ++ extra)) 5)
       by (rewrite len_app; pose proof (len_nonneg (block ++ extra));
           change (len hdr) with 5; lia));
    (rewrite (gtb_false (len block) (2 ^ 24)) by lia);
    (rewrite (geb_true (len (hdr ++ block ++ extra)) (5 + len block))
       by (rewrite !len_app; pose proof (len_nonneg extra);
           change (len hdr) with 5; lia));
    change 5 with (len hdr);
    rewrite slice_app_exact;
    (replace (len hdr + len block) with (len (hdr ++ block))
       by apply len_app);
    (replace (hdr ++ block ++ extra) with ((hdr ++ block) ++ extra)
       by (symmetry; apply app_assoc));
    rewrite slice_from_app_exact; reflexivity.
Qed.

(** C4: with [X, 5, 0, 0, 0], five payload bytes and then more bytes in
    the buffer, [read_sized_block] returns at once with exactly the five
    payload bytes and leaves the bytes after them in the buffer; and when the
    buffer holds its five header bytes and the little-endian length in
    bytes 1 to 4 is above 2^24, it returns [False] at once and the stream,
    its buffer included, is what it was. *)
Theorem read_sized_block_five_and_cap :
  (forall (s : DeviceStream.t) (X p1 p2 p3 p4 p5 : byte) (extra : bytes)
          (wakes : list bytes),
      DeviceStream.read_sized_block
        (DeviceStream.set_read_data s
           (X :: x05 :: x00 :: x00 :: x00 :: [p1; p2; p3; p4; p5] ++ extra))
        wakes
      = DeviceStream.Returned (Some [p1; p2; p3; p4; p5])
          (DeviceStream.set_read_data s extra) wakes)
  /\ (forall (s : DeviceStream.t) (wakes : list bytes),
         5 <= len (DeviceStream._read_data s) ->
         2 ^ 24 < unpack_le32 (slice (DeviceStream._read_data s) 1 5) ->
         DeviceStream.read_sized_block s wakes
         = DeviceStream.Returned None s wakes).
Proof.
  split.
  - intros s X p1 p2 p3 p4 p5 extra wakes.
    apply read_sized_block_buffered; [reflexivity | vm_compute; discriminate].
  - intros s wakes Hlen Hsize.
    destruct wakes as [|w wakes]; cbn [DeviceStream.read_sized_block];
      (rewrite geb_true by lia); (rewrite gtb_true by lia);
      reflexivity.
Qed.

(** A declared length of 2^24 + 1 on a concrete buffer. *)
Lemma read_sized_block_five_and_cap_witness :
  DeviceStream.read_sized_block
    (DeviceStream.mk [] [x24; x01; x00; x00; x01; x61] 1 0%nat 0 0) [[x62]]
  = DeviceStream.Returned None
      (DeviceStream.mk [] [x24; x01; x00; x00; x01; x61] 1 0%nat 0 0) [[x62]].
Proof.
  apply (proj2 read_sized_block_five_and_cap); vm_compute; [discriminate | reflexivity].
Defined.

(** ** DeviceStream.resynchronize *)

Lemma fold_resume_read_data (wakes : list bytes) (s : DeviceStream.t) :
  DeviceStream._read_data (fold_left DeviceStream.resume wakes s)
  = DeviceStream._read_data s ++ concat wakes.
Proof.
  revert s. induction wakes as [|w wakes IH]; intros s; simpl.
  - now rewrite app_nil_r.
  - rewrite IH. simpl. now rewrite <- app_assoc.
Qed.

(** C7: [resynchronize] returns exactly when one of its wait cycles ends
    with the inbound buffer no longer than it was when the cycle began:
    every earlier cycle made the buffer grow, the returned stream has an
    empty inbound buffer, and the wake-ups after that cycle are not used.
    When every wait cycle ends with the buffer longer than before, it is
    still suspended, with all of these bytes buffered. *)
Theorem resynchronize_waits_for_quiet_cycle (s : DeviceStream.t)
    (wakes : list bytes) :
  match DeviceStream.resynchronize s wakes with
  | DeviceStream.Returned _ s' rest =>
      exists grown : list bytes,
        wakes = grown ++ [] :: rest
        /\ Forall (fun w => 0 < len w) grown
        /\ len (DeviceStream._read_data
                  (fold_left DeviceStream.resume (grown ++ [[]]) s))
           = len (DeviceStream._read_data
                    (fold_left DeviceStream.resume grown s))
        /\ s' = DeviceStream.set_read_data s []
        /\ len (DeviceStream._read_data s') = 0
  | DeviceStream.Suspended s' =>
      Forall (fun w => 0 < len w) wakes
      /\ s' = fold_left DeviceStream.resume wakes s
  end.
Proof.
  revert s. induction wakes as [|w wakes IH]; intros s.
  - simpl. split; [constructor | reflexivity].
  - cbn [DeviceStream.resynchronize].
    destruct (len (DeviceStream._read_data (DeviceStream.resume s w))
              =? len (DeviceStream._read_data s)) eqn:Hq.
    + apply Z.eqb_eq in Hq. simpl in Hq. rewrite len_app in Hq.
      assert (w = []) as -> by (apply len_nil_iff; lia).
      exists []. simpl. rewrite app_nil_r. repeat split; try constructor.
    + apply Z.eqb_neq in Hq. simpl in Hq. rewrite len_app in Hq.
      pose proof (len_nonneg w) as Hw.
      specialize (IH (DeviceStream.resume s w)).
      destruct (DeviceStream.resynchronize (DeviceStream.resume s w) wakes)
        as [[] s' rest|s'].
      * destruct IH as (grown & -> & Hg & Hlen & -> & Hz).
        exists (w :: grown). simpl. repeat split; try assumption.
        constructor; [lia | assumption].
      * destruct IH as [Hall ->]. split; [|reflexivity].
        constructor; [lia | assumption].
Qed.

(** ** DeviceStream.readline *)

Definition is_newline (b : byte) : bool := Byte.eqb b x0d || Byte.eqb b x0a.

(** The byte runs that end at a CR or LF, delimiter left out; [cur] is the
    run read so far.  The run after the last delimiter is not yet a line. *)
Fixpoint segments (cur : bytes) (stream : bytes) : list bytes :=
  match stream with
  | [] => []
  | b :: stream' =>
      if is_newline b then cur :: segments [] stream'
      else segments (cur ++ [b]) stream'
  end.

Definition nonempty (l : bytes) : bool := negb (len l =? 0).

(** The lines as the specification words them: the bytes between successive
    delimiters, the empty ones dropped. *)
Definition lines_between_delimiters (stream : bytes) : list bytes :=
  List.filter nonempty (segments [] stream).

(** The lines as the code returns them: each run with its trailing ASCII
    whitespace removed, dropped when nothing is left. *)
Definition stripped_lines (stream : bytes) : list bytes :=
  List.filter nonempty (map rstrip (segments [] stream)).

Definition newlines (stream : bytes) : nat :=
  length (List.filter is_newline stream).

(** The wake-ups that a sequence of [process_message] calls gives a waiting
    reader when it runs after each [notify_all]: the bytes just appended. *)
Fixpoint wake_ups (s : DeviceStream.t) (payloads : list bytes) : list bytes :=
  match payloads with
  | [] => []
  | p :: payloads' =>
      let s' := fst (DeviceStream.process_message s p) in
      if (DeviceStream._read_condition s' =? DeviceStream._read_condition s)%nat
      then wake_ups s' payloads'
      else drop (length (DeviceStream._read_data s)) (DeviceStream._read_data s')
           :: wake_ups s' payloads'
  end.

Definition accept_all (s : DeviceStream.t) (payloads : list bytes)
  : DeviceStream.t :=
  fold_left (fun s p => fst (DeviceStream.process_message s p)) payloads s.

(** The body of the loop of [readline] up to its [await]. *)
Definition readline_try (s : DeviceStream.t) : option bytes * DeviceStream.t :=
  let '(maybe_line, s1) := DeviceStream._read_maybe_empty_line s in
  (match maybe_line with
   | Some l =>
       if 0 <? len l
       then let l' := rstrip l in if len l' >? 0 then Some l' else None
       else None
   | None => None
   end, s1).

Lemma readline_eq (s : DeviceStream.t) (wakes : list bytes) :
  DeviceStream.readline s wakes
  = match readline_try s with
    | (Some l, s1) => DeviceStream.Returned l s1 wakes
    | (None, s1) =>
        match wakes with
        | [] => DeviceStream.Suspended s1
        | w :: wakes' => DeviceStream.readline (DeviceStream.resume s1 w) wakes'
        end
    end.
Proof.
  unfold readline_try.
  destruct wakes as [|w wakes]; cbn [DeviceStream.readline];
    destruct (DeviceStream._read_maybe_empty_line s) as [[l|] s1]; reflexivity.
Qed.

Lemma byte_eqb_refl (b : byte) : Byte.eqb b b = true.
Proof. now apply Byte.byte_dec_lb. Qed.

Lemma byte_eqb_neq (a b : byte) : a <> b -> Byte.eqb a b = false.
Proof.
  intros Hab. destruct (Byte.eqb a b) eqn:E; [|reflexivity].
  now apply Byte.byte_dec_bl in E.
Qed.

Lemma contains_find (c : byte) (l : bytes) :
  contains c l = true -> 0 <= find c l.
Proof.
  induction l as [|b l IH]; simpl; [discriminate|].
  destruct (Byte.eqb b c); simpl; [lia|].
  intros Hc. specialize (IH Hc).
  destruct (find c l <? 0) eqn:E; [apply Z.ltb_lt in E|]; lia.
Qed.

(** The index that [_read_maybe_empty_line] computes. *)
Definition first_newline (l : bytes) : option Z :=
  min_default
    (map (fun c => find c l) (List.filter (fun c => contains c l) [x0d; x0a])).

Lemma contains_cons (c b : byte) (l : bytes) :
  contains c (b :: l) = Byte.eqb b c || contains c l.
Proof. reflexivity. Qed.

Lemma find_cons (c b : byte) (l : bytes) :
  find c (b :: l)
  = if Byte.eqb b c then 0 else if find c l <? 0 then -1 else 1 + find c l.
Proof. reflexivity. Qed.

Lemma first_newline_cons (b : byte) (l : bytes) :
  first_newline (b :: l)
  = if is_newline b then Some 0 else option_map (Z.add 1) (first_newline l).
Proof.
  unfold first_newline, is_newline. cbn [List.filter].
  rewrite !contains_cons.
  destruct (Byte.eqb b x0d) eqn:Hcr, (Byte.eqb b x0a) eqn:Hlf,
    (contains x0d l) eqn:Hc1, (contains x0a l) eqn:Hc2;
    cbn [orb map min_default fold_left option_map];
    rewrite ?find_cons, ?Hcr, ?Hlf;
    try (apply contains_find in Hc1); try (apply contains_find in Hc2);
    repeat match goal with
           | |- context [find ?c l <? 0] =>
               let E := fresh "E" in
               destruct (find c l <? 0) eqn:E;
               [apply Z.ltb_lt in E | apply Z.ltb_ge in E]
           end;
    try lia; try reflexivity; f_equal; lia.
Qed.

Lemma first_newline_none (l : bytes) :
  forallb (fun b => negb (is_newline b)) l = true -> first_newline l = None.
Proof.
  induction l as [|b l IH]; [reflexivity|].
  simpl. intros Hl. apply andb_prop in Hl as [Hb Hl].
  rewrite first_newline_cons. apply negb_true_iff in Hb. rewrite Hb.
  now rewrite IH.
Qed.

Lemma first_newline_split (seg : bytes) (d : byte) (rest : bytes) :
  forallb (fun b => negb (is_newline b)) seg = true ->
  is_newline d = true ->
  first_newline (seg ++ d :: rest) = Some (len seg).
Proof.
  intros Hseg Hd. induction seg as [|b seg IH].
  - simpl. rewrite first_newline_cons, Hd. reflexivity.
  - simpl in Hseg. apply andb_prop in Hseg as [Hb Hseg].
    apply negb_true_iff in Hb.
    change ((b :: seg) ++ d :: rest) with (b :: seg ++ d :: rest).
    rewrite first_newline_cons, Hb, (IH Hseg). simpl. f_equal.
    unfold len. simpl length. lia.
Qed.

(** Every buffer either holds no delimiter or splits at its first one. *)
Lemma split_at_newline (l : bytes) :
  forallb (fun b => negb (is_newline b)) l = true
  \/ exists seg d rest,
       l = seg ++ d :: rest
       /\ forallb (fun b => negb (is_newline b)) seg = true
       /\ is_newline d = true.
Proof.
  induction l as [|b l IH]; [now left|].
  destruct (is_newline b) eqn:Hb.
  - right. exists [], b, l. now repeat split.
  - destruct IH as [Hl | (seg & d & rest & -> & Hseg & Hd)].
    + left. simpl. now rewrite Hb, Hl.
    + right. exists (b :: seg), d, rest. repeat split; try assumption.
      simpl. now rewrite Hb, Hseg.
Qed.

Lemma read_maybe_empty_line_eq (s : DeviceStream.t) :
  DeviceStream._read_maybe_empty_line s
  = match first_newline (DeviceStream._read_data s) with
    | None => (None, s)
    | Some n =>
        (Some (slice (DeviceStream._read_data s) 0 (n + 1)),
         DeviceStream.set_read_data s
           (slice_from (DeviceStream._read_data s) (n + 1)))
    end.
Proof. reflexivity. Qed.

Lemma is_newline_space (d : byte) : is_newline d = true -> is_space d = true.
Proof.
  unfold is_newline, is_space. intros Hd. apply orb_prop in Hd as [Hd | Hd];
    apply Byte.byte_dec_bl in Hd; subst d; reflexivity.
Qed.

Lemma rstrip_app_space (l : bytes) (d : byte) :
  is_space d = true -> rstrip (l ++ [d]) = rstrip l.
Proof.
  intros Hd. induction l as [|b l IH]; simpl.
  - now rewrite Hd.
  - now rewrite IH.
Qed.

Lemma readline_try_none (s : DeviceStream.t) :
  forallb (fun b => negb (is_newline b)) (DeviceStream._read_data s) = true ->
  readline_try s = (None, s).
Proof.
  intros Hs. unfold readline_try.
  now rewrite read_maybe_empty_line_eq, (first_newline_none _ Hs).
Qed.

Lemma readline_try_split (s : DeviceStream.t) (seg : bytes) (d : byte)
    (rest : bytes) :
  DeviceStream._read_data s = seg ++ d :: rest ->
  forallb (fun b => negb (is_newline b)) seg = true ->
  is_newline d = true ->
  readline_try s
  = (if nonempty (rstrip seg) then Some (rstrip seg) else None,
     DeviceStream.set_read_data s rest).
Proof.
  intros Hs Hseg Hd. unfold readline_try.
  rewrite read_maybe_empty_line_eq, Hs, (first_newline_split _ _ _ Hseg Hd).
  assert (Hcut : seg ++ d :: rest = (seg ++ [d]) ++ rest)
    by now rewrite <- app_assoc.
  assert (Hlen : len seg + 1 = len (seg ++ [d]))
    by (rewrite len_app; reflexivity).
  rewrite Hlen, Hcut, slice_from_app_exact.
  rewrite slice_0_app.
  rewrite <- Hlen. pose proof (len_nonneg seg) as Hn.
  replace (0 <? len seg + 1) with true by (symmetry; apply Z.ltb_lt; lia).
  rewrite (rstrip_app_space _ _ (is_newline_space _ Hd)).
  unfold nonempty. pose proof (len_nonneg (rstrip seg)) as Hr.
  destruct (len (rstrip seg) =? 0) eqn:E; simpl.
  - apply Z.eqb_eq in E. now rewrite gtb_false by lia.
  - apply Z.eqb_neq in E. now rewrite gtb_true by lia.
Qed.

Lemma segments_app (l l' cur : bytes) :
  forallb (fun b => negb (is_newline b)) l = true ->
  segments cur (l ++ l') = segments (cur ++ l) l'.
Proof.
  revert cur. induction l as [|b l IH]; intros cur Hl; simpl.
  - now rewrite app_nil_r.
  - simpl in Hl. apply andb_prop in Hl as [Hb Hl].
    apply negb_true_iff in Hb. rewrite Hb, (IH _ Hl).
    now rewrite <- app_assoc.
Qed.

Lemma stripped_lines_none (l : bytes) :
  forallb (fun b => negb (is_newline b)) l = true -> stripped_lines l = [].
Proof.
  intros Hl. unfold stripped_lines.
  pose proof (segments_app l [] [] Hl) as Hs. rewrite app_nil_r in Hs.
  now rewrite Hs.
Qed.

Lemma stripped_lines_split (seg : bytes) (d : byte) (rest : bytes) :
  forallb (fun b => negb (is_newline b)) seg = true ->
  is_newline d = true ->
  stripped_lines (seg ++ d :: rest)
  = (if nonempty (rstrip seg) then [rstrip seg] else []) ++ stripped_lines rest.
Proof.
  intros Hseg Hd. unfold stripped_lines.
  rewrite (segments_app _ _ _ Hseg). simpl. rewrite Hd. simpl.
  destruct (nonempty (rstrip seg)); reflexivity.
Qed.

(** What is buffered together with what the wake-ups will bring. *)
Definition stream (s : DeviceStream.t) (wakes : list bytes) : bytes :=
  DeviceStream._read_data s ++ concat wakes.

Lemma stream_resume (s : DeviceStream.t) (w : bytes) (wakes : list bytes) :
  stream (DeviceStream.resume s w) wakes = stream s (w :: wakes).
Proof. unfold stream. simpl. now rewrite <- app_assoc. Qed.

Lemma pending_resume (s : DeviceStream.t) (w : bytes) (wakes : list bytes) :
  S (DeviceStream.pending (DeviceStream.resume s w) wakes)
  = DeviceStream.pending s (w :: wakes).
Proof. unfold DeviceStream.pending. simpl. rewrite length_app. lia. Qed.

Lemma pending_consume (s : DeviceStream.t) (seg : bytes) (d : byte)
    (rest : bytes) (wakes : list bytes) :
  DeviceStream._read_data s = seg ++ d :: rest ->
  (DeviceStream.pending (DeviceStream.set_read_data s rest) wakes
   < DeviceStream.pending s wakes)%nat.
Proof.
  intros Hs. unfold DeviceStream.pending. rewrite Hs. simpl.
  rewrite length_app. simpl. lia.
Qed.

Lemma stream_consume (s : DeviceStream.t) (seg : bytes) (d : byte)
    (rest : bytes) (wakes : list bytes) :
  DeviceStream._read_data s = seg ++ d :: rest ->
  forallb (fun b => negb (is_newline b)) seg = true ->
  is_newline d = true ->
  stripped_lines (stream s wakes)
  = (if nonempty (rstrip seg) then [rstrip seg] else [])
    ++ stripped_lines (stream (DeviceStream.set_read_data s rest) wakes).
Proof.
  intros Hs Hseg Hd. unfold stream. rewrite Hs, <- app_assoc. simpl.
  apply (stripped_lines_split _ _ _ Hseg Hd).
Qed.

(** A call of [readline] that returns gives the first line still to come
    and leaves the later ones; it uses up a byte or a wake-up. *)
Lemma readline_sound (wakes : list bytes) :
  forall (s : DeviceStream.t) (l : bytes) (s' : DeviceStream.t)
         (wakes' : list bytes),
    DeviceStream.readline s wakes = DeviceStream.Returned l s' wakes' ->
    stripped_lines (stream s wakes) = l :: stripped_lines (stream s' wakes')
    /\ nonempty l = true
    /\ (DeviceStream.pending s' wakes' < DeviceStream.pending s wakes)%nat.
Proof.
  induction wakes as [|w wakes IH]; intros s l s' wakes' Hr;
    rewrite readline_eq in Hr;
    destruct (split_at_newline (DeviceStream._read_data s))
      as [Hnone | (seg & d & rest & Hs & Hseg & Hd)].
  - rewrite (readline_try_none _ Hnone) in Hr. discriminate.
  - rewrite (readline_try_split _ _ _ _ Hs Hseg Hd) in Hr.
    destruct (nonempty (rstrip seg)) eqn:Hne; [|discriminate].
    injection Hr as <- <- <-.
    rewrite (stream_consume _ _ _ _ _ Hs Hseg Hd), Hne.
    split; [reflexivity|]. split; [reflexivity|].
    apply (pending_consume _ _ _ _ _ Hs).
  - rewrite (readline_try_none _ Hnone) in Hr.
    apply IH in Hr as (Heq & Hne & Hp).
    rewrite stream_resume in Heq. rewrite <- pending_resume.
    split; [assumption|]. split; [assumption|]. lia.
  - rewrite (readline_try_split _ _ _ _ Hs Hseg Hd) in Hr.
    destruct (nonempty (rstrip seg)) eqn:Hne.
    + injection Hr as <- <- <-.
      rewrite (stream_consume _ _ _ _ _ Hs Hseg Hd), Hne.
      split; [reflexivity|]. split; [reflexivity|].
      apply (pending_consume _ _ _ _ _ Hs).
    + apply IH in Hr as (Heq & Hne' & Hp).
      rewrite stream_resume in Heq.
      rewrite (stream_consume _ _ _ _ _ Hs Hseg Hd), Hne.
      split; [assumption|]. split; [assumption|].
      pose proof (pending_consume _ _ _ _ (w :: wakes) Hs) as Hc.
      rewrite <- pending_resume in Hc. lia.
Qed.

(** Calls beyond [pending] change nothing. *)
Lemma readlines_fuel (n : nat) :
  forall (m : nat) (s : DeviceStream.t) (wakes : list bytes),
    (DeviceStream.pending s wakes < n)%nat ->
    (DeviceStream.pending s wakes < m)%nat ->
    DeviceStream.readlines n s wakes = DeviceStream.readlines m s wakes.
Proof.
  induction n as [|n IH]; intros m s wakes Hn Hm; [lia|].
  destruct m as [|m]; [lia|]. simpl.
  destruct (DeviceStream.readline s wakes) as [l s1 wakes1|s1] eqn:Hr;
    [|reflexivity].
  apply readline_sound in Hr as (_ & _ & Hp).
  f_equal. apply IH; lia.
Qed.

Lemma lines_unfold (s : DeviceStream.t) (wakes : list bytes) :
  DeviceStream.lines s wakes
  = match DeviceStream.readline s wakes with
    | DeviceStream.Returned l s1 wakes1 =>
        DeviceStream.Got l s1 wakes1 (DeviceStream.lines s1 wakes1)
    | DeviceStream.Suspended s1 => DeviceStream.Starved s1
    end.
Proof.
  unfold DeviceStream.lines at 1. simpl.
  destruct (DeviceStream.readline s wakes) as [l s1 wakes1|s1] eqn:Hr;
    [|reflexivity].
  apply readline_sound in Hr as (_ & _ & Hp).
  f_equal. apply readlines_fuel; lia.
Qed.

Lemma readlines_prefix (n : nat) :
  forall (s : DeviceStream.t) (wakes : list bytes),
    DeviceStream.feed_lines (DeviceStream.readlines n s wakes)
      `prefix_of` stripped_lines (stream s wakes)
    /\ Forall (fun l => 0 < len l)
         (DeviceStream.feed_lines (DeviceStream.readlines n s wakes)).
Proof.
  induction n as [|n IH]; intros s wakes; simpl.
  - split; [apply prefix_nil | constructor].
  - destruct (DeviceStream.readline s wakes) as [l s1 wakes1|s1] eqn:Hr; simpl.
    + apply readline_sound in Hr as (Heq & Hne & _).
      destruct (IH s1 wakes1) as [Hpre Hall]. rewrite Heq. split.
      * now apply prefix_cons.
      * constructor; [|assumption].
        unfold nonempty in Hne. apply negb_true_iff, Z.eqb_neq in Hne.
        pose proof (len_nonneg l). lia.
    + split; [apply prefix_nil | constructor].
Qed.

Lemma newlines_app (l l' : bytes) :
  newlines (l ++ l') = (newlines l + newlines l')%nat.
Proof. unfold newlines. now rewrite List.filter_app, length_app. Qed.

Lemma newlines_none (l : bytes) :
  forallb (fun b => negb (is_newline b)) l = true <-> newlines l = O.
Proof.
  unfold newlines. induction l as [|b l IH]; simpl; [easy|].
  destruct (is_newline b); simpl.
  - split; [discriminate | intros Hx; lia].
  - exact IH.
Qed.

Lemma newlines_consume (s : DeviceStream.t) (seg : bytes) (d : byte)
    (rest : bytes) (wakes : list bytes) :
  DeviceStream._read_data s = seg ++ d :: rest ->
  forallb (fun b => negb (is_newline b)) seg = true ->
  is_newline d = true ->
  newlines (stream s wakes)
  = S (newlines (stream (DeviceStream.set_read_data s rest) wakes)).
Proof.
  intros Hs Hseg Hd. unfold stream. rewrite Hs, <- app_assoc. simpl.
  rewrite newlines_app. apply newlines_none in Hseg. rewrite Hseg. simpl.
  unfold newlines. simpl. now rewrite Hd.
Qed.

Lemma concat_quiet (wakes : list bytes) (k : nat) :
  concat (wakes ++ repeat [] k) = concat wakes.
Proof.
  rewrite concat_app.
  assert (Hq : concat (repeat (@nil byte) k) = []) by (induction k; auto).
  rewrite Hq. apply app_nil_r.
Qed.

Lemma stream_quiet (s : DeviceStream.t) (wakes : list bytes) (k : nat) :
  stream s (wakes ++ repeat [] k) = stream s wakes.
Proof. unfold stream. now rewrite concat_quiet. Qed.

Lemma stream_nil (s : DeviceStream.t) :
  stream s [] = DeviceStream._read_data s.
Proof. unfold stream. apply app_nil_r. Qed.

Ltac case_readline H :=
  revert H;
  match goal with
  | |- context [DeviceStream.readline ?s ?w] =>
      destruct (DeviceStream.readline s w)
  end;
  intros H.

(** With as many further wake-ups as there are delimiters to come, a call
    of [readline] stays suspended only when no line is left. *)
Lemma readline_live (wakes : list bytes) :
  forall (s : DeviceStream.t) (k : nat),
    (newlines (stream s wakes) <= k)%nat ->
    match DeviceStream.readline s (wakes ++ repeat [] k) with
    | DeviceStream.Returned _ s' rest =>
        exists wakes' k',
          rest = wakes' ++ repeat [] k'
          /\ (newlines (stream s' wakes') <= k')%nat
    | DeviceStream.Suspended _ => stripped_lines (stream s wakes) = []
    end.
Proof.
  induction wakes as [|w wakes IH].
  - intros s k. revert s. induction k as [|k IHk]; intros s Hk.
    + change ([] ++ repeat [] 0%nat) with (@nil (list byte)).
      rewrite readline_eq.
      assert (Hnone : forallb (fun b => negb (is_newline b))
                        (DeviceStream._read_data s) = true).
      { apply newlines_none. rewrite stream_nil in Hk. lia. }
      rewrite (readline_try_none _ Hnone), stream_nil.
      now apply stripped_lines_none.
    + change ([] ++ repeat [] (S k)) with (@nil byte :: [] ++ repeat [] k).
      rewrite readline_eq.
      destruct (split_at_newline (DeviceStream._read_data s))
        as [Hnone | (seg & d & rest & Hs & Hseg & Hd)].
      * rewrite (readline_try_none _ Hnone).
        assert (Hz : (newlines (stream (DeviceStream.resume s []) []) <= k)%nat).
        { rewrite stream_resume. simpl. unfold stream. simpl.
          rewrite app_nil_r. apply newlines_none in Hnone. lia. }
        specialize (IHk _ Hz).
        case_readline IHk; [exact IHk|].
        rewrite stream_resume in IHk. exact IHk.
      * rewrite (readline_try_split _ _ _ _ Hs Hseg Hd).
        rewrite (newlines_consume _ _ _ _ _ Hs Hseg Hd) in Hk.
        destruct (nonempty (rstrip seg)) eqn:Hne.
        -- exists [], (S k). split; [reflexivity | lia].
        -- assert (Hz : (newlines
                           (stream (DeviceStream.resume
                                      (DeviceStream.set_read_data s rest) [])
                                   []) <= k)%nat).
           { rewrite stream_resume. unfold stream in *. simpl in *. lia. }
           specialize (IHk _ Hz).
           case_readline IHk; [exact IHk|].
           rewrite stream_resume in IHk.
           rewrite (stream_consume _ _ _ _ _ Hs Hseg Hd), Hne.
           unfold stream in *. simpl in *. exact IHk.
  - intros s k Hk.
    change ((w :: wakes) ++ repeat [] k) with (w :: wakes ++ repeat [] k).
    rewrite readline_eq.
    destruct (split_at_newline (DeviceStream._read_data s))
      as [Hnone | (seg & d & rest & Hs & Hseg & Hd)].
    + rewrite (readline_try_none _ Hnone).
      rewrite <- stream_resume in Hk. specialize (IH _ _ Hk).
      case_readline IH; [exact IH|].
      now rewrite <- stream_resume.
    + rewrite (readline_try_split _ _ _ _ Hs Hseg Hd).
      rewrite (newlines_consume _ _ _ _ _ Hs Hseg Hd) in Hk.
      destruct (nonempty (rstrip seg)) eqn:Hne.
      * exists (w :: wakes), k. split; [reflexivity | lia].
      * rewrite <- stream_resume in Hk.
        assert (Hk' : (newlines
                         (stream (DeviceStream.resume
                                    (DeviceStream.set_read_data s rest) w)
                                 wakes) <= k)%nat) by lia.
        specialize (IH _ _ Hk').
        case_readline IH; [exact IH|].
        rewrite (stream_consume _ _ _ _ _ Hs Hseg Hd), Hne.
        rewrite <- stream_resume. exact IH.
Qed.

Lemma readlines_live (n : nat) :
  forall (s : DeviceStream.t) (wakes : list bytes) (k : nat),
    (DeviceStream.pending s (wakes ++ repeat [] k) < n)%nat ->
    (newlines (stream s wakes) <= k)%nat ->
    DeviceStream.feed_lines
      (DeviceStream.readlines n s (wakes ++ repeat [] k))
    = stripped_lines (stream s wakes).
Proof.
  induction n as [|n IH]; intros s wakes k Hn Hk; [lia|]. simpl.
  pose proof (readline_live wakes s k Hk) as Hlive.
  destruct (DeviceStream.readline s (wakes ++ repeat [] k))
    as [l s1 wakes1|s1] eqn:Hr; simpl.
  - destruct Hlive as (wakes' & k' & -> & Hk').
    apply readline_sound in Hr as (Heq & _ & Hp).
    rewrite !stream_quiet in Heq. rewrite Heq. f_equal.
    apply IH; [lia | assumption].
  - now rewrite Hlive.
Qed.

Lemma wake_ups_eq (payloads : list bytes) :
  forall s : DeviceStream.t,
    wake_ups s payloads
    = map (fun p => slice p 3 (3 + index p 2))
        (List.filter (fun p => negb (malformed p)) payloads).
Proof.
  induction payloads as [|p payloads IH]; intros s; [reflexivity|].
  cbn [wake_ups List.filter].
  pose proof (process_message_cases s p) as Hp.
  destruct (malformed p); cbn [negb].
  - rewrite Hp. cbn [fst]. rewrite Nat.eqb_refl. apply IH.
  - rewrite Hp. cbn [fst map].
    cbn [DeviceStream.notify_all DeviceStream._read_condition
         DeviceStream._read_data DeviceStream.set_read_data].
    replace (S (DeviceStream._read_condition s)
             =? DeviceStream._read_condition s)%nat with false
      by (symmetry; apply Nat.eqb_neq; lia).
    rewrite drop_app_length. f_equal. apply IH.
Qed.

Lemma accept_all_read_data (payloads : list bytes) :
  forall s : DeviceStream.t,
    DeviceStream._read_data (accept_all s payloads)
    = stream s (wake_ups s payloads).
Proof.
  unfold stream.
  induction payloads as [|p payloads IH]; intros s.
  - simpl. now rewrite app_nil_r.
  - cbn [accept_all fold_left wake_ups]. fold (accept_all
      (fst (DeviceStream.process_message s p)) payloads).
    rewrite IH.
    pose proof (process_message_cases s p) as Hp.
    destruct (malformed p).
    + rewrite Hp. cbn [fst]. now rewrite Nat.eqb_refl.
    + rewrite Hp. cbn [fst].
      cbn [DeviceStream.notify_all DeviceStream._read_condition
           DeviceStream._read_data DeviceStream.set_read_data].
      replace (S (DeviceStream._read_condition s)
               =? DeviceStream._read_condition s)%nat with false
        by (symmetry; apply Nat.eqb_neq; lia).
      rewrite drop_app_length. simpl. now rewrite <- app_assoc.
Qed.

(** The stream as the last call, which stays suspended, leaves it. *)
Fixpoint feed_end (f : DeviceStream.feed) : DeviceStream.t :=
  match f with
  | DeviceStream.Got _ _ _ next => feed_end next
  | DeviceStream.Starved s => s
  end.

(** A call that stays suspended has passed over blank runs only. *)
Lemma readline_starved (wakes : list bytes) :
  forall s s' : DeviceStream.t,
    DeviceStream.readline s wakes = DeviceStream.Suspended s' ->
    stripped_lines (stream s wakes)
    = stripped_lines (DeviceStream._read_data s').
Proof.
  induction wakes as [|w wakes IH]; intros s s' Hr;
    rewrite readline_eq in Hr;
    destruct (split_at_newline (DeviceStream._read_data s))
      as [Hnone | (seg & d & rest & Hs & Hseg & Hd)].
  - rewrite (readline_try_none _ Hnone) in Hr. injection Hr as <-.
    now rewrite stream_nil.
  - rewrite (readline_try_split _ _ _ _ Hs Hseg Hd) in Hr.
    destruct (nonempty (rstrip seg)) eqn:Hne; [discriminate|].
    injection Hr as <-.
    rewrite (stream_consume _ _ _ _ _ Hs Hseg Hd), Hne.
    now rewrite stream_nil.
  - rewrite (readline_try_none _ Hnone) in Hr.
    apply IH in Hr. now rewrite stream_resume in Hr.
  - rewrite (readline_try_split _ _ _ _ Hs Hseg Hd) in Hr.
    destruct (nonempty (rstrip seg)) eqn:Hne; [discriminate|].
    apply IH in Hr. rewrite stream_resume in Hr.
    now rewrite (stream_consume _ _ _ _ _ Hs Hseg Hd), Hne.
Qed.

(** Nothing is lost: the lines still to come are those of the buffer that
    the last call leaves. *)
Lemma readlines_exact (n : nat) :
  forall (s : DeviceStream.t) (wakes : list bytes),
    (DeviceStream.pending s wakes < n)%nat ->
    stripped_lines (stream s wakes)
    = DeviceStream.feed_lines (DeviceStream.readlines n s wakes)
      ++ stripped_lines
           (DeviceStream._read_data
              (feed_end (DeviceStream.readlines n s wakes))).
Proof.
  induction n as [|n IH]; intros s wakes Hn; [lia|].
  cbn [DeviceStream.readlines].
  destruct (DeviceStream.readline s wakes) as [l s1 wakes1|s1] eqn:Hr.
  - apply readline_sound in Hr as (Heq & _ & Hp).
    cbn [DeviceStream.feed_lines feed_end]. rewrite Heq.
    cbn [app]. f_equal. apply IH. lia.
  - apply readline_starved in Hr. exact Hr.
Qed.

(** A call that finds a blank run first takes it out and waits for the next
    notification, whatever else is buffered. *)
Lemma readline_waits_after_blank (s : DeviceStream.t) (seg : bytes)
    (d : byte) (rest : bytes) :
  DeviceStream._read_data s = seg ++ d :: rest ->
  forallb (fun b => negb (is_newline b)) seg = true ->
  is_newline d = true ->
  rstrip seg = [] ->
  DeviceStream.readline s []
  = DeviceStream.Suspended (DeviceStream.set_read_data s rest)
  /\ forall (w : bytes) (wakes : list bytes),
       DeviceStream.readline s (w :: wakes)
       = DeviceStream.readline (DeviceStream.set_read_data s (rest ++ w))
           wakes.
Proof.
  intros Hs Hseg Hd Hblank. split; [|intros w wakes];
    rewrite readline_eq, (readline_try_split _ _ _ _ Hs Hseg Hd), Hblank;
    reflexivity.
Qed.

(** C5, as the code has it: whatever payloads [process_message] is given,
    the successive calls of [readline] return, in order, byte runs that end
    at a CR or LF of the accepted data, each with its trailing ASCII
    whitespace removed (the delimiter and any blanks before it) and left out
    when nothing remains; no returned line is empty.  The lines returned
    are an initial part of these runs and none is lost: those not returned
    yet are the runs of the buffer that the last call, which is suspended,
    leaves.  The buffer is looked at again only after a notification: a
    call that finds a blank run first (the LF of a CR LF pair) takes it out
    and waits for the next notification even when whole lines are buffered
    behind it.  Once as many further notifications have come as there are
    delimiters, every line has been returned. *)
Theorem readline_returns_stripped_lines (s : DeviceStream.t)
    (payloads : list bytes) :
  DeviceStream._read_data (accept_all s payloads)
  = DeviceStream._read_data s ++ concat (wake_ups s payloads)
  /\ DeviceStream.feed_lines (DeviceStream.lines s (wake_ups s payloads))
       `prefix_of`
       stripped_lines (DeviceStream._read_data (accept_all s payloads))
  /\ Forall (fun l => 0 < len l)
       (DeviceStream.feed_lines (DeviceStream.lines s (wake_ups s payloads)))
  /\ DeviceStream.feed_lines
       (DeviceStream.lines s
          (wake_ups s payloads
           ++ repeat []
                (newlines (DeviceStream._read_data (accept_all s payloads)))))
     = stripped_lines (DeviceStream._read_data (accept_all s payloads))
  /\ stripped_lines (DeviceStream._read_data (accept_all s payloads))
     = DeviceStream.feed_lines (DeviceStream.lines s (wake_ups s payloads))
       ++ stripped_lines
            (DeviceStream._read_data
               (feed_end (DeviceStream.lines s (wake_ups s payloads))))
  /\ (forall (s0 : DeviceStream.t) (seg : bytes) (d : byte) (rest : bytes),
         DeviceStream._read_data s0 = seg ++ d :: rest ->
         forallb (fun b => negb (is_newline b)) seg = true ->
         is_newline d = true ->
         rstrip seg = [] ->
         DeviceStream.readline s0 []
         = DeviceStream.Suspended (DeviceStream.set_read_data s0 rest)
         /\ forall (w : bytes) (wakes : list bytes),
              DeviceStream.readline s0 (w :: wakes)
              = DeviceStream.readline
                  (DeviceStream.set_read_data s0 (rest ++ w)) wakes).
Proof.
  rewrite accept_all_read_data.
  split; [reflexivity|].
  destruct (readlines_prefix
              (S (DeviceStream.pending s (wake_ups s payloads))) s
              (wake_ups s payloads)) as [Hpre Hall].
  split; [exact Hpre|]. split; [exact Hall|].
  split; [apply readlines_live; lia|].
  split; [apply readlines_exact; lia|].
  apply readline_waits_after_blank.
Qed.

(** As the specification words it, the property fails on a line that ends
    in a blank: for the
    accepted payload "A", 1, 3, "a", " ", LF the line returned is "a",
    while the bytes before the delimiter are "a" and a blank.  It fails
    also on two lines accepted in one payload, "a", CR, LF, "b", CR, LF:
    the first call returns "a" and the second stays suspended with "b", CR,
    LF in the buffer. *)
Lemma readline_drops_trailing_blank :
  DeviceStream.feed_lines
    (DeviceStream.lines (DeviceStream.__init__ 1)
       (wake_ups (DeviceStream.__init__ 1)
          [[x41; x01; x03; x61; x20; x0a]]))
  = [[x61]]
  /\ lines_between_delimiters
       (DeviceStream._read_data
          (accept_all (DeviceStream.__init__ 1)
             [[x41; x01; x03; x61; x20; x0a]]))
     = [[x61; x20]]
  /\ DeviceStream.feed_lines
       (DeviceStream.lines (DeviceStream.__init__ 1)
          (wake_ups (DeviceStream.__init__ 1)
             [[x41; x01; x06; x61; x0d; x0a; x62; x0d; x0a]]))
     = [[x61]]
  /\ DeviceStream._read_data
       (feed_end
          (DeviceStream.lines (DeviceStream.__init__ 1)
             (wake_ups (DeviceStream.__init__ 1)
                [[x41; x01; x06; x61; x0d; x0a; x62; x0d; x0a]])))
     = [x62; x0d; x0a]
  /\ lines_between_delimiters
       (DeviceStream._read_data
          (accept_all (DeviceStream.__init__ 1)
             [[x41; x01; x06; x61; x0d; x0a; x62; x0d; x0a]]))
     = [[x61]; [x62]].
Proof. repeat split; vm_compute; reflexivity. Qed.

(** ** TviewMainWindow._run_transport_iteration: polling and backoff *)

(** What the scheduler keeps per device: [error_count], [poll_count], the
    number, and the stream's count of polls sent. *)
Definition counters : Type := Z * Z * Z * Z.

(** One turn of the polling loop on these four numbers; [answered] tells
    whether a frame of the device arrived before the timeout. *)
Definition backoff (v : counters) (answered : bool) : counters :=
  let '(e, p, num, polls) := v in
  if negb (p =? 0) then (e, p - 1, num, polls)
  else if answered then (0, 0, num, polls + 1)
  else (Z.min 1000 (e + 1), Z.min 1000 (e + 1), num, polls + 1).

(** No frame of device [num] is among what the transport will deliver. *)
Definition silent (num : Z) (inbound : list rx) : Prop :=
  forall m : message,
    Read (Some m) ∈ inbound ->
    (TviewMainWindow.source_id_of m =? num) = false.

Lemma list_alter_insert_eq {A : Type} (l : list A) (i : nat) (x y : A)
    (h f : A -> A) :
  l !! i = Some y -> h x = f y -> alter h i (<[i := x]> l) = alter f i l.
Proof.
  intros Hi Hx. apply list_eq. intros j.
  destruct (decide (i = j)) as [<- | Hne].
  - rewrite !list_lookup_alter_eq, Hi, list_lookup_insert_eq.
    + simpl. now rewrite Hx.
    + apply lookup_lt_is_Some. eauto.
  - rewrite !list_lookup_alter_ne, list_lookup_insert_ne by assumption.
    reflexivity.
Qed.

Lemma list_insert_alter_eq {A : Type} (l : list A) (i : nat) (y : A)
    (f : A -> A) :
  l !! i = Some y -> <[i := f y]> l = alter f i l.
Proof.
  intros Hi. apply list_eq. intros j.
  destruct (decide (i = j)) as [<- | Hne].
  - rewrite list_lookup_alter_eq, Hi, list_lookup_insert_eq; [reflexivity|].
    apply lookup_lt_is_Some. eauto.
  - now rewrite list_lookup_alter_ne, list_lookup_insert_ne by assumption.
Qed.

Lemma process_message_keeps (s : DeviceStream.t) (data : bytes) :
  let s' := fst (DeviceStream.process_message s data) in
  DeviceStream.poll_count s' = DeviceStream.poll_count s
  /\ DeviceStream._write_data s' = DeviceStream._write_data s
  /\ DeviceStream.emit_count s' = DeviceStream.emit_count s
  /\ DeviceStream.controller s' = DeviceStream.controller s.
Proof.
  pose proof (process_message_cases s data) as Hp.
  destruct (malformed data).
  - rewrite Hp. simpl. auto.
  - rewrite Hp. simpl. auto.
Qed.

Section Scheduler.
Context `{External}.

Definition sched (d : Device.t) : counters :=
  (Device.error_count d, Device.poll_count d, Device.number d,
   DeviceStream.poll_count (Device._stream d)).

Lemma route_sched (devices : list Device.t) (source_id : Z) (m : message) :
  sched <$> fst (TviewMainWindow.route devices source_id m) = sched <$> devices.
Proof.
  induction devices as [|d devices IH]; [reflexivity|].
  cbn [TviewMainWindow.route].
  destruct (Device.number d =? source_id).
  - unfold Device.process_message.
    pose proof (process_message_keeps (Device._stream d) (data m)) as Hk.
    destruct (DeviceStream.process_message (Device._stream d) (data m))
      as [s' r]. simpl in Hk. destruct Hk as (Hp & _).
    cbn [fst fmap list_fmap]. f_equal. unfold sched. simpl. now rewrite Hp.
  - destruct (TviewMainWindow.route devices source_id m) as [rest' r].
    cbn [fst] in *. cbn [fmap list_fmap]. f_equal. exact IH.
Qed.

Lemma dispatch_sched (inbound : list rx) :
  forall (devices : list Device.t) (predicate : message -> bool),
    sched <$> fst (fst (TviewMainWindow._dispatch_until devices predicate
                          inbound))
    = sched <$> devices.
Proof.
  induction inbound as [|r inbound IH]; intros devices predicate;
    [reflexivity|].
  cbn [TviewMainWindow._dispatch_until].
  destruct r as [[m|]|]; [|apply IH|reflexivity].
  pose proof (route_sched devices (TviewMainWindow.source_id_of m) m) as Hr.
  destruct (TviewMainWindow.route devices (TviewMainWindow.source_id_of m) m)
    as [devices' r]. cbn [fst] in Hr.
  destruct (predicate m); [exact Hr|]. now rewrite IH.
Qed.

Lemma dispatch_suffix (inbound : list rx) :
  forall (devices : list Device.t) (predicate : message -> bool),
    snd (TviewMainWindow._dispatch_until devices predicate inbound)
      `suffix_of` inbound.
Proof.
  induction inbound as [|r inbound IH]; intros devices predicate;
    [reflexivity|].
  cbn [TviewMainWindow._dispatch_until].
  destruct r as [[m|]|].
  - destruct (TviewMainWindow.route devices (TviewMainWindow.source_id_of m) m)
      as [devices' r].
    destruct (predicate m); [apply suffix_cons_r; reflexivity|].
    apply suffix_cons_r, IH.
  - apply suffix_cons_r, IH.
  - apply suffix_cons_r. reflexivity.
Qed.

Lemma dispatch_silent (inbound : list rx) :
  forall (devices : list Device.t) (num : Z),
    silent num inbound ->
    snd (fst (TviewMainWindow._dispatch_until devices
                (fun x => TviewMainWindow.source_id_of x =? num) inbound))
    = None.
Proof.
  induction inbound as [|r inbound IH]; intros devices num Hs;
    [reflexivity|].
  assert (Hs' : silent num inbound).
  { intros m Hm. apply Hs. now apply list_elem_of_further. }
  cbn [TviewMainWindow._dispatch_until].
  destruct r as [[m|]|]; [|now apply IH|reflexivity].
  destruct (TviewMainWindow.route devices (TviewMainWindow.source_id_of m) m)
    as [devices' r].
  rewrite (Hs m) by apply list_elem_of_here. now apply IH.
Qed.

Lemma silent_suffix (num : Z) (inbound inbound' : list rx) :
  inbound' `suffix_of` inbound -> silent num inbound -> silent num inbound'.
Proof.
  intros [pre ->] Hs m Hm. apply Hs. apply elem_of_app. now right.
Qed.

Definition num_of (v : counters) : Z := snd (fst v).

Lemma num_of_backoff (v : counters) (answered : bool) :
  num_of (backoff v answered) = num_of v.
Proof.
  destruct v as [[[e p] num] polls]. unfold backoff, num_of.
  destruct (negb (p =? 0)); [reflexivity|]. now destruct answered.
Qed.

Lemma num_of_fold (answers : list bool) :
  forall v : counters, num_of (fold_left backoff answers v) = num_of v.
Proof.
  induction answers as [|a answers IH]; intros v; [reflexivity|].
  simpl. now rewrite IH, num_of_backoff.
Qed.

Lemma list_alter_none {A : Type} (f : A -> A) (l : list A) (i : nat) :
  l !! i = None -> alter f i l = l.
Proof.
  intros Hi. apply list_eq. intros j.
  destruct (decide (i = j)) as [<- | Hne].
  - now rewrite list_lookup_alter_eq, Hi.
  - now rewrite list_lookup_alter_ne.
Qed.

Lemma poll_one_sched (st : TviewMainWindow.polling) (i : nat) :
  exists answered : bool,
    sched <$> TviewMainWindow.devices_ (TviewMainWindow.poll_one st i)
    = alter (fun v => backoff v answered) i
        (sched <$> TviewMainWindow.devices_ st)
    /\ TviewMainWindow.inbound_ (TviewMainWindow.poll_one st i)
         `suffix_of` TviewMainWindow.inbound_ st
    /\ (forall d, TviewMainWindow.devices_ st !! i = Some d ->
                  silent (Device.number d) (TviewMainWindow.inbound_ st) ->
                  answered = false).
Proof.
  unfold TviewMainWindow.poll_one.
  destruct (TviewMainWindow.devices_ st !! i) as [d|] eqn:Hi.
  2:{ exists false. split; [|split; [reflexivity | reflexivity]].
      symmetry. apply list_alter_none. now rewrite list_lookup_fmap, Hi. }
  assert (Hv : (sched <$> TviewMainWindow.devices_ st) !! i = Some (sched d))
    by now rewrite list_lookup_fmap, Hi.
  destruct (negb (Device.poll_count d =? 0)) eqn:Hp.
  - exists false. cbn [TviewMainWindow.devices_ TviewMainWindow.inbound_].
    split; [|split; [reflexivity | reflexivity]].
    rewrite list_fmap_insert, <- (list_insert_alter_eq _ _ _ _ Hv).
    f_equal. unfold sched, backoff. simpl. now rewrite Hp.
  - unfold Device.poll, DeviceStream.poll.
    set (device1 := Device.set_stream d _).
    set (predicate := fun x => TviewMainWindow.source_id_of x =? Device.number d).
    pose proof (dispatch_sched (TviewMainWindow.inbound_ st)
                  (<[i := device1]> (TviewMainWindow.devices_ st)) predicate)
      as Hds.
    pose proof (dispatch_suffix (TviewMainWindow.inbound_ st)
                  (<[i := device1]> (TviewMainWindow.devices_ st)) predicate)
      as Hsuf.
    pose proof (fun Hs => dispatch_silent (TviewMainWindow.inbound_ st)
                  (<[i := device1]> (TviewMainWindow.devices_ st))
                  (Device.number d) Hs) as Hsil.
    fold predicate in Hsil.
    destruct (TviewMainWindow._dispatch_until
                (<[i := device1]> (TviewMainWindow.devices_ st)) predicate
                (TviewMainWindow.inbound_ st)) as [[devices2 r] inbound'].
    cbn [fst snd] in Hds, Hsuf, Hsil.
    rewrite list_fmap_insert in Hds.
    apply negb_false_iff in Hp.
    destruct r as [this_data_read|].
    + exists true. cbn [TviewMainWindow.devices_ TviewMainWindow.inbound_].
      split; [|split; [exact Hsuf|]].
      * rewrite (list_fmap_alter sched _
                   (fun v : counters =>
                      let '(_, _, num, polls) := v in (0, 0, num, polls))).
        2:{ apply Forall_forall. intros x _. reflexivity. }
        rewrite Hds. apply (list_alter_insert_eq _ _ _ _ _ _ Hv).
        unfold sched, backoff. simpl. now rewrite Hp.
      * intros d' Hd' Hs. injection Hd' as <-. specialize (Hsil Hs).
        discriminate.
    + exists false. cbn [TviewMainWindow.devices_ TviewMainWindow.inbound_].
      split; [|split; [exact Hsuf | reflexivity]].
      rewrite (list_fmap_alter sched _
                 (fun v : counters =>
                    let '(e, _, num, polls) := v in
                    (Z.min 1000 (e + 1), Z.min 1000 (e + 1), num, polls))).
      2:{ apply Forall_forall. intros x _. reflexivity. }
      rewrite Hds. apply (list_alter_insert_eq _ _ _ _ _ _ Hv).
      unfold sched, backoff. simpl. now rewrite Hp.
Qed.

Lemma sched_lookup (devices : list Device.t) (i : nat) (v : counters) :
  (sched <$> devices) !! i = Some v ->
  exists d, devices !! i = Some d /\ sched d = v.
Proof.
  rewrite list_lookup_fmap. destruct (devices !! i) as [d|]; [|discriminate].
  intros [= <-]. now exists d.
Qed.

(** The polling loop, device by device: each position in [idx] takes one
    turn, the others are left alone. *)
Lemma fold_poll_sched (idx : list nat) :
  NoDup idx ->
  forall (st : TviewMainWindow.polling) (i : nat) (v : counters),
    (sched <$> TviewMainWindow.devices_ st) !! i = Some v ->
    TviewMainWindow.inbound_ (fold_left TviewMainWindow.poll_one idx st)
      `suffix_of` TviewMainWindow.inbound_ st
    /\ exists answered : bool,
         (sched <$> TviewMainWindow.devices_
                      (fold_left TviewMainWindow.poll_one idx st)) !! i
         = Some (if decide (i ∈ idx) then backoff v answered else v)
         /\ (silent (num_of v) (TviewMainWindow.inbound_ st) ->
             answered = false).
Proof.
  induction idx as [|j idx IH]; intros Hnd st i v Hv.
  - cbn [fold_left]. split; [reflexivity|]. exists false.
    rewrite decide_False by apply not_elem_of_nil. auto.
  - apply NoDup_cons in Hnd as [Hj Hnd]. cbn [fold_left].
    destruct (poll_one_sched st j) as (a & Hsched & Hsuf & Hsil).
    destruct (decide (i = j)) as [-> | Hne].
    + assert (Hv1 : (sched <$> TviewMainWindow.devices_
                                (TviewMainWindow.poll_one st j)) !! j
                    = Some (backoff v a)).
      { now rewrite Hsched, list_lookup_alter_eq, Hv. }
      destruct (IH Hnd _ _ _ Hv1) as (Hsuf' & a' & Hfin & _).
      split; [etrans; eassumption|]. exists a.
      rewrite decide_False in Hfin by assumption.
      rewrite decide_True by apply list_elem_of_here.
      split; [exact Hfin|]. intros Hs.
      destruct (sched_lookup _ _ _ Hv) as (d & Hd & <-).
      now apply (Hsil d).
    + assert (Hv1 : (sched <$> TviewMainWindow.devices_
                                (TviewMainWindow.poll_one st j)) !! i
                    = Some v).
      { now rewrite Hsched, list_lookup_alter_ne. }
      destruct (IH Hnd _ _ _ Hv1) as (Hsuf' & a' & Hfin & Hs').
      split; [etrans; eassumption|]. exists a'. split.
      * rewrite Hfin. destruct (decide (i ∈ idx)) as [Hin | Hin].
        -- rewrite decide_True; [reflexivity|]. now apply list_elem_of_further.
        -- rewrite decide_False; [reflexivity|].
           intros Hc. apply elem_of_cons in Hc as [Hc | Hc]; tauto.
      * intros Hs. apply Hs'. now apply (silent_suffix _ _ _ Hsuf).
Qed.

Lemma emit_all_sched (devices : list Device.t) :
  sched <$> fst (TviewMainWindow.emit_all devices) = sched <$> devices.
Proof.
  induction devices as [|d devices IH]; [reflexivity|].
  cbn [TviewMainWindow.emit_all].
  unfold Device.emit_any_writes, DeviceStream.maybe_emit_one.
  destruct (TviewMainWindow.emit_all devices) as [rest' sent'].
  cbn [fst] in IH.
  destruct (len (DeviceStream._write_data (Device._stream d)) =? 0);
    cbn [fst fmap list_fmap]; f_equal; try exact IH; reflexivity.
Qed.

(** One scheduling cycle, seen from the device at position [i]. *)
Lemma iteration_sched (devices : list Device.t) (inbound : list rx) (i : nat)
    (v : counters) :
  (sched <$> devices) !! i = Some v ->
  snd (fst (fst (TviewMainWindow._run_transport_iteration devices inbound)))
    `suffix_of` inbound
  /\ exists answered : bool,
       (sched <$> fst (fst (fst (TviewMainWindow._run_transport_iteration
                                   devices inbound)))) !! i
       = Some (backoff v answered)
       /\ (silent (num_of v) inbound -> answered = false).
Proof.
  intros Hv. unfold TviewMainWindow._run_transport_iteration.
  pose proof (emit_all_sched devices) as He.
  destruct (TviewMainWindow.emit_all devices) as [devices1 written].
  cbn [fst] in He. cbn [fst snd].
  set (st := TviewMainWindow.mk_polling devices1 inbound written false).
  assert (Hv1 : (sched <$> TviewMainWindow.devices_ st) !! i = Some v)
    by (simpl; now rewrite He).
  destruct (fold_poll_sched (seq 0 (length devices1)) (NoDup_seq _ _) st i v Hv1)
    as (Hsuf & a & Hfin & Hs).
  split; [exact Hsuf|]. exists a. split; [|exact Hs].
  rewrite Hfin, decide_True; [reflexivity|].
  apply elem_of_seq. split; [lia|]. simpl.
  apply (f_equal length) in He. rewrite !length_fmap in He.
  apply lookup_lt_Some in Hv. rewrite length_fmap in Hv. lia.
Qed.

(** [n] scheduling cycles, seen from the device at position [i]. *)
Lemma run_sched (n : nat) :
  forall (devices : list Device.t) (inbound : list rx) (i : nat) (v : counters),
    (sched <$> devices) !! i = Some v ->
    snd (fst (TviewMainWindow._run_transport n devices inbound))
      `suffix_of` inbound
    /\ exists answers : list bool,
         (sched <$> fst (fst (TviewMainWindow._run_transport n devices
                                inbound))) !! i
         = Some (fold_left backoff answers v)
         /\ (silent (num_of v) inbound -> answers = repeat false n).
Proof.
  induction n as [|n IH]; intros devices inbound i v Hv.
  - simpl. split; [reflexivity|]. exists []. auto.
  - cbn [TviewMainWindow._run_transport].
    destruct (iteration_sched devices inbound i v Hv) as (Hsuf & a & Hv1 & Ha).
    destruct (TviewMainWindow._run_transport_iteration devices inbound)
      as [[[devices1 inbound1] sent1] b]. cbn [fst snd] in Hsuf, Hv1.
    destruct (IH devices1 inbound1 i _ Hv1) as (Hsuf' & answers & Hfin & Hans).
    destruct (TviewMainWindow._run_transport n devices1 inbound1)
      as [[devices2 inbound2] sent2]. cbn [fst snd] in Hsuf', Hfin |- *.
    split; [etrans; eassumption|]. exists (a :: answers).
    split; [exact Hfin|]. intros Hs. rewrite (Ha Hs). simpl. f_equal.
    apply Hans. rewrite num_of_backoff. now apply (silent_suffix _ _ _ Hsuf).
Qed.

(** While every poll times out, [error_count] is the number of polls sent
    since the counters were last zero, capped at 1000, and [poll_count] is
    what is left of the backoff. *)
Definition backing_off (polls0 : Z) (v : counters) : Prop :=
  let '(e, p, _, polls) := v in
  0 <= polls - polls0 /\ e = Z.min 1000 (polls - polls0) /\ 0 <= p <= e.

Lemma backing_off_step (polls0 : Z) (v : counters) :
  backing_off polls0 v -> backing_off polls0 (backoff v false).
Proof.
  destruct v as [[[e p] num] polls]. unfold backing_off, backoff.
  intros (Hk & He & Hp). destruct (p =? 0) eqn:E; simpl.
  - lia.
  - apply Z.eqb_neq in E. lia.
Qed.

Lemma backing_off_fold (n : nat) (polls0 : Z) :
  forall v : counters,
    backing_off polls0 v ->
    backing_off polls0 (fold_left backoff (repeat false n) v).
Proof.
  induction n as [|n IH]; intros v Hv; [exact Hv|].
  simpl. apply IH. now apply backing_off_step.
Qed.

Lemma dispatch_answered (pre : list rx) :
  forall (devices : list Device.t) (num : Z) (m : message) (rest : list rx),
    Deadline ∉ pre ->
    silent num pre ->
    (TviewMainWindow.source_id_of m =? num) = true ->
    is_Some (snd (fst (TviewMainWindow._dispatch_until devices
                         (fun x => TviewMainWindow.source_id_of x =? num)
                         (pre ++ Read (Some m) :: rest)))).
Proof.
  induction pre as [|r pre IH]; intros devices num m rest Hd Hs Hm.
  - cbn [app TviewMainWindow._dispatch_until].
    destruct (TviewMainWindow.route devices (TviewMainWindow.source_id_of m) m)
      as [devices' b]. rewrite Hm. simpl. eauto.
  - assert (Hd' : Deadline ∉ pre).
    { intros Hc. apply Hd. now apply list_elem_of_further. }
    assert (Hs' : silent num pre).
    { intros x Hx. apply Hs. now apply list_elem_of_further. }
    change ((r :: pre) ++ Read (Some m) :: rest)
      with (r :: pre ++ Read (Some m) :: rest).
    cbn [TviewMainWindow._dispatch_until].
    destruct r as [[x|]|].
    + destruct (TviewMainWindow.route devices
                  (TviewMainWindow.source_id_of x) x) as [devices' b].
      rewrite (Hs x) by apply list_elem_of_here. now apply IH.
    + now apply IH.
    + exfalso. apply Hd. apply list_elem_of_here.
Qed.

Definition polls (d : Device.t) : Z :=
  DeviceStream.poll_count (Device._stream d).

(** Events that are neither a deadline nor a frame of device [num] are
    passed over by the poll of [num]; they change no counter. *)
Lemma dispatch_passes (pre : list rx) :
  forall (devices : list Device.t) (num : Z) (tail : list rx),
    Deadline ∉ pre ->
    silent num pre ->
    exists devices' : list Device.t,
      TviewMainWindow._dispatch_until devices
        (fun x => TviewMainWindow.source_id_of x =? num) (pre ++ tail)
      = TviewMainWindow._dispatch_until devices'
          (fun x => TviewMainWindow.source_id_of x =? num) tail
      /\ sched <$> devices' = sched <$> devices.
Proof.
  induction pre as [|r pre IH]; intros devices num tail Hd Hs.
  - exists devices. split; reflexivity.
  - assert (Hd' : Deadline ∉ pre).
    { intros Hc. apply Hd. now apply list_elem_of_further. }
    assert (Hs' : silent num pre).
    { intros x Hx. apply Hs. now apply list_elem_of_further. }
    change ((r :: pre) ++ tail) with (r :: pre ++ tail).
    cbn [TviewMainWindow._dispatch_until].
    destruct r as [[x|]|].
    + pose proof (route_sched devices (TviewMainWindow.source_id_of x) x)
        as Hr.
      destruct (TviewMainWindow.route devices
                  (TviewMainWindow.source_id_of x) x) as [devices1 b].
      cbn [fst] in Hr. rewrite (Hs x) by apply list_elem_of_here.
      destruct (IH devices1 num tail Hd' Hs') as (devices' & Heq & Hsched).
      exists devices'. split; [exact Heq | now rewrite Hsched].
    + now apply IH.
    + exfalso. apply Hd. apply list_elem_of_here.
Qed.

(** What the poll of a device comes to, from the first event that is a
    deadline or a frame of the device. *)
Definition decided (num : Z) (tail : list rx) : option (bool * list rx) :=
  match tail with
  | [] => Some (false, [])
  | Deadline :: rest => Some (false, rest)
  | Read (Some m) :: rest =>
      if TviewMainWindow.source_id_of m =? num then Some (true, rest)
      else None
  | Read None :: _ => None
  end.

Lemma dispatch_decided (devices : list Device.t) (num : Z) (tail : list rx)
    (answered : bool) (rest : list rx) :
  decided num tail = Some (answered, rest) ->
  exists devices' : list Device.t,
    sched <$> devices' = sched <$> devices
    /\ snd (TviewMainWindow._dispatch_until devices
              (fun x => TviewMainWindow.source_id_of x =? num) tail) = rest
    /\ fst (fst (TviewMainWindow._dispatch_until devices
                   (fun x => TviewMainWindow.source_id_of x =? num) tail))
       = devices'
    /\ (if answered
        then is_Some (snd (fst (TviewMainWindow._dispatch_until devices
                                  (fun x => TviewMainWindow.source_id_of x
                                            =? num) tail)))
        else snd (fst (TviewMainWindow._dispatch_until devices
                         (fun x => TviewMainWindow.source_id_of x =? num)
                         tail)) = None).
Proof.
  destruct tail as [|[[m|]|] tail]; cbn [decided];
    cbn [TviewMainWindow._dispatch_until].
  - intros [= <- <-]. exists devices. auto.
  - pose proof (route_sched devices (TviewMainWindow.source_id_of m) m) as Hr.
    destruct (TviewMainWindow.route devices (TviewMainWindow.source_id_of m) m)
      as [devices1 b]. cbn [fst] in Hr.
    destruct (TviewMainWindow.source_id_of m =? num); [|discriminate].
    intros [= <- <-]. exists devices1. cbn [fst snd]. eauto.
  - discriminate.
  - intros [= <- <-]. exists devices. auto.
Qed.

(** One turn of a device whose [poll_count] is zero. *)
Lemma poll_one_decided (st : TviewMainWindow.polling) (i : nat)
    (d : Device.t) (pre tail : list rx) (answered : bool) (rest : list rx) :
  TviewMainWindow.devices_ st !! i = Some d ->
  Device.poll_count d = 0 ->
  TviewMainWindow.inbound_ st = pre ++ tail ->
  Deadline ∉ pre ->
  silent (Device.number d) pre ->
  decided (Device.number d) tail = Some (answered, rest) ->
  exists d' : Device.t,
    TviewMainWindow.devices_ (TviewMainWindow.poll_one st i) !! i = Some d'
    /\ sched d' = backoff (sched d) answered
    /\ TviewMainWindow.inbound_ (TviewMainWindow.poll_one st i) = rest
    /\ TviewMainWindow.sent_ (TviewMainWindow.poll_one st i)
       = TviewMainWindow.sent_ st
         ++ [make_diagnostic_read
               (DeviceStream.controller (Device._stream d))].
Proof.
  intros Hd Hp Hin Hdl Hs Hdec.
  unfold TviewMainWindow.poll_one. rewrite Hd, Hp. cbn [Z.eqb negb].
  unfold Device.poll, DeviceStream.poll.
  set (device1 := Device.set_stream d _).
  set (predicate := fun x => TviewMainWindow.source_id_of x =? Device.number d).
  rewrite Hin.
  destruct (dispatch_passes pre (<[i := device1]> (TviewMainWindow.devices_ st))
              (Device.number d) tail Hdl Hs) as (devices1 & Heq & Hs1).
  fold predicate in Heq. rewrite Heq.
  destruct (dispatch_decided devices1 (Device.number d) tail answered rest
              Hdec) as (devices2 & Hs2 & Hrest & Hdev & Hans).
  fold predicate in Hrest, Hdev, Hans.
  destruct (TviewMainWindow._dispatch_until devices1 predicate tail)
    as [[devices2' r] inbound']. cbn [fst snd] in Hrest, Hdev, Hans.
  subst devices2' inbound'.
  assert (Hl : (sched <$> devices2) !! i = Some (sched device1)).
  { rewrite Hs2, Hs1, list_fmap_insert, list_lookup_insert_eq;
      [reflexivity|].
    rewrite length_fmap. apply lookup_lt_is_Some. eauto. }
  apply sched_lookup in Hl as (d2 & Hd2 & Hsd2).
  assert (Hd1 : sched device1
                = (Device.error_count d, 0, Device.number d, polls d + 1)).
  { unfold sched, device1, polls. cbn. now rewrite Hp. }
  rewrite Hd1 in Hsd2. unfold sched in Hsd2.
  injection Hsd2 as He2 Hp2 Hn2 Hk2.
  destruct answered.
  - destruct Hans as [b ->]. eexists.
    cbn [TviewMainWindow.devices_ TviewMainWindow.inbound_
         TviewMainWindow.sent_].
    rewrite list_lookup_alter_eq, Hd2. cbn [fmap option_fmap option_map].
    split; [reflexivity|]. split; [|split; reflexivity].
    unfold sched, backoff. cbn. rewrite Hp. cbn. unfold polls.
    now rewrite Hn2, Hk2.
  - rewrite Hans. eexists.
    cbn [TviewMainWindow.devices_ TviewMainWindow.inbound_
         TviewMainWindow.sent_].
    rewrite list_lookup_alter_eq, Hd2. cbn [fmap option_fmap option_map].
    split; [reflexivity|]. split; [|split; reflexivity].
    unfold sched, backoff. cbn. rewrite Hp. cbn. unfold polls.
    now rewrite He2, Hn2, Hk2.
Qed.

(** Whether a frame of device [num] comes before the deadline, and the
    events left after the one that decides. *)
Fixpoint decisive (num : Z) (inbound : list rx) : bool * list rx :=
  match inbound with
  | [] => (false, [])
  | Deadline :: rest => (false, rest)
  | Read None :: rest => decisive num rest
  | Read (Some m) :: rest =>
      if TviewMainWindow.source_id_of m =? num then (true, rest)
      else decisive num rest
  end.

Lemma script_decided (num : Z) (inbound : list rx) :
  exists pre tail : list rx,
    inbound = pre ++ tail
    /\ (Deadline ∉ pre)
    /\ silent num pre
    /\ decided num tail
       = Some (fst (decisive num inbound), snd (decisive num inbound)).
Proof.
  induction inbound as [|r inbound IH].
  - exists [], []. repeat split; [apply not_elem_of_nil|].
    intros m Hm. now apply elem_of_nil in Hm.
  - destruct IH as (pre & tail & Hin & Hd & Hs & Hdec).
    destruct r as [[m|]|]; cbn [decisive].
    + destruct (TviewMainWindow.source_id_of m =? num) eqn:E.
      * exists [], (Read (Some m) :: inbound). cbn [decided]. rewrite E.
        repeat split; [apply not_elem_of_nil|].
        intros x Hx. now apply elem_of_nil in Hx.
      * exists (Read (Some m) :: pre), tail.
        split; [now rewrite Hin|]. split; [|split; [|exact Hdec]].
        -- intros Hc. apply elem_of_cons in Hc as [Hc | Hc];
             [discriminate | contradiction].
        -- intros x Hx. apply elem_of_cons in Hx as [Hx | Hx];
             [injection Hx as ->; exact E | now apply Hs].
    + exists (Read None :: pre), tail.
      split; [now rewrite Hin|]. split; [|split; [|exact Hdec]].
      * intros Hc. apply elem_of_cons in Hc as [Hc | Hc];
          [discriminate | contradiction].
      * intros x Hx. apply elem_of_cons in Hx as [Hx | Hx];
          [discriminate | now apply Hs].
    + exists [], (Deadline :: inbound). repeat split;
        [apply not_elem_of_nil|].
      intros x Hx. now apply elem_of_nil in Hx.
Qed.

(** One turn, whatever the transport delivers. *)
Lemma poll_one_exact (st : TviewMainWindow.polling) (i : nat)
    (d : Device.t) :
  TviewMainWindow.devices_ st !! i = Some d ->
  exists d' : Device.t,
    TviewMainWindow.devices_ (TviewMainWindow.poll_one st i) !! i = Some d'
    /\ sched d'
       = backoff (sched d)
           (fst (decisive (Device.number d) (TviewMainWindow.inbound_ st)))
    /\ (Device.poll_count d = 0 ->
        TviewMainWindow.inbound_ (TviewMainWindow.poll_one st i)
        = snd (decisive (Device.number d) (TviewMainWindow.inbound_ st))
        /\ TviewMainWindow.sent_ (TviewMainWindow.poll_one st i)
           = TviewMainWindow.sent_ st
             ++ [make_diagnostic_read
                   (DeviceStream.controller (Device._stream d))]).
Proof.
  intros Hd. destruct (Z.eqb_spec (Device.poll_count d) 0) as [Hp | Hp].
  - destruct (script_decided (Device.number d) (TviewMainWindow.inbound_ st))
      as (pre & tail & Hin & Hdl & Hs & Hdec).
    destruct (poll_one_decided st i d pre tail _ _ Hd Hp Hin Hdl Hs Hdec)
      as (d' & Hd' & Hsd' & Hrest & Hsent).
    exists d'. split; [exact Hd'|]. split; [exact Hsd'|]. now intros _.
  - unfold TviewMainWindow.poll_one. rewrite Hd.
    replace (Device.poll_count d =? 0) with false
      by (symmetry; now apply Z.eqb_neq).
    cbn [negb TviewMainWindow.devices_]. eexists.
    rewrite list_lookup_insert_eq by (apply lookup_lt_is_Some; eauto).
    split; [reflexivity|]. split; [|contradiction].
    unfold sched, backoff. cbn.
    replace (Device.poll_count d =? 0) with false
      by (symmetry; now apply Z.eqb_neq).
    reflexivity.
Qed.

(** The turns of the other devices leave the counters of a device alone. *)
Lemma fold_others (idx : list nat) (i : nat) :
  i ∉ idx ->
  forall st : TviewMainWindow.polling,
    (sched <$> TviewMainWindow.devices_
                 (fold_left TviewMainWindow.poll_one idx st)) !! i
    = (sched <$> TviewMainWindow.devices_ st) !! i
    /\ TviewMainWindow.inbound_ (fold_left TviewMainWindow.poll_one idx st)
         `suffix_of` TviewMainWindow.inbound_ st.
Proof.
  induction idx as [|j idx IH]; intros Hi st; [split; reflexivity|].
  cbn [fold_left].
  assert (Hne : j <> i).
  { intros ->. apply Hi. apply list_elem_of_here. }
  assert (Hi' : i ∉ idx).
  { intros Hc. apply Hi. now apply list_elem_of_further. }
  destruct (poll_one_sched st j) as (a & Hsched & Hsuf & _).
  destruct (IH Hi' (TviewMainWindow.poll_one st j)) as (Hl & Hsuf').
  split.
  - rewrite Hl, Hsched. now apply list_lookup_alter_ne.
  - etrans; eassumption.
Qed.

(** The state in which the device at position [i] takes its turn: after
    the first loop and the turns of the devices before it. *)
Definition turn_state (devices : list Device.t) (inbound : list rx)
    (i : nat) : TviewMainWindow.polling :=
  fold_left TviewMainWindow.poll_one (seq 0 i)
    (TviewMainWindow.mk_polling (fst (TviewMainWindow.emit_all devices))
       inbound (snd (TviewMainWindow.emit_all devices)) false).

Lemma iteration_turns (devices : list Device.t) (inbound : list rx)
    (i : nat) (d : Device.t) :
  devices !! i = Some d ->
  exists di d' : Device.t,
    TviewMainWindow.devices_ (turn_state devices inbound i) !! i = Some di
    /\ sched di = sched d
    /\ TviewMainWindow.inbound_ (turn_state devices inbound i)
         `suffix_of` inbound
    /\ fst (fst (fst (TviewMainWindow._run_transport_iteration devices
                        inbound))) !! i = Some d'
    /\ sched d'
       = backoff (sched d)
           (fst (decisive (Device.number d)
                   (TviewMainWindow.inbound_
                      (turn_state devices inbound i)))).
Proof.
  intros Hd. unfold TviewMainWindow._run_transport_iteration, turn_state.
  pose proof (emit_all_sched devices) as He.
  destruct (TviewMainWindow.emit_all devices) as [devices1 written].
  cbn [fst snd] in *.
  set (st0 := TviewMainWindow.mk_polling devices1 inbound written false).
  assert (Hlen : length devices1 = length devices).
  { apply (f_equal length) in He. now rewrite !length_fmap in He. }
  assert (Hlt : (i < length devices)%nat) by (apply lookup_lt_is_Some; eauto).
  assert (Hseq : seq 0 (length devices1)
                 = seq 0 i ++ i :: seq (S i) (length devices1 - S i)).
  { replace (length devices1) with (i + S (length devices1 - S i))%nat at 1
      by lia.
    rewrite seq_app. reflexivity. }
  rewrite Hseq, fold_left_app. cbn [fold_left].
  set (sti := fold_left TviewMainWindow.poll_one (seq 0 i) st0).
  destruct (fold_others (seq 0 i) i) with (st := st0) as (Hl0 & Hsuf0).
  { intros Hc. apply elem_of_seq in Hc. lia. }
  fold sti in Hl0, Hsuf0.
  assert (Hli : (sched <$> TviewMainWindow.devices_ sti) !! i
                = Some (sched d)).
  { rewrite Hl0. cbn [TviewMainWindow.devices_ st0].
    now rewrite He, list_lookup_fmap, Hd. }
  apply sched_lookup in Hli as (di & Hdi & Hsdi).
  destruct (poll_one_exact sti i di Hdi) as (d1 & Hd1 & Hsd1 & _).
  assert (Hnum : Device.number di = Device.number d).
  { unfold sched in Hsdi. now injection Hsdi. }
  rewrite Hsdi, Hnum in Hsd1.
  destruct (fold_others (seq (S i) (length devices1 - S i)) i)
    with (st := TviewMainWindow.poll_one sti i) as (Hl2 & _).
  { intros Hc. apply elem_of_seq in Hc. lia. }
  rewrite (list_lookup_fmap sched (TviewMainWindow.devices_
                                     (TviewMainWindow.poll_one sti i))),
    Hd1 in Hl2.
  cbn [fmap option_fmap option_map] in Hl2.
  apply sched_lookup in Hl2 as (d' & Hd' & Hsd').
  exists di, d'. split; [exact Hdi|]. split; [exact Hsdi|].
  split; [exact Hsuf0|]. split; [exact Hd'|].
  now rewrite Hsd', Hsd1.
Qed.

(** The cycle in which the poll number [k] is sent and times out, when
    every poll does, counted from counters at zero. *)
Fixpoint poll_time (k : nat) : nat :=
  match k with
  | O => O
  | S k' => (poll_time k' + Nat.min 1000 k' + 1)%nat
  end.

Lemma repeat_snoc (n : nat) :
  repeat false (S n) = repeat false n ++ [false].
Proof.
  induction n as [|n IH]; [reflexivity|].
  cbn [repeat app] in *. now rewrite <- IH.
Qed.

Lemma counters_eq (a b c d a' b' c' d' : Z) :
  a = a' -> b = b' -> c = c' -> d = d' ->
  ((a, b, c, d) : counters) = (a', b', c', d').
Proof. now intros -> -> -> ->. Qed.

Lemma timeouts_closed (num polls0 : Z) (k : nat) :
  forall j : nat,
    (j <= Nat.min 1000 k)%nat ->
    fold_left backoff (repeat false (poll_time k + j)) (0, 0, num, polls0)
    = (Z.of_nat (Nat.min 1000 k),
       Z.of_nat (Nat.min 1000 k) - Z.of_nat j,
       num, polls0 + Z.of_nat k).
Proof.
  induction k as [|k IHk].
  - intros j Hj. replace j with O by lia. cbn. apply counters_eq; lia.
  - induction j as [|j IHj]; intros Hj.
    + cbn [poll_time].
      replace (poll_time k + Nat.min 1000 k + 1 + 0)%nat
        with (S (poll_time k + Nat.min 1000 k)) by lia.
      rewrite repeat_snoc, fold_left_app, (IHk (Nat.min 1000 k)) by lia.
      cbn [fold_left backoff].
      replace (Z.of_nat (Nat.min 1000 k) - Z.of_nat (Nat.min 1000 k) =? 0)
        with true by (symmetry; apply Z.eqb_eq; lia).
      cbn [negb]. apply counters_eq; lia.
    + replace (poll_time (S k) + S j)%nat with (S (poll_time (S k) + j))
        by lia.
      rewrite repeat_snoc, fold_left_app, IHj by lia.
      cbn [fold_left backoff].
      replace (Z.of_nat (Nat.min 1000 (S k)) - Z.of_nat j =? 0)
        with false by (symmetry; apply Z.eqb_neq; lia).
      cbn [negb]. apply counters_eq; lia.
Qed.

(** For each of [n] cycles, whether a frame of device [num] comes before
    the deadline in the events left when the device at position [i] takes
    its turn. *)
Fixpoint answers_of (n : nat) (devices : list Device.t) (inbound : list rx)
    (i : nat) (num : Z) : list bool :=
  match n with
  | O => []
  | S n' =>
      fst (decisive num
             (TviewMainWindow.inbound_ (turn_state devices inbound i)))
      :: answers_of n'
           (fst (fst (fst (TviewMainWindow._run_transport_iteration devices
                             inbound))))
           (snd (fst (fst (TviewMainWindow._run_transport_iteration devices
                             inbound))))
           i num
  end.

(** Every poll sent in these cycles times out: in each cycle the device is
    skipped or no frame of it comes before the deadline. *)
Fixpoint all_timeouts (answers : list bool) (v : counters) : bool :=
  match answers with
  | [] => true
  | a :: answers' =>
      (negb (snd (fst (fst v)) =? 0) || negb a)
      && all_timeouts answers' (backoff v a)
  end.

Lemma answers_of_length (n : nat) :
  forall (devices : list Device.t) (inbound : list rx) (i : nat) (num : Z),
    length (answers_of n devices inbound i num) = n.
Proof.
  induction n as [|n IH]; intros devices inbound i num; [reflexivity|].
  cbn [answers_of length]. now rewrite IH.
Qed.

Lemma fold_timeouts (answers : list bool) :
  forall v : counters,
    all_timeouts answers v = true ->
    fold_left backoff answers v
    = fold_left backoff (repeat false (length answers)) v.
Proof.
  induction answers as [|a answers IH]; intros v Hall; [reflexivity|].
  cbn [all_timeouts] in Hall. apply andb_prop in Hall as [Ha Hall].
  cbn [fold_left length repeat].
  assert (Hb : backoff v a = backoff v false).
  { destruct v as [[[e p] num] polls]. cbn [fst snd] in Ha.
    unfold backoff. destruct (negb (p =? 0)); [reflexivity|].
    cbn [orb] in Ha. apply negb_true_iff in Ha. now rewrite Ha. }
  rewrite <- Hb. now apply IH.
Qed.

(** [n] cycles, whatever the transport delivers. *)
Lemma run_exact (n : nat) :
  forall (devices : list Device.t) (inbound : list rx) (i : nat)
         (d : Device.t),
    devices !! i = Some d ->
    exists dn : Device.t,
      fst (fst (TviewMainWindow._run_transport n devices inbound)) !! i
      = Some dn
      /\ sched dn
         = fold_left backoff
             (answers_of n devices inbound i (Device.number d)) (sched d).
Proof.
  induction n as [|n IH]; intros devices inbound i d Hd.
  - exists d. split; [exact Hd | reflexivity].
  - cbn [TviewMainWindow._run_transport answers_of fold_left].
    destruct (iteration_turns devices inbound i d Hd)
      as (di & d' & _ & _ & _ & Hd' & Hsd').
    destruct (TviewMainWindow._run_transport_iteration devices inbound)
      as [[[devices1 inbound1] sent1] b]. cbn [fst snd] in Hd' |- *.
    destruct (IH devices1 inbound1 i d' Hd') as (dn & Hdn & Hsdn).
    destruct (TviewMainWindow._run_transport n devices1 inbound1)
      as [[devices2 inbound2] sent2]. cbn [fst snd] in Hdn |- *.
    exists dn. split; [exact Hdn|].
    assert (Hnum : Device.number d' = Device.number d).
    { pose proof (num_of_backoff (sched d)
                    (fst (decisive (Device.number d)
                            (TviewMainWindow.inbound_
                               (turn_state devices inbound i))))) as Hn.
      rewrite <- Hsd' in Hn. exact Hn. }
    now rewrite Hsdn, Hsd', Hnum.
Qed.

(** C2: a cycle is the turns of the devices in order.  The device at
    position [i] takes its turn in the state [turn_state] left by the first
    loop and the turns before it, with the counters it had when the cycle
    began, and no later turn changes them: after the cycle its counters are
    what [backoff] makes of them, given whether a frame of the device comes
    before the deadline in the events left at its turn.  In its turn a
    device whose [poll_count] is not zero has it decremented and is not
    polled: nothing is sent, no event is used, and its [error_count], its
    number and its stream's count of polls stay.  A device whose
    [poll_count] is zero is polled once: one poll frame is sent, and the
    first event that is a deadline or a frame of the device decides.  A
    frame of the device, after frames of other devices and empty reads only,
    sets both counters to zero whatever they were; a deadline before any
    such frame (or a transport that has nothing more to deliver) makes
    [error_count] [min(1000, error_count + 1)] and [poll_count] equal to it;
    the events up to the deciding one are used up.  So, from counters at
    zero and with no frame of the device ever arriving, the poll number [k]
    times out in cycle [poll_time k], that is [min(1000, k - 1) + 1] cycles
    after the one before: after [poll_time k + j] cycles,
    [j <= min(1000, k)], [error_count] is [min(1000, k)], [poll_count] is
    [min(1000, k) - j], and [k] polls have been sent.  The same holds of
    every execution in which the polls sent in these cycles all time out,
    whatever else the transport delivers; and over any [n] cycles the
    counters are what [backoff] makes of them cycle after cycle. *)
Theorem backoff_after_timeouts_and_reset :
  (forall (devices : list Device.t) (inbound : list rx) (i : nat)
          (d : Device.t),
      devices !! i = Some d ->
      exists d' : Device.t,
        fst (fst (fst (TviewMainWindow._run_transport_iteration devices
                         inbound))) !! i = Some d'
        /\ Device.number d' = Device.number d
        /\ if negb (Device.poll_count d =? 0)
           then Device.poll_count d' = Device.poll_count d - 1
                /\ Device.error_count d' = Device.error_count d
                /\ polls d' = polls d
           else polls d' = polls d + 1
                /\ ((Device.error_count d' = 0 /\ Device.poll_count d' = 0)
                    \/ (Device.error_count d'
                        = Z.min 1000 (Device.error_count d + 1)
                        /\ Device.poll_count d' = Device.error_count d')))
  /\ (forall (devices : list Device.t) (inbound : list rx) (i : nat)
             (d : Device.t),
         devices !! i = Some d ->
         exists di d' : Device.t,
           TviewMainWindow.devices_ (turn_state devices inbound i) !! i
           = Some di
           /\ (Device.error_count di, Device.poll_count di, Device.number di,
               polls di)
              = (Device.error_count d, Device.poll_count d, Device.number d,
                 polls d)
           /\ TviewMainWindow.inbound_ (turn_state devices inbound i)
                `suffix_of` inbound
           /\ fst (fst (fst (TviewMainWindow._run_transport_iteration devices
                               inbound))) !! i = Some d'
           /\ (Device.error_count d', Device.poll_count d', Device.number d',
               polls d')
              = backoff
                  (Device.error_count d, Device.poll_count d,
                   Device.number d, polls d)
                  (fst (decisive (Device.number d)
                          (TviewMainWindow.inbound_
                             (turn_state devices inbound i)))))
  /\ (forall (st : TviewMainWindow.polling) (i : nat) (d : Device.t),
         TviewMainWindow.devices_ st !! i = Some d ->
         Device.poll_count d <> 0 ->
         TviewMainWindow.poll_one st i
         = TviewMainWindow.mk_polling
             (<[i := Device.set_poll_count d (Device.poll_count d - 1)]>
                (TviewMainWindow.devices_ st))
             (TviewMainWindow.inbound_ st) (TviewMainWindow.sent_ st)
             (TviewMainWindow.any_data_read_ st))
  /\ (forall (st : TviewMainWindow.polling) (i : nat) (d : Device.t),
         TviewMainWindow.devices_ st !! i = Some d ->
         Device.poll_count d = 0 ->
         exists d' : Device.t,
           TviewMainWindow.devices_ (TviewMainWindow.poll_one st i) !! i
           = Some d'
           /\ (Device.error_count d', Device.poll_count d', Device.number d',
               polls d')
              = (if fst (decisive (Device.number d)
                           (TviewMainWindow.inbound_ st))
                 then (0, 0, Device.number d, polls d + 1)
                 else (Z.min 1000 (Device.error_count d + 1),
                       Z.min 1000 (Device.error_count d + 1),
                       Device.number d, polls d + 1))
           /\ TviewMainWindow.inbound_ (TviewMainWindow.poll_one st i)
              = snd (decisive (Device.number d) (TviewMainWindow.inbound_ st))
           /\ TviewMainWindow.sent_ (TviewMainWindow.poll_one st i)
              = TviewMainWindow.sent_ st
                ++ [make_diagnostic_read
                      (DeviceStream.controller (Device._stream d))])
  /\ (forall (st : TviewMainWindow.polling) (i : nat) (d : Device.t)
             (pre : list rx) (m : message) (rest : list rx),
         TviewMainWindow.devices_ st !! i = Some d ->
         Device.poll_count d = 0 ->
         TviewMainWindow.inbound_ st = pre ++ Read (Some m) :: rest ->
         Deadline ∉ pre ->
         silent (Device.number d) pre ->
         TviewMainWindow.source_id_of m = Device.number d ->
         exists d' : Device.t,
           TviewMainWindow.devices_ (TviewMainWindow.poll_one st i) !! i
           = Some d'
           /\ Device.error_count d' = 0
           /\ Device.poll_count d' = 0
           /\ Device.number d' = Device.number d
           /\ polls d' = polls d + 1
           /\ TviewMainWindow.inbound_ (TviewMainWindow.poll_one st i) = rest
           /\ TviewMainWindow.sent_ (TviewMainWindow.poll_one st i)
              = TviewMainWindow.sent_ st
                ++ [make_diagnostic_read
                      (DeviceStream.controller (Device._stream d))])
  /\ (forall (st : TviewMainWindow.polling) (i : nat) (d : Device.t)
             (pre tail rest : list rx),
         TviewMainWindow.devices_ st !! i = Some d ->
         Device.poll_count d = 0 ->
         TviewMainWindow.inbound_ st = pre ++ tail ->
         Deadline ∉ pre ->
         silent (Device.number d) pre ->
         tail = Deadline :: rest \/ (tail = [] /\ rest = []) ->
         exists d' : Device.t,
           TviewMainWindow.devices_ (TviewMainWindow.poll_one st i) !! i
           = Some d'
           /\ Device.error_count d' = Z.min 1000 (Device.error_count d + 1)
           /\ Device.poll_count d' = Z.min 1000 (Device.error_count d + 1)
           /\ Device.number d' = Device.number d
           /\ polls d' = polls d + 1
           /\ TviewMainWindow.inbound_ (TviewMainWindow.poll_one st i) = rest
           /\ TviewMainWindow.sent_ (TviewMainWindow.poll_one st i)
              = TviewMainWindow.sent_ st
                ++ [make_diagnostic_read
                      (DeviceStream.controller (Device._stream d))])
  /\ (forall (k j : nat) (devices : list Device.t) (inbound : list rx)
             (i : nat) (d : Device.t),
         devices !! i = Some d ->
         Device.error_count d = 0 ->
         Device.poll_count d = 0 ->
         silent (Device.number d) inbound ->
         (j <= Nat.min 1000 k)%nat ->
         exists dn : Device.t,
           fst (fst (TviewMainWindow._run_transport (poll_time k + j) devices
                       inbound)) !! i = Some dn
           /\ Device.error_count dn = Z.of_nat (Nat.min 1000 k)
           /\ Device.poll_count dn
              = Z.of_nat (Nat.min 1000 k) - Z.of_nat j
           /\ Device.number dn = Device.number d
           /\ polls dn = polls d + Z.of_nat k)
  /\ (forall (n : nat) (devices : list Device.t) (inbound : list rx)
             (i : nat) (d : Device.t),
         devices !! i = Some d ->
         exists dn : Device.t,
           fst (fst (TviewMainWindow._run_transport n devices inbound)) !! i
           = Some dn
           /\ (Device.error_count dn, Device.poll_count dn, Device.number dn,
               polls dn)
              = fold_left backoff
                  (answers_of n devices inbound i (Device.number d))
                  (Device.error_count d, Device.poll_count d,
                   Device.number d, polls d))
  /\ (forall (k j : nat) (devices : list Device.t) (inbound : list rx)
             (i : nat) (d : Device.t),
         devices !! i = Some d ->
         Device.error_count d = 0 ->
         Device.poll_count d = 0 ->
         all_timeouts
           (answers_of (poll_time k + j) devices inbound i (Device.number d))
           (0, 0, Device.number d, polls d) = true ->
         (j <= Nat.min 1000 k)%nat ->
         exists dn : Device.t,
           fst (fst (TviewMainWindow._run_transport (poll_time k + j) devices
                       inbound)) !! i = Some dn
           /\ Device.error_count dn = Z.of_nat (Nat.min 1000 k)
           /\ Device.poll_count dn
              = Z.of_nat (Nat.min 1000 k) - Z.of_nat j
           /\ Device.number dn = Device.number d
           /\ polls dn = polls d + Z.of_nat k).
Proof.
  split; [|split; [|split; [|split; [|split; [|split; [|split; [|split]]]]]]].
  - intros devices inbound i d Hd.
    assert (Hv : (sched <$> devices) !! i = Some (sched d))
      by now rewrite list_lookup_fmap, Hd.
    destruct (iteration_sched devices inbound i _ Hv) as (_ & a & Hv' & _).
    apply sched_lookup in Hv' as (d' & Hd' & Hs).
    exists d'. split; [exact Hd'|].
    unfold sched, backoff, polls in *.
    destruct (negb (Device.poll_count d =? 0)); [|destruct a];
      injection Hs as He Hp Hn Hpo; repeat split; lia.
  - intros devices inbound i d Hd.
    destruct (iteration_turns devices inbound i d Hd)
      as (di & d' & Hdi & Hsdi & Hsuf & Hd' & Hsd').
    exists di, d'. split; [exact Hdi|]. split; [exact Hsdi|].
    split; [exact Hsuf|]. split; [exact Hd' | exact Hsd'].
  - intros st i d Hd Hp. unfold TviewMainWindow.poll_one. rewrite Hd.
    replace (Device.poll_count d =? 0) with false
      by (symmetry; now apply Z.eqb_neq).
    reflexivity.
  - intros st i d Hd Hp.
    destruct (poll_one_exact st i d Hd) as (d' & Hd' & Hsd' & Hpoll).
    destruct (Hpoll Hp) as [Hrest Hsent].
    exists d'. split; [exact Hd'|]. split; [|split; assumption].
    change (sched d' = if fst (decisive (Device.number d)
                                 (TviewMainWindow.inbound_ st))
                       then (0, 0, Device.number d, polls d + 1)
                       else (Z.min 1000 (Device.error_count d + 1),
                             Z.min 1000 (Device.error_count d + 1),
                             Device.number d, polls d + 1)).
    rewrite Hsd'. unfold sched, backoff, polls. rewrite Hp. reflexivity.
  - intros st i d pre m rest Hd Hp Hin Hdl Hs Hm.
    destruct (poll_one_decided st i d pre (Read (Some m) :: rest) true rest
                Hd Hp Hin Hdl Hs) as (d' & Hd' & Hsd' & Hrest & Hsent).
    { cbn [decided]. rewrite Hm, Z.eqb_refl. reflexivity. }
    exists d'. split; [exact Hd'|].
    unfold sched, backoff, polls in *. rewrite Hp in Hsd'. cbn in Hsd'.
    injection Hsd' as He' Hp' Hn' Hk'. repeat split; assumption.
  - intros st i d pre tail rest Hd Hp Hin Hdl Hs Htail.
    destruct (poll_one_decided st i d pre tail false rest
                Hd Hp Hin Hdl Hs) as (d' & Hd' & Hsd' & Hrest & Hsent).
    { destruct Htail as [-> | [-> ->]]; reflexivity. }
    exists d'. split; [exact Hd'|].
    unfold sched, backoff, polls in *. rewrite Hp in Hsd'. cbn in Hsd'.
    injection Hsd' as He' Hp' Hn' Hk'. repeat split; assumption.
  - intros k j devices inbound i d Hd He Hp Hs Hj.
    assert (Hv : (sched <$> devices) !! i = Some (sched d))
      by now rewrite list_lookup_fmap, Hd.
    destruct (run_sched (poll_time k + j) devices inbound i _ Hv)
      as (_ & answers & Hvn & Ha).
    rewrite (Ha Hs) in Hvn.
    assert (Hsd : sched d = (0, 0, Device.number d, polls d)).
    { unfold sched, polls. now rewrite He, Hp. }
    rewrite Hsd, (timeouts_closed _ _ k j Hj) in Hvn.
    apply sched_lookup in Hvn as (dn & Hdn & Hsdn).
    exists dn. split; [exact Hdn|]. unfold sched in Hsdn. unfold polls.
    injection Hsdn as He' Hp' Hn' Hk'. repeat split; assumption.
  - intros n devices inbound i d Hd.
    destruct (run_exact n devices inbound i d Hd) as (dn & Hdn & Hsdn).
    exists dn. split; [exact Hdn | exact Hsdn].
  - intros k j devices inbound i d Hd He Hp Hall Hj.
    destruct (run_exact (poll_time k + j) devices inbound i d Hd)
      as (dn & Hdn & Hsdn).
    assert (Hsd : sched d = (0, 0, Device.number d, polls d)).
    { unfold sched, polls. now rewrite He, Hp. }
    rewrite Hsd, (fold_timeouts _ _ Hall), answers_of_length,
      (timeouts_closed _ _ k j Hj) in Hsdn.
    exists dn. split; [exact Hdn|]. unfold sched in Hsdn. unfold polls.
    injection Hsdn as He' Hp' Hn' Hk'. repeat split; assumption.
Qed.

End Scheduler.

Definition example_device (number : Z) : @Device.t Example.external :=
  Device.__init__ number.

Definition example_devices : list (@Device.t Example.external) :=
  [example_device 1; example_device 2].

(** A frame of device 2, then the timeout. *)
Definition example_inbound : list rx :=
  [Read (Some (mk_message 0x200 [x41; x01; x00])); Deadline].

Lemma example_inbound_silent : silent 1 example_inbound.
Proof.
  intros m Hm. apply elem_of_cons in Hm as [Hm | Hm].
  - injection Hm as ->. reflexivity.
  - apply elem_of_cons in Hm as [Hm | Hm]; [discriminate|].
    now apply elem_of_nil in Hm.
Qed.

(** The deadline passes before the frame of device 1 comes: its poll has
    timed out.  Device 2 answers its first poll.  Device 1 is never answered
    in three cycles: its second poll times out in the third. *)
Lemma backoff_after_timeouts_and_reset_witness :
  (exists d' : @Device.t Example.external,
      TviewMainWindow.devices_
        (TviewMainWindow.poll_one
           (TviewMainWindow.mk_polling example_devices
              [Deadline; Read (Some (mk_message 0x100 [x41; x01; x00]))] []
              false) 0) !! 0%nat = Some d'
      /\ Device.error_count d' = 1 /\ Device.poll_count d' = 1)
  /\ (exists d' : @Device.t Example.external,
         TviewMainWindow.devices_
           (TviewMainWindow.poll_one
              (TviewMainWindow.mk_polling example_devices example_inbound []
                 false) 1) !! 1%nat = Some d'
         /\ Device.error_count d' = 0 /\ Device.poll_count d' = 0)
  /\ (exists dn : @Device.t Example.external,
         fst (fst (TviewMainWindow._run_transport 3 example_devices
                     example_inbound)) !! 0%nat = Some dn
         /\ Device.error_count dn = 2 /\ Device.poll_count dn = 2
         /\ polls dn = 2).
Proof.
  split; [|split].
  - destruct (proj1 (proj2 (proj2 (proj2 (proj2 (proj2
                (@backoff_after_timeouts_and_reset Example.external))))))
                (TviewMainWindow.mk_polling example_devices
                   [Deadline; Read (Some (mk_message 0x100 [x41; x01; x00]))]
                   [] false)
                0%nat (example_device 1) []
                [Deadline; Read (Some (mk_message 0x100 [x41; x01; x00]))]
                [Read (Some (mk_message 0x100 [x41; x01; x00]))]
                eq_refl eq_refl eq_refl)
      as (d' & Hd' & He & Hp & _).
    + apply not_elem_of_nil.
    + intros m Hm. now apply elem_of_nil in Hm.
    + now left.
    + exists d'. split; [exact Hd'|]. split; [exact He | exact Hp].
  - destruct (proj1 (proj2 (proj2 (proj2 (proj2
                (@backoff_after_timeouts_and_reset Example.external)))))
                (TviewMainWindow.mk_polling example_devices example_inbound []
                   false) 1%nat (example_device 2) []
                (mk_message 0x200 [x41; x01; x00]) [Deadline]
                eq_refl eq_refl eq_refl)
      as (d' & Hd' & He & Hp & _).
    + apply not_elem_of_nil.
    + intros m Hm. now apply elem_of_nil in Hm.
    + reflexivity.
    + exists d'. split; [exact Hd'|]. split; [exact He | exact Hp].
  - destruct (proj1 (proj2 (proj2 (proj2 (proj2 (proj2 (proj2
                (@backoff_after_timeouts_and_reset Example.external)))))))
                2%nat 0%nat example_devices example_inbound 0%nat
                (example_device 1) eq_refl eq_refl eq_refl
                example_inbound_silent)
      as (dn & Hdn & He & Hp & _ & Hk); [simpl; lia|].
    exists dn. split; [exact Hdn|]. split; [exact He|].
    split; [exact Hp | exact Hk].
Defined.

(** ** TviewMainWindow._run_transport_iteration: writes before polls *)

Definition is_write (f : frame) : bool :=
  match f with
  | make_diagnostic_write _ _ => true
  | make_diagnostic_read _ => false
  end.

Definition is_read (f : frame) : bool := negb (is_write f).

Section Flush.
Context `{External}.

(** The bytes a device still has to send. *)
Definition queue (d : Device.t) : bytes :=
  DeviceStream._write_data (Device._stream d).

(** What the first loop hands to the transport for one device. *)
Definition flushed (d : Device.t) : list frame :=
  if len (queue d) =? 0 then []
  else [make_diagnostic_write (DeviceStream.controller (Device._stream d))
          (take 61 (queue d))].

Lemma emit_all_flushes (devices : list Device.t) :
  snd (TviewMainWindow.emit_all devices) = flat_map flushed devices
  /\ queue <$> fst (TviewMainWindow.emit_all devices)
     = (fun d => drop 61 (queue d)) <$> devices.
Proof.
  induction devices as [|d devices [IHs IHq]]; [split; reflexivity|].
  cbn [TviewMainWindow.emit_all flat_map].
  unfold Device.emit_any_writes, DeviceStream.maybe_emit_one, flushed.
  destruct (TviewMainWindow.emit_all devices) as [rest' sent'].
  cbn [fst snd] in IHs, IHq. unfold queue at 1 3 5.
  destruct (len (DeviceStream._write_data (Device._stream d)) =? 0) eqn:E;
    cbn [fst snd fmap list_fmap]; rewrite IHs; (split; [reflexivity|]);
    f_equal; try exact IHq.
  apply Z.eqb_eq, len_nil_iff in E. unfold queue. simpl. now rewrite E.
Qed.

Lemma route_queue (devices : list Device.t) (source_id : Z) (m : message) :
  queue <$> fst (TviewMainWindow.route devices source_id m) = queue <$> devices.
Proof.
  induction devices as [|d devices IH]; [reflexivity|].
  cbn [TviewMainWindow.route].
  destruct (Device.number d =? source_id).
  - unfold Device.process_message.
    pose proof (process_message_keeps (Device._stream d) (data m)) as Hk.
    destruct (DeviceStream.process_message (Device._stream d) (data m))
      as [s' r]. simpl in Hk. destruct Hk as (_ & Hw & _).
    cbn [fst fmap list_fmap]. f_equal. exact Hw.
  - destruct (TviewMainWindow.route devices source_id m) as [rest' r].
    cbn [fst] in *. cbn [fmap list_fmap]. f_equal. exact IH.
Qed.

Lemma dispatch_queue (inbound : list rx) :
  forall (devices : list Device.t) (predicate : message -> bool),
    queue <$> fst (fst (TviewMainWindow._dispatch_until devices predicate
                          inbound))
    = queue <$> devices.
Proof.
  induction inbound as [|r inbound IH]; intros devices predicate;
    [reflexivity|].
  cbn [TviewMainWindow._dispatch_until].
  destruct r as [[m|]|]; [|apply IH|reflexivity].
  pose proof (route_queue devices (TviewMainWindow.source_id_of m) m) as Hr.
  destruct (TviewMainWindow.route devices (TviewMainWindow.source_id_of m) m)
    as [devices' r]. cbn [fst] in Hr.
  destruct (predicate m); [exact Hr|]. now rewrite IH.
Qed.

Lemma poll_one_flush (st : TviewMainWindow.polling) (i : nat) :
  queue <$> TviewMainWindow.devices_ (TviewMainWindow.poll_one st i)
  = queue <$> TviewMainWindow.devices_ st
  /\ exists reads : list frame,
       TviewMainWindow.sent_ (TviewMainWindow.poll_one st i)
       = TviewMainWindow.sent_ st ++ reads
       /\ forallb is_read reads = true.
Proof.
  unfold TviewMainWindow.poll_one.
  destruct (TviewMainWindow.devices_ st !! i) as [d|] eqn:Hi.
  2:{ split; [reflexivity|]. exists []. now rewrite app_nil_r. }
  destruct (negb (Device.poll_count d =? 0)).
  - cbn [TviewMainWindow.devices_ TviewMainWindow.sent_]. split.
    + rewrite list_fmap_insert. apply list_insert_id.
      now rewrite list_lookup_fmap, Hi.
    + exists []. now rewrite app_nil_r.
  - unfold Device.poll, DeviceStream.poll.
    set (device1 := Device.set_stream d _).
    pose proof (dispatch_queue (TviewMainWindow.inbound_ st)
                  (<[i := device1]> (TviewMainWindow.devices_ st))
                  (fun x => TviewMainWindow.source_id_of x =? Device.number d))
      as Hq.
    destruct (TviewMainWindow._dispatch_until
                (<[i := device1]> (TviewMainWindow.devices_ st))
                (fun x => TviewMainWindow.source_id_of x =? Device.number d)
                (TviewMainWindow.inbound_ st)) as [[devices2 r] inbound'].
    cbn [fst] in Hq.
    assert (Hq1 : queue <$> devices2 = queue <$> TviewMainWindow.devices_ st).
    { rewrite Hq, list_fmap_insert. apply list_insert_id.
      now rewrite list_lookup_fmap, Hi. }
    destruct r as [this_data_read|];
      cbn [TviewMainWindow.devices_ TviewMainWindow.sent_];
      (split;
       [rewrite (list_fmap_alter queue _ (fun q => q))
          by (apply Forall_forall; intros x _; reflexivity);
        rewrite list_alter_id by reflexivity; exact Hq1
       | eexists; split; reflexivity]).
Qed.

Lemma fold_poll_flush (idx : list nat) :
  forall st : TviewMainWindow.polling,
    queue <$> TviewMainWindow.devices_
                (fold_left TviewMainWindow.poll_one idx st)
    = queue <$> TviewMainWindow.devices_ st
    /\ exists reads : list frame,
         TviewMainWindow.sent_ (fold_left TviewMainWindow.poll_one idx st)
         = TviewMainWindow.sent_ st ++ reads
         /\ forallb is_read reads = true.
Proof.
  induction idx as [|j idx IH]; intros st.
  - split; [reflexivity|]. exists []. now rewrite app_nil_r.
  - cbn [fold_left].
    destruct (poll_one_flush st j) as (Hq & reads & Hs & Hr).
    destruct (IH (TviewMainWindow.poll_one st j)) as (Hq' & reads' & Hs' & Hr').
    split; [now rewrite Hq', Hq|]. exists (reads ++ reads').
    rewrite Hs', Hs, <- app_assoc. split; [reflexivity|].
    rewrite forallb_app. now rewrite Hr, Hr'.
Qed.

(** C6, as the code has it: in every scheduling cycle the frames handed to
    the transport are, first, for each device in order that has bytes queued,
    one write frame carrying at most the first 61 of them, and only then
    poll frames; every frame of the first part is a write, every frame of
    the second a poll, and after the cycle each device still has queued
    whatever followed its first 61 bytes. *)
Theorem writes_precede_polls (devices : list Device.t) (inbound : list rx) :
  exists reads : list frame,
    snd (fst (TviewMainWindow._run_transport_iteration devices inbound))
    = flat_map flushed devices ++ reads
    /\ forallb is_write (flat_map flushed devices) = true
    /\ forallb is_read reads = true
    /\ queue <$> fst (fst (fst (TviewMainWindow._run_transport_iteration
                                 devices inbound)))
       = (fun d => drop 61 (queue d)) <$> devices.
Proof.
  unfold TviewMainWindow._run_transport_iteration.
  destruct (emit_all_flushes devices) as [Hs Hq].
  destruct (TviewMainWindow.emit_all devices) as [devices1 written].
  cbn [fst snd] in Hs, Hq.
  destruct (fold_poll_flush (seq 0 (length devices1))
              (TviewMainWindow.mk_polling devices1 inbound written false))
    as (Hq' & reads & Hs' & Hr).
  cbn [fst snd]. exists reads.
  cbn [TviewMainWindow.devices_ TviewMainWindow.sent_] in Hq', Hs'.
  rewrite Hs', Hq', Hs, Hq. split; [reflexivity|]. split; [|split; auto].
  clear. induction devices as [|d devices IH]; [reflexivity|].
  cbn [flat_map]. rewrite forallb_app, IH. unfold flushed.
  now destruct (len (queue d) =? 0).
Qed.

End Flush.

(** As the specification words it, the property fails when a device has
    more than 61 bytes queued:
    with 62 bytes, the cycle hands 61 of them to the transport, polls the
    device, and leaves the last byte queued. *)
Lemma poll_sent_with_bytes_still_queued :
  snd (fst (TviewMainWindow._run_transport_iteration
              [Device.write (example_device 1) (repeat x61 62)] []))
  = [make_diagnostic_write 1 (repeat x61 61); make_diagnostic_read 1]
  /\ queue <$> fst (fst (fst (TviewMainWindow._run_transport_iteration
                               [Device.write (example_device 1)
                                  (repeat x61 62)] [])))
     = [[x61]].
Proof. split; vm_compute; reflexivity. Qed.

(** ** Record.update *)


Lemma prefix_append (sep rest : string) :
  String.prefix sep (sep +:+ rest) = true.
Proof.
  induction sep as [|c sep IH]; simpl.
  - now destruct rest.
  - destruct (ascii_dec c c); [exact IH | contradiction].
Qed.



Section RecordUpdate.
Context `{External}.





(** What [update] does to the record, whether or not it then raises. *)
Lemma update_history (r : Record.t) (struct : value) :
  let r' := fst (fst (Record.update r struct)) in
  Record.history r'
  = (if len (Record.history r) <? 100
     then Record.history r ++ [struct]
     else drop 1 (Record.history r ++ [struct]))
  /\ Record.signals r' = Record.signals r
  /\ Record.archive_ r' = Record.archive_ r.
Proof.
  unfold Record.update, MAX_HISTORY_SIZE.
  destruct (Record.update_signals _ struct _ 0) as [calls res]. cbn [fst].
  cbn [Record.history Record.signals Record.archive_]. split; [|auto].
  rewrite len_app. change (len [struct]) with 1. unfold slice_from.
  change (Z.to_nat 1) with 1%nat.
  destruct (len (Record.history r) <? 100) eqn:E.
  - apply Z.ltb_lt in E. now rewrite gtb_false by lia.
  - apply Z.ltb_ge in E. now rewrite gtb_true by lia.
Qed.




End RecordUpdate.

(** A record with one subscriber on the mean of field [x]. *)
Definition example_record : @Record.t Example.external :=
  @Record.mk Example.external tt
    [("__MEAN_x"%string, RecordSignal.mk 1 [(0, "plot"%string)])] [].

Definition sample (x : Z) : value := VObject [("x"%string, VInt x)].



(** ** Device.read_data and Device.do_data *)

Section Session.
Context `{External}.

(** The device as a coroutine of the session leaves it. *)
Definition device_of {A : Type} (o : Device.outcome A) : Device.t :=
  match o with
  | Device.Returned _ d _ => d
  | Device.Raised _ d _ => d
  | Device.Suspended d => d
  end.

Definition raises {A : Type} (o : Device.outcome A) : bool :=
  match o with
  | Device.Raised _ _ _ => true
  | _ => false
  end.

Definition suspended {A : Type} (o : Device.outcome A) : bool :=
  match o with
  | Device.Suspended _ => true
  | _ => false
  end.

Lemma read_sized_block_no_raise (d : Device.t) (wakes : list bytes) :
  raises (Device.read_sized_block d wakes) = false.
Proof.
  unfold Device.read_sized_block.
  now destruct (DeviceStream.read_sized_block (Device._stream d) wakes).
Qed.

(** A line that begins with [ERR] is not [cdata <name>]. *)
Lemma err_line_is_not_cdata (line name : string) :
  startswith line "ERR" = true ->
  String.eqb line ("cdata " +:+ name) = false.
Proof.
  intros Herr. apply String.eqb_neq. intros ->.
  destruct name; discriminate.
Qed.

Lemma read_data_loop_no_raise (f : DeviceStream.feed) (d : Device.t)
    (name : string) :
  raises (Device.read_data_loop d name f) = false.
Proof.
  induction f as [l s wakes next IH|s]; [|reflexivity].
  cbn [Device.read_data_loop].
  destruct (String.eqb (Device.decode l) ("cdata " +:+ name)) eqn:Heq;
    cbn [negb]; [|exact IH].
  destruct (startswith (Device.decode l) "ERR") eqn:Herr.
  - rewrite (err_line_is_not_cdata _ _ Herr) in Heq. discriminate.
  - apply read_sized_block_no_raise.
Qed.

Lemma read_data_loop_waits (f : DeviceStream.feed) (d : Device.t)
    (name : string) :
  forallb (fun l => negb (String.eqb (Device.decode l) ("cdata " +:+ name)))
          (DeviceStream.feed_lines f) = true ->
  suspended (Device.read_data_loop d name f) = true.
Proof.
  induction f as [l s wakes next IH|s]; [|reflexivity].
  cbn [Device.read_data_loop DeviceStream.feed_lines forallb].
  intros Hall. apply andb_prop in Hall as [Hl Hall]. rewrite Hl. now apply IH.
Qed.

(** C9: [read_data] never raises: a line that begins with [ERR] differs
    from [cdata <name>], so it is passed over by the first test of the loop
    and the test that raises is only reached with the line [cdata <name>],
    which does not begin with [ERR]; and as long as no line [cdata <name>]
    has come, whatever [ERR] lines have, [read_data] is still waiting. *)
Theorem read_data_never_raises (d : Device.t) (name : string)
    (wakes : list bytes) :
  raises (Device.read_data d name wakes) = false
  /\ (forall line : string,
         startswith line "ERR" = true ->
         String.eqb line ("cdata " +:+ name) = false)
  /\ startswith ("cdata " +:+ name) "ERR" = false
  /\ (forallb (fun l => negb (String.eqb (Device.decode l)
                                         ("cdata " +:+ name)))
              (DeviceStream.feed_lines
                 (DeviceStream.lines (Device._stream d) wakes)) = true ->
      suspended (Device.read_data d name wakes) = true).
Proof.
  split; [apply read_data_loop_no_raise|].
  split; [intros line; apply err_line_is_not_cdata|].
  split; [now destruct name|]. apply read_data_loop_waits.
Qed.

(** C10: [do_data] changes at most the record stored under [name], and it
    changes it only when the block read is non-empty and [name] is a known
    record: while the read is suspended, when the read yields [False] or an
    empty block, and when [name] is unknown, the records are what they were
    (the same holds when the decoder raises); otherwise the record under
    [name] is replaced by its update with the decoded sample.  A block whose
    declared length is 0 is read as the empty block: [do_data] returns with
    the five header bytes consumed and the records untouched, as for a
    failed read. *)
Theorem do_data_updates_only_named_record (d : Device.t) (name : string)
    (wakes : list bytes) :
  delete name (Device._telemetry_records (device_of (Device.do_data d name wakes)))
  = delete name (Device._telemetry_records d)
  /\ Device._telemetry_records (device_of (Device.do_data d name wakes))
     = match DeviceStream.read_sized_block (Device._stream d) wakes with
       | DeviceStream.Suspended _ => Device._telemetry_records d
       | DeviceStream.Returned None _ _ => Device._telemetry_records d
       | DeviceStream.Returned (Some []) _ _ => Device._telemetry_records d
       | DeviceStream.Returned (Some (b :: block)) _ _ =>
           match Device._telemetry_records d !! name with
           | None => Device._telemetry_records d
           | Some record =>
               match archive_read (Record.archive_ record) (b :: block) with
               | None => Device._telemetry_records d
               | Some struct =>
                   <[name := fst (fst (Record.update record struct))]>
                     (Device._telemetry_records d)
               end
           end
       end
  /\ (forall (X : byte) (extra : bytes),
         Device.do_data
           (Device.set_stream d
              (DeviceStream.set_read_data (Device._stream d)
                 (X :: x00 :: x00 :: x00 :: x00 :: extra)))
           name wakes
         = Device.Returned tt
             (Device.set_stream d
                (DeviceStream.set_read_data (Device._stream d) extra))
             wakes).
Proof.
  assert (Hrec : Device._telemetry_records (device_of (Device.do_data d name wakes))
                 = match DeviceStream.read_sized_block (Device._stream d) wakes with
                   | DeviceStream.Suspended _ => Device._telemetry_records d
                   | DeviceStream.Returned None _ _ => Device._telemetry_records d
                   | DeviceStream.Returned (Some []) _ _ =>
                       Device._telemetry_records d
                   | DeviceStream.Returned (Some (b :: block)) _ _ =>
                       match Device._telemetry_records d !! name with
                       | None => Device._telemetry_records d
                       | Some record =>
                           match archive_read (Record.archive_ record)
                                              (b :: block) with
                           | None => Device._telemetry_records d
                           | Some struct =>
                               <[name := fst (fst (Record.update record struct))]>
                                 (Device._telemetry_records d)
                           end
                       end
                   end).
  { unfold Device.do_data, Device.read_sized_block.
    destruct (DeviceStream.read_sized_block (Device._stream d) wakes)
      as [[[|b block]|] s1 wakes1|s1]; try reflexivity.
    cbn [Device.falsy Device._telemetry_records Device.set_stream].
    destruct (Device._telemetry_records d !! name) as [record|];
      [|reflexivity].
    destruct (archive_read (Record.archive_ record) (b :: block))
      as [struct|]; [|reflexivity].
    destruct (Record.update record struct) as [[record1 calls] [r|]];
      reflexivity. }
  split; [|split; [exact Hrec|]].
  - rewrite Hrec.
    destruct (DeviceStream.read_sized_block (Device._stream d) wakes)
      as [[[|b block]|] s1 wakes1|s1]; try reflexivity.
    destruct (Device._telemetry_records d !! name) as [record|];
      [|reflexivity].
    destruct (archive_read (Record.archive_ record) (b :: block));
      [|reflexivity].
    apply delete_insert_eq.
  - intros X extra. unfold Device.do_data, Device.read_sized_block.
    cbn [Device._stream Device.set_stream].
    pose proof (read_sized_block_buffered (Device._stream d) X x00 x00 x00
                  x00 [] extra wakes) as Hb.
    cbn [app] in Hb. rewrite Hb; [reflexivity | reflexivity |].
    vm_compute. discriminate.
Qed.

End Session.

Definition example_session (received : bytes) : @Device.t Example.external :=
  Device.set_stream (example_device 1)
    (DeviceStream.set_read_data (DeviceStream.__init__ 1) received).

(** The device has answered "ERR bad" and nothing else. *)
Lemma read_data_never_raises_witness :
  suspended (Device.read_data
               (example_session [x45; x52; x52; x20; x62; x61; x64; x0d])
               "x" []) = true
  /\ String.eqb "ERR bad" ("cdata " +:+ "x") = false.
Proof.
  split.
  - apply (proj2 (proj2 (proj2 (@read_data_never_raises Example.external
                                  (example_session
                                     [x45; x52; x52; x20; x62; x61; x64; x0d])
                                  "x" [])))).
    reflexivity.
  - apply (proj1 (proj2 (@read_data_never_raises Example.external
                           (example_session []) "x" []))).
    reflexivity.
Defined.

(** ** Device.command *)

Definition is_async (line : string) : bool :=
  startswith line "emit " || startswith line "schema ".

Definition is_final (line : string) : bool :=
  startswith line "ERR" || startswith line "OK".

(** The lines, each followed by a line feed. *)
Definition joined (body : list string) : string :=
  fold_right (fun l acc => l +:+ LF +:+ acc) EmptyString body.

(** The text of the lines that the successive calls of [readline] return. *)
Definition texts (f : DeviceStream.feed) : list string :=
  Device.decode <$> DeviceStream.feed_lines f.

Fixpoint feed_forall (P : DeviceStream.t -> Prop) (f : DeviceStream.feed)
  : Prop :=
  match f with
  | DeviceStream.Got _ s _ next => P s /\ feed_forall P next
  | DeviceStream.Starved s => P s
  end.

Lemma append_nil_r (s : string) : s +:+ EmptyString = s.
Proof.
  induction s as [|c s IH]; [reflexivity|].
  change (String c s +:+ EmptyString) with (String c (s +:+ EmptyString)).
  now rewrite IH.
Qed.

Lemma append_assoc (s1 s2 s3 : string) :
  (s1 +:+ s2) +:+ s3 = s1 +:+ s2 +:+ s3.
Proof.
  induction s1 as [|c s1 IH]; [reflexivity|].
  change ((String c s1 +:+ s2) +:+ s3) with (String c ((s1 +:+ s2) +:+ s3)).
  change (String c s1 +:+ s2 +:+ s3) with (String c (s1 +:+ s2 +:+ s3)).
  now rewrite IH.
Qed.

Lemma encode_append (s1 s2 : string) :
  Device.encode (s1 +:+ s2) = Device.encode s1 ++ Device.encode s2.
Proof.
  unfold Device.encode, list_byte_of_string.
  induction s1 as [|c s1 IH]; [reflexivity|].
  change (String c s1 +:+ s2) with (String c (s1 +:+ s2)).
  cbn [list_ascii_of_string List.map app]. now rewrite IH.
Qed.

Lemma final_not_async (line : string) :
  is_final line = true -> is_async line = false.
Proof.
  unfold is_final, is_async, startswith.
  destruct line as [|c line]; [discriminate|]. cbn [String.prefix].
  destruct (ascii_dec "E" c) as [<-|HE]; [reflexivity|].
  destruct (ascii_dec "O" c) as [<-|HO]; [reflexivity | discriminate].
Qed.

Lemma readline_try_write_data (s : DeviceStream.t) :
  DeviceStream._write_data (snd (readline_try s)) = DeviceStream._write_data s.
Proof.
  unfold readline_try. rewrite read_maybe_empty_line_eq.
  now destruct (first_newline (DeviceStream._read_data s)).
Qed.

Lemma readline_write_data (wakes : list bytes) :
  forall s : DeviceStream.t,
    match DeviceStream.readline s wakes with
    | DeviceStream.Returned _ s' _ =>
        DeviceStream._write_data s' = DeviceStream._write_data s
    | DeviceStream.Suspended s' =>
        DeviceStream._write_data s' = DeviceStream._write_data s
    end.
Proof.
  induction wakes as [|w wakes IH]; intros s; rewrite readline_eq;
    pose proof (readline_try_write_data s) as Hw;
    destruct (readline_try s) as [[l|] s1]; cbn [snd] in Hw; try exact Hw.
  specialize (IH (DeviceStream.resume s1 w)).
  destruct (DeviceStream.readline (DeviceStream.resume s1 w) wakes);
    now rewrite IH.
Qed.

Lemma readlines_write_data (n : nat) :
  forall (s : DeviceStream.t) (wakes : list bytes),
    feed_forall
      (fun s' => DeviceStream._write_data s' = DeviceStream._write_data s)
      (DeviceStream.readlines n s wakes).
Proof.
  induction n as [|n IH]; intros s wakes; [reflexivity|].
  cbn [DeviceStream.readlines].
  pose proof (readline_write_data wakes s) as Hw.
  destruct (DeviceStream.readline s wakes) as [l s1 wakes1|s1];
    cbn [feed_forall]; [|exact Hw].
  split; [exact Hw|]. rewrite <- Hw. apply IH.
Qed.

Lemma texts_cons_inv (f : DeviceStream.feed) (x : string) (X : list string) :
  texts f = x :: X ->
  exists l s wakes next,
    f = DeviceStream.Got l s wakes next
    /\ Device.decode l = x /\ texts next = X.
Proof.
  destruct f as [l s wakes next|s]; [|discriminate].
  unfold texts. cbn [DeviceStream.feed_lines fmap list_fmap].
  intros [= Hx HX]. now exists l, s, wakes, next.
Qed.

Section Command.
Context `{External}.

Lemma command_first_spec (async : list string) :
  forall (f : DeviceStream.feed) (X : list string),
    texts f = async ++ X ->
    forallb is_async async = true ->
    is_async (hd EmptyString X) = false ->
    texts (Device.command_first f) = X.
Proof.
  induction async as [|a async IH]; intros f X Hf Ha HX.
  - simpl in Hf. destruct f as [l s wakes next|s]; [|exact Hf].
    cbn [Device.command_first]. subst X. unfold texts in HX.
    cbn [DeviceStream.feed_lines fmap list_fmap hd] in HX.
    unfold is_async in HX. now rewrite HX.
  - cbn [forallb] in Ha. apply andb_prop in Ha as [Ha1 Ha].
    change ((a :: async) ++ X) with (a :: async ++ X) in Hf.
    apply texts_cons_inv in Hf as (l & s & wakes & next & -> & Hl & Hn).
    cbn [Device.command_first]. unfold is_async in Ha1. rewrite Hl, Ha1.
    now apply IH.
Qed.

Lemma command_rest_spec (body : list string) :
  forall (f : DeviceStream.feed) (d : Device.t) (message result term : string)
         (rest : list string),
    texts f = body ++ term :: rest ->
    forallb (fun l => negb (is_final l)) body = true ->
    is_final term = true ->
    exists d' wakes',
      Device.command_rest d message result f
      = if startswith term "ERR"
        then Device.Raised (CommandError message term) d' wakes'
        else Device.Returned (result +:+ joined body) d' wakes'.
Proof.
  induction body as [|b body IH]; intros f d message result term rest Hf Hb Ht.
  - simpl in Hf.
    apply texts_cons_inv in Hf as (l & s & wakes & next & -> & Hl & Hn).
    cbn [Device.command_rest]. rewrite Hl.
    exists (Device.set_stream d s), wakes.
    destruct (startswith term "ERR") eqn:Herr; [reflexivity|].
    unfold is_final in Ht. rewrite Herr in Ht. cbn [orb] in Ht. rewrite Ht.
    cbn [joined fold_right]. now rewrite append_nil_r.
  - cbn [forallb] in Hb. apply andb_prop in Hb as [Hb1 Hb].
    change ((b :: body) ++ term :: rest) with (b :: body ++ term :: rest) in Hf.
    apply texts_cons_inv in Hf as (l & s & wakes & next & -> & Hl & Hn).
    cbn [Device.command_rest]. rewrite Hl.
    apply negb_true_iff in Hb1. unfold is_final in Hb1.
    apply orb_false_elim in Hb1 as [He Ho]. rewrite He, Ho.
    destruct (IH next d message (result +:+ b +:+ LF) term rest Hn Hb Ht)
      as (d' & wakes' & Hr).
    exists d', wakes'. rewrite Hr.
    destruct (startswith term "ERR"); [reflexivity|].
    cbn [joined fold_right]. fold (joined body).
    now rewrite <- !append_assoc.
Qed.

Lemma command_rest_waits (f : DeviceStream.feed) :
  forall (d : Device.t) (message result : string),
    forallb (fun l => negb (is_final l)) (texts f) = true ->
    suspended (Device.command_rest d message result f) = true.
Proof.
  induction f as [l s wakes next IH|s]; intros d message result Hf;
    [|reflexivity].
  unfold texts in Hf. cbn [DeviceStream.feed_lines fmap list_fmap forallb] in Hf.
  apply andb_prop in Hf as [Hl Hf]. apply negb_true_iff in Hl.
  unfold is_final in Hl. apply orb_false_elim in Hl as [He Ho].
  cbn [Device.command_rest]. rewrite He, Ho. now apply IH.
Qed.

Lemma command_first_forall (P : DeviceStream.t -> Prop) (f : DeviceStream.feed) :
  feed_forall P f -> feed_forall P (Device.command_first f).
Proof.
  induction f as [l s wakes next IH|s]; [|trivial].
  intros Hf. cbn [Device.command_first].
  destruct (startswith (Device.decode l) "emit "
            || startswith (Device.decode l) "schema "); [|exact Hf].
  apply IH. apply Hf.
Qed.

Lemma command_rest_stream (P : DeviceStream.t -> Prop) (f : DeviceStream.feed) :
  forall (d : Device.t) (message result : string),
    feed_forall P f ->
    P (Device._stream (device_of (Device.command_rest d message result f))).
Proof.
  induction f as [l s wakes next IH|s]; intros d message result Hf;
    [|exact Hf].
  cbn [Device.command_rest]. destruct Hf as [Hs Hf].
  destruct (startswith (Device.decode l) "ERR"); [exact Hs|].
  destruct (startswith (Device.decode l) "OK"); [exact Hs|].
  now apply IH.
Qed.

(** What [command] queues, returns and raises. *)
Lemma command_spec (d : Device.t) (message : string)
    (wakes : list bytes) :
  DeviceStream._write_data
    (Device._stream (device_of (Device.command d message wakes)))
  = DeviceStream._write_data (Device._stream d)
    ++ Device.encode message ++ [x0d; x0a]
  /\ (forall (async body : list string) (term : string) (rest : list string),
         texts (DeviceStream.lines
                  (Device._stream (Device.write_line d (message +:+ CRLF)))
                  wakes)
         = async ++ body ++ term :: rest ->
         forallb is_async async = true ->
         is_async (hd term body) = false ->
         forallb (fun l => negb (is_final l)) body = true ->
         is_final term = true ->
         exists d' wakes',
           Device.command d message wakes
           = if startswith term "ERR"
             then Device.Raised (CommandError message term) d' wakes'
             else Device.Returned (joined body) d' wakes')
  /\ (forall async body : list string,
         texts (DeviceStream.lines
                  (Device._stream (Device.write_line d (message +:+ CRLF)))
                  wakes)
         = async ++ body ->
         forallb is_async async = true ->
         is_async (hd EmptyString body) = false ->
         forallb (fun l => negb (is_final l)) body = true ->
         suspended (Device.command d message wakes) = true).
Proof.
  unfold Device.command.
  set (d1 := Device.write_line d (message +:+ CRLF)).
  split; [|split].
  - pose proof (readlines_write_data
                  (S (DeviceStream.pending (Device._stream d1) wakes))
                  (Device._stream d1) wakes) as Hw.
    fold (DeviceStream.lines (Device._stream d1) wakes) in Hw.
    apply command_first_forall in Hw.
    apply (command_rest_stream _ _ d1 message EmptyString) in Hw.
    rewrite Hw. unfold d1, Device.write_line, Device.write, DeviceStream.write.
    cbn [Device._stream Device.set_stream DeviceStream._write_data
         DeviceStream.set_write_data].
    now rewrite encode_append.
  - intros async body term rest Hf Ha Hh Hb Ht.
    assert (Hh' : is_async (hd EmptyString (body ++ term :: rest)) = false)
      by (destruct body; exact Hh).
    pose proof (command_first_spec async _ _ Hf Ha Hh') as Hfirst.
    destruct (command_rest_spec body _ d1 message EmptyString term rest
                Hfirst Hb Ht) as (d' & wakes' & Hr).
    exists d', wakes'. exact Hr.
  - intros async body Hf Ha Hh Hb.
    pose proof (command_first_spec async _ _ Hf Ha Hh) as Hfirst.
    apply command_rest_waits. now rewrite Hfirst.
Qed.

End Command.

(** What a coroutine of the session answers, if it has. *)
Definition answer {E : External} {A : Type} (o : Device.outcome A)
  : option (A + exn) :=
  match o with
  | Device.Returned a _ _ => Some (inl a)
  | Device.Raised e _ _ => Some (inr e)
  | Device.Suspended _ => None
  end.

(** The response payload that carries one line of text and its CR LF. *)
Definition line_payload (text : string) : bytes :=
  x41 :: x01
  :: default x00 (Byte.of_nat (length (Device.encode text) + 2))
  :: Device.encode text ++ [x0d; x0a].

(** The wake-ups of a reader while the device sends these lines. *)
Definition sends (texts : list string) : list bytes :=
  wake_ups (DeviceStream.__init__ 1) (line_payload <$> texts).

(** C1, as the code has it: [command] queues the text followed by CR LF,
    and nothing it does afterwards changes what is queued.  It passes over
    the lines that begin with [emit ] or [schema ] only up to the first line
    that begins with neither; from that line on every line is kept, these
    included, until a line begins with [ERR], which raises the command error
    with the text sent and that line, or with [OK], which returns the lines
    kept, each followed by a line feed.  While no such line has come,
    [command] is still waiting.  Against a device that sends two lines
    [emit x], then [a.b 3], then [OK], [command("conf enumerate")] returns
    [a.b 3] followed by a line feed. *)
Theorem command_skips_leading_pushes :
  (forall (E : External) (d : Device.t) (message : string)
          (wakes : list bytes),
      DeviceStream._write_data
        (Device._stream (device_of (Device.command d message wakes)))
      = DeviceStream._write_data (Device._stream d)
        ++ Device.encode message ++ [x0d; x0a]
      /\ (forall (async body : list string) (term : string)
                 (rest : list string),
             texts (DeviceStream.lines
                      (Device._stream
                         (Device.write_line d (message +:+ CRLF)))
                      wakes)
             = async ++ body ++ term :: rest ->
             forallb is_async async = true ->
             is_async (hd term body) = false ->
             forallb (fun l => negb (is_final l)) body = true ->
             is_final term = true ->
             exists d' wakes',
               Device.command d message wakes
               = if startswith term "ERR"
                 then Device.Raised (CommandError message term) d' wakes'
                 else Device.Returned (joined body) d' wakes')
      /\ (forall async body : list string,
             texts (DeviceStream.lines
                      (Device._stream
                         (Device.write_line d (message +:+ CRLF)))
                      wakes)
             = async ++ body ->
             forallb is_async async = true ->
             is_async (hd EmptyString body) = false ->
             forallb (fun l => negb (is_final l)) body = true ->
             suspended (Device.command d message wakes) = true))
  /\ answer (Device.command (example_device 1) "conf enumerate"
               (sends ["emit x"; "emit x"; "a.b 3"; "OK"]%string))
     = Some (inl ("a.b 3" +:+ LF)).
Proof.
  split; [intros E d message wakes; apply command_spec|].
  vm_compute. reflexivity.
Qed.

(** The scripted session of the specification, through the general
    statement. *)
Lemma command_skips_leading_pushes_witness :
  exists d' wakes',
    Device.command (example_device 1) "conf enumerate"
      (sends ["emit x"; "emit x"; "a.b 3"; "OK"]%string)
    = Device.Returned ("a.b 3" +:+ LF) d' wakes'.
Proof.
  apply (proj1 (proj2 (proj1 command_skips_leading_pushes Example.external
                         (example_device 1) "conf enumerate"%string
                         (sends ["emit x"; "emit x"; "a.b 3"; "OK"]%string)))
           ["emit x"; "emit x"]%string ["a.b 3"]%string "OK"%string []);
    reflexivity.
Defined.

(** As the specification words it, the property fails on a push that comes
    after the first line of
    the response: with the lines [a.b 3], [emit x], [OK] the result holds
    the [emit x] line too. *)
Lemma command_keeps_later_push :
  answer (Device.command (example_device 1) "conf enumerate"
            (sends ["a.b 3"; "emit x"; "OK"]%string))
  = Some (inl ("a.b 3" +:+ LF +:+ "emit x" +:+ LF)).
Proof. vm_compute. reflexivity. Qed.

(** * Further properties of the code *)

(** ** DeviceStream.write and maybe_emit_one: the outbound queue *)

(** [n] successive calls of [maybe_emit_one], as the scheduler makes them
    in [n] cycles while nothing more is written, with the frames sent. *)
Fixpoint flushes (n : nat) (s : DeviceStream.t) : DeviceStream.t * list frame :=
  match n with
  | O => (s, [])
  | S n' =>
      let '(s1, sent1) := DeviceStream.maybe_emit_one s in
      let '(s2, sent2) := flushes n' s1 in
      (s2, sent1 ++ sent2)
  end.

Definition frame_data (f : frame) : bytes :=
  match f with
  | make_diagnostic_write _ data => data
  | make_diagnostic_read _ => []
  end.

(** A write frame of the controller with between 1 and 61 bytes. *)
Definition is_chunk_of (controller : Z) (f : frame) : bool :=
  match f with
  | make_diagnostic_write c data =>
      (c =? controller) && (0 <? len data) && (len data <=? 61)
  | make_diagnostic_read _ => false
  end.

Lemma maybe_emit_one_chunk (s : DeviceStream.t) :
  let s' := fst (DeviceStream.maybe_emit_one s) in
  let sent := snd (DeviceStream.maybe_emit_one s) in
  concat (frame_data <$> sent) = take 61 (DeviceStream._write_data s)
  /\ DeviceStream._write_data s' = drop 61 (DeviceStream._write_data s)
  /\ forallb (is_chunk_of (DeviceStream.controller s)) sent = true
  /\ DeviceStream.emit_count s' = DeviceStream.emit_count s + len sent
  /\ DeviceStream.controller s' = DeviceStream.controller s
  /\ DeviceStream._read_data s' = DeviceStream._read_data s
  /\ DeviceStream.poll_count s' = DeviceStream.poll_count s
  /\ DeviceStream._read_condition s' = DeviceStream._read_condition s.
Proof.
  unfold DeviceStream.maybe_emit_one.
  destruct (len (DeviceStream._write_data s) =? 0) eqn:E; cbn [fst snd].
  - apply Z.eqb_eq, len_nil_iff in E. rewrite E. simpl.
    repeat split; try reflexivity. unfold len. simpl. lia.
  - apply Z.eqb_neq in E. cbn -[take drop len].
    rewrite app_nil_r. unfold slice, slice_from, MAX_SEND.
    change (Z.to_nat (61 - 0)) with 61%nat. change (Z.to_nat 0) with 0%nat.
    change (Z.to_nat 61) with 61%nat. rewrite drop_0.
    repeat split; try reflexivity.
    rewrite Z.eqb_refl. cbn [andb].
      pose proof (len_nonneg (DeviceStream._write_data s)) as Hn.
      unfold len in *. rewrite length_take.
      replace (0 <? _) with true by (symmetry; apply Z.ltb_lt; lia).
      replace (_ <=? 61) with true by (symmetry; apply Z.leb_le; lia).
      reflexivity.
Qed.

Lemma take_plus {A : Type} (a b : nat) :
  forall l : list A, take (a + b) l = take a l ++ take b (drop a l).
Proof.
  induction a as [|a IH]; intros l; [reflexivity|].
  destruct l as [|x l]; simpl; [now rewrite take_nil|].
  now rewrite IH.
Qed.

(** X1: the outbound queue is sent in order, in frames of at most 61 bytes,
    with nothing lost and nothing repeated. *)
Theorem flushes_send_queue_in_order (n : nat) :
  forall s : DeviceStream.t,
    let s' := fst (flushes n s) in
    let sent := snd (flushes n s) in
    concat (frame_data <$> sent) = take (61 * n) (DeviceStream._write_data s)
    /\ DeviceStream._write_data s' = drop (61 * n) (DeviceStream._write_data s)
    /\ forallb (is_chunk_of (DeviceStream.controller s)) sent = true
    /\ DeviceStream.emit_count s' = DeviceStream.emit_count s + len sent
    /\ DeviceStream._read_data s' = DeviceStream._read_data s
    /\ DeviceStream.poll_count s' = DeviceStream.poll_count s.
Proof.
  induction n as [|n IH]; intros s.
  - cbn [flushes fst snd]. rewrite Nat.mul_0_r, take_0, drop_0.
    repeat split; try reflexivity. unfold len. simpl. lia.
  - cbn [flushes].
    destruct (maybe_emit_one_chunk s) as (Hc & Hq & Hf & He & Hk & Hr & Hp & _).
    destruct (DeviceStream.maybe_emit_one s) as [s1 sent1].
    cbn [fst snd] in Hc, Hq, Hf, He, Hk, Hr, Hp.
    destruct (IH s1) as (Hc' & Hq' & Hf' & He' & Hr' & Hp').
    destruct (flushes n s1) as [s2 sent2]. cbn [fst snd] in *.
    replace (61 * S n)%nat with (61 + 61 * n)%nat by lia.
    split; [|split; [|split; [|split; [|split]]]].
    + now rewrite fmap_app, concat_app, Hc, Hc', Hq, take_plus.
    + now rewrite Hq', Hq, drop_drop.
    + rewrite forallb_app, Hf. now rewrite Hk in Hf'.
    + rewrite He', He, len_app. lia.
    + now rewrite Hr', Hr.
    + now rewrite Hp', Hp.
Qed.

(** ** DeviceStream.read_sized_block: blocks that arrive in pieces *)

(** The body of the loop of [read_sized_block] up to its [await]. *)
Definition sized_block_try (s : DeviceStream.t)
  : option (option bytes * DeviceStream.t) :=
  if len (DeviceStream._read_data s) >=? 5 then
    let size := unpack_le32 (slice (DeviceStream._read_data s) 1 5) in
    if size >? 2 ^ 24 then Some (None, s)
    else if len (DeviceStream._read_data s) >=? 5 + size then
      Some (Some (slice (DeviceStream._read_data s) 5 (5 + size)),
            DeviceStream.set_read_data s
              (slice_from (DeviceStream._read_data s) (5 + size)))
    else None
  else None.

Lemma read_sized_block_eq (s : DeviceStream.t) (wakes : list bytes) :
  DeviceStream.read_sized_block s wakes
  = match sized_block_try s with
    | Some (r, s1) => DeviceStream.Returned r s1 wakes
    | None =>
        match wakes with
        | [] => DeviceStream.Suspended s
        | w :: wakes' =>
            DeviceStream.read_sized_block (DeviceStream.resume s w) wakes'
        end
    end.
Proof. destruct wakes as [|w wakes]; reflexivity. Qed.

(** What one pass of the loop finds in the buffer. *)
Definition short_of_block (buf : bytes) : Prop :=
  len buf < 5
  \/ (unpack_le32 (slice buf 1 5) <= 2 ^ 24
      /\ len buf < 5 + unpack_le32 (slice buf 1 5)).

Definition cut_block (buf block rest : bytes) : Prop :=
  buf = take 5 buf ++ block ++ rest
  /\ 5 <= len buf
  /\ len block = unpack_le32 (slice buf 1 5)
  /\ len block <= 2 ^ 24.

Definition over_cap (buf : bytes) : Prop :=
  5 <= len buf /\ 2 ^ 24 < unpack_le32 (slice buf 1 5).

Lemma sized_block_try_cases (s : DeviceStream.t) :
  match sized_block_try s with
  | Some (Some block, s') =>
      cut_block (DeviceStream._read_data s) block (DeviceStream._read_data s')
      /\ s' = DeviceStream.set_read_data s (DeviceStream._read_data s')
  | Some (None, s') => over_cap (DeviceStream._read_data s) /\ s' = s
  | None => short_of_block (DeviceStream._read_data s)
  end.
Proof.
  unfold sized_block_try, short_of_block, cut_block, over_cap.
  set (buf := DeviceStream._read_data s).
  pose proof (unpack_le32_range (slice buf 1 5)) as Hr.
  destruct (len buf >=? 5) eqn:E5; rewrite Z.geb_leb in E5;
    [apply Z.leb_le in E5 | apply Z.leb_gt in E5; now left].
  destruct (unpack_le32 (slice buf 1 5) >? 2 ^ 24) eqn:Ec;
    rewrite Z.gtb_ltb in Ec;
    [apply Z.ltb_lt in Ec; auto | apply Z.ltb_ge in Ec].
  destruct (len buf >=? 5 + unpack_le32 (slice buf 1 5)) eqn:En;
    rewrite Z.geb_leb in En;
    [apply Z.leb_le in En | apply Z.leb_gt in En; right; lia].
  cbn [DeviceStream._read_data DeviceStream.set_read_data].
  assert (Hl : len (slice buf 5 (5 + unpack_le32 (slice buf 1 5)))
               = unpack_le32 (slice buf 1 5)) by (rewrite len_slice; lia).
  split; [|reflexivity].
  split; [|split; [exact E5|split; [exact Hl | now rewrite Hl]]].
  unfold slice at 1, slice_from.
    replace (Z.to_nat (5 + unpack_le32 (slice buf 1 5) - 5))
      with (Z.to_nat (unpack_le32 (slice buf 1 5))) by lia.
    replace (Z.to_nat (5 + unpack_le32 (slice buf 1 5)))
      with (5 + Z.to_nat (unpack_le32 (slice buf 1 5)))%nat by lia.
    change (Z.to_nat 5) with 5%nat.
    rewrite <- drop_drop, take_drop. now rewrite take_drop.
Qed.

(** X2: [read_sized_block] returns a block only when the bytes buffered and
    received so far begin with five header bytes and then the block, whose
    length is the little-endian number in header bytes 1 to 4 and at most
    2^24; it leaves exactly the bytes after the block.  It returns [False]
    only on a length above 2^24, with everything received still buffered.
    It stays suspended only while the header or the block is incomplete. *)
Theorem read_sized_block_frames_stream (wakes : list bytes) :
  forall s : DeviceStream.t,
    match DeviceStream.read_sized_block s wakes with
    | DeviceStream.Returned r s' wakes' =>
        exists used : list bytes,
          wakes = used ++ wakes'
          /\ s' = DeviceStream.set_read_data s (DeviceStream._read_data s')
          /\ match r with
             | Some block =>
                 cut_block (DeviceStream._read_data s ++ concat used) block
                   (DeviceStream._read_data s')
             | None =>
                 over_cap (DeviceStream._read_data s ++ concat used)
                 /\ DeviceStream._read_data s'
                    = DeviceStream._read_data s ++ concat used
             end
    | DeviceStream.Suspended s' =>
        s' = DeviceStream.set_read_data s
               (DeviceStream._read_data s ++ concat wakes)
        /\ short_of_block (DeviceStream._read_data s ++ concat wakes)
    end.
Proof.
  induction wakes as [|w wakes IH]; intros s; rewrite read_sized_block_eq;
    pose proof (sized_block_try_cases s) as Ht;
    destruct (sized_block_try s) as [[[block|] s1]|].
  - destruct Ht as [Hc Hs]. exists []. cbn [concat app].
    rewrite app_nil_r. auto.
  - destruct Ht as [Hc ->]. exists []. cbn [concat app].
    rewrite app_nil_r. split; [reflexivity|]. split; [now destruct s|]. auto.
  - cbn [concat]. rewrite app_nil_r. split; [now destruct s | exact Ht].
  - destruct Ht as [Hc Hs]. exists []. cbn [concat app].
    rewrite app_nil_r. auto.
  - destruct Ht as [Hc ->]. exists []. cbn [concat app].
    rewrite app_nil_r. split; [reflexivity|]. split; [now destruct s|]. auto.
  - specialize (IH (DeviceStream.resume s w)).
    destruct (DeviceStream.read_sized_block (DeviceStream.resume s w) wakes)
      as [r s' wakes'|s'].
    + destruct IH as (used & -> & Hs & Hr). exists (w :: used).
      cbn [concat DeviceStream.resume DeviceStream._read_data
           DeviceStream.set_read_data] in *.
      rewrite <- app_assoc in Hr. split; [reflexivity|].
      split; [rewrite Hs at 1; reflexivity | exact Hr].
    + destruct IH as [-> Hshort].
      cbn [concat DeviceStream.resume DeviceStream._read_data
           DeviceStream.set_read_data] in *.
      rewrite <- app_assoc in Hshort |- *. split; [reflexivity | exact Hshort].
Qed.

(** ** Record.update: the history as a sliding window *)

Section History.
Context `{External}.

(** The record after successive updates, whether or not they raise. *)
Definition updates (r : Record.t) (structs : list value) : Record.t :=
  fold_left (fun r x => fst (fst (Record.update r x))) structs r.

(** X3: after any number of updates the history holds the samples in the order
    they came, short of the oldest ones: one sample has been dropped for
    every update made when 100 samples were already held.  The signals are
    never touched. *)
Theorem history_is_sliding_window (structs : list value) :
  forall r : Record.t,
    Record.history (updates r structs)
    = drop (length structs - (100 - length (Record.history r)))
        (Record.history r ++ structs)
    /\ Record.signals (updates r structs) = Record.signals r
    /\ (length (Record.history (updates r structs))
        <= Nat.max 100 (length (Record.history r)))%nat.
Proof.
  induction structs as [|x structs IH]; intros r.
  - cbn [updates fold_left length]. rewrite app_nil_r. simpl. split; [reflexivity|].
    split; [reflexivity | lia].
  - cbn [updates fold_left]. fold (updates (fst (fst (Record.update r x))) structs).
    destruct (update_history r x) as (Hh & Hs & _).
    destruct (IH (fst (fst (Record.update r x)))) as (IHh & IHs & IHl).
    rewrite IHh, IHs, Hs in *. clear IHh IHs.
    set (h := Record.history r) in *.
    unfold len in Hh.
    destruct (Z.of_nat (length h) <? 100) eqn:E;
      [apply Z.ltb_lt in E | apply Z.ltb_ge in E]; rewrite Hh in *.
    + rewrite length_app in *. cbn [length] in *.
      rewrite <- app_assoc. cbn [app].
      split; [f_equal; lia|]. split; [reflexivity|].
      rewrite length_drop, length_app in *. cbn [length] in *. lia.
    + assert (Hd : drop 1 (h ++ [x]) ++ structs = drop 1 (h ++ x :: structs)).
      { destruct h as [|y h]; [simpl in E; lia|].
        simpl. rewrite drop_0. now rewrite <- app_assoc. }
      rewrite Hd, drop_drop. rewrite !length_drop, !length_app in *.
      cbn [length] in *.
      split; [f_equal; lia|]. split; [reflexivity | lia].
Qed.

End History.

(** ** RecordSignal: connecting and removing handlers *)

(** The indices in use are distinct and below the next index to give out;
    this holds of a new signal and is kept by [connect] and [remove]. *)
Definition signal_ok (sig : RecordSignal.t) : Prop :=
  NoDup (fst <$> RecordSignal._callbacks sig)
  /\ Forall (fun kv => fst kv < RecordSignal._index sig)
       (RecordSignal._callbacks sig).

Lemma signal_ok_init : signal_ok RecordSignal.__init__.
Proof. split; constructor. Qed.

Lemma filter_others (cbs : list (Z * RecordSignal.handler)) (c : Z) :
  Forall (fun kv => fst kv < c) cbs ->
  List.filter (fun kv => negb (fst kv =? c)) cbs = cbs
  /\ existsb (fun kv => fst kv =? c) cbs = false.
Proof.
  induction 1 as [|kv cbs Hkv _ [IH1 IH2]]; [split; reflexivity|].
  cbn [List.filter existsb].
  replace (fst kv =? c) with false by (symmetry; apply Z.eqb_neq; lia).
  cbn [negb orb]. now rewrite IH1, IH2.
Qed.

(** X4: [connect] gives the handler a fresh index and calls it last;
    [Connection.remove] then leaves exactly the handlers there were before,
    and a second [remove] raises. *)
Theorem connect_then_remove (sig : RecordSignal.t) (h : RecordSignal.handler) :
  signal_ok sig ->
  let sig1 := fst (RecordSignal.connect sig h) in
  let c := snd (RecordSignal.connect sig h) in
  c = RecordSignal._index sig
  /\ RecordSignal._callbacks sig1 = RecordSignal._callbacks sig ++ [(c, h)]
  /\ signal_ok sig1
  /\ (forall v : value,
         RecordSignal.update sig1 v
         = (fst (RecordSignal.update sig v) ++ [(h, v)], true))
  /\ exists sig2 : RecordSignal.t,
       RecordSignal.remove sig1 c = Some sig2
       /\ RecordSignal._callbacks sig2 = RecordSignal._callbacks sig
       /\ signal_ok sig2
       /\ RecordSignal.remove sig2 c = None.
Proof.
  intros [Hnd Hlt]. cbv zeta.
  destruct (filter_others _ _ Hlt) as [Hf He].
  unfold RecordSignal.connect. cbn [fst snd]. rewrite He.
  cbn [RecordSignal._callbacks RecordSignal._index].
  split; [reflexivity|]. split; [reflexivity|].
  assert (Hok1 : signal_ok
                   (RecordSignal.mk (RecordSignal._index sig + 1)
                      (RecordSignal._callbacks sig
                       ++ [(RecordSignal._index sig, h)]))).
  { split; cbn [RecordSignal._callbacks RecordSignal._index].
    - rewrite fmap_app. apply NoDup_app. split; [exact Hnd|].
      split; [|apply NoDup_singleton].
      intros k Hk Hk'. apply list_elem_of_singleton in Hk'. subst k.
      apply list_elem_of_fmap in Hk as (kv & Hkv & Hin).
      rewrite Forall_forall in Hlt. specialize (Hlt kv Hin). simpl in Hkv. lia.
    - apply Forall_app. split.
      + eapply Forall_impl; [exact Hlt|]. intros kv Hkv. simpl in *. lia.
      + constructor; [simpl; lia | constructor]. }
  split; [exact Hok1|]. split.
  - intros v. unfold RecordSignal.update.
    cbn [RecordSignal._callbacks fst]. rewrite map_app. cbn [map snd].
    f_equal. unfold len. rewrite length_app. cbn [length].
    destruct (Z.of_nat (length (RecordSignal._callbacks sig) + 1) =? 0) eqn:E;
      [apply Z.eqb_eq in E; lia | reflexivity].
  - unfold RecordSignal.remove at 1. cbn [RecordSignal._callbacks RecordSignal._index].
    rewrite existsb_app. cbn [existsb fst]. rewrite Z.eqb_refl, orb_true_r.
    cbn [orb]. eexists. split; [reflexivity|].
    cbn [RecordSignal._callbacks]. rewrite List.filter_app, Hf.
    cbn [List.filter fst]. rewrite Z.eqb_refl. cbn [negb]. rewrite app_nil_r.
    split; [reflexivity|]. split.
    + split; [exact Hnd|]. cbn [RecordSignal._callbacks RecordSignal._index].
      eapply Forall_impl; [exact Hlt|]. intros kv Hkv. simpl in *. lia.
    + unfold RecordSignal.remove. cbn [RecordSignal._callbacks]. now rewrite He.
Qed.

Lemma connect_then_remove_witness :
  RecordSignal.update (fst (RecordSignal.connect RecordSignal.__init__ "plot"))
    (VInt 1)
  = ([("plot"%string, VInt 1)], true).
Proof.
  apply (proj1 (proj2 (proj2 (proj2
           (connect_then_remove RecordSignal.__init__ "plot" signal_ok_init))))).
Defined.

(** ** Record.get_signal: the dictionary of signals *)

Section GetSignal.
Context `{External}.

Definition signal_at (r : Record.t) (name : string) : option RecordSignal.t :=
  snd <$> List.find (fun kv => String.eqb (fst kv) name) (Record.signals r).

Lemma find_app_l {A : Type} (f : A -> bool) (l1 l2 : list A) (x : A) :
  List.find f l1 = Some x -> List.find f (l1 ++ l2) = Some x.
Proof.
  induction l1 as [|y l1 IH]; [discriminate|]. simpl.
  destruct (f y); [trivial | exact IH].
Qed.

Lemma find_app_r {A : Type} (f : A -> bool) (l1 l2 : list A) :
  List.find f l1 = None -> List.find f (l1 ++ l2) = List.find f l2.
Proof.
  induction l1 as [|y l1 IH]; [reflexivity|]. simpl.
  destruct (f y); [discriminate | exact IH].
Qed.

Lemma find_none_not_in (items : list (string * RecordSignal.t)) (name : string) :
  List.find (fun kv => String.eqb (fst kv) name) items = None ->
  name ∉ fst <$> items.
Proof.
  induction items as [|[k sig] items IH]; [intros _; apply not_elem_of_nil|].
  cbn [List.find fst fmap list_fmap].
  destruct (String.eqb k name) eqn:E; [discriminate|].
  intros Hn Hin. apply elem_of_cons in Hin as [-> | Hin].
  - now rewrite String.eqb_refl in E.
  - now apply IH.
Qed.

(** X5: [get_signal] returns the signal stored under the name, creating an
    empty one at the end when there is none; it is idempotent, keeps the
    keys distinct and leaves every other signal, the history and the archive
    as they were. *)
Theorem get_signal_finds_or_creates (r : Record.t) (name : string) :
  let r1 := fst (Record.get_signal r name) in
  let sig := snd (Record.get_signal r name) in
  signal_at r1 name = Some sig
  /\ Record.get_signal r1 name = (r1, sig)
  /\ sig = default RecordSignal.__init__ (signal_at r name)
  /\ Record.signals r1
     = Record.signals r
       ++ match signal_at r name with
          | Some _ => []
          | None => [(name, RecordSignal.__init__)]
          end
  /\ (forall other : string,
         other <> name -> signal_at r1 other = signal_at r other)
  /\ (NoDup (fst <$> Record.signals r) -> NoDup (fst <$> Record.signals r1))
  /\ Record.history r1 = Record.history r
  /\ Record.archive_ r1 = Record.archive_ r.
Proof.
  unfold signal_at, Record.get_signal.
  destruct (List.find (fun kv => String.eqb (fst kv) name) (Record.signals r))
    as [kv|] eqn:Hf; cbn [fst snd fmap option_fmap option_map default
                           from_option id].
  - rewrite app_nil_r. repeat split; auto; now rewrite Hf.
  - cbn [Record.signals Record.history Record.archive_].
    assert (Hnew : List.find (fun kv => String.eqb (fst kv) name)
                     (Record.signals r ++ [(name, RecordSignal.__init__)])
                   = Some (name, RecordSignal.__init__)).
    { rewrite (find_app_r _ _ _ Hf). simpl. now rewrite String.eqb_refl. }
    rewrite Hnew. cbn. repeat split; auto.
    + intros other Hne.
      destruct (List.find (fun kv => String.eqb (fst kv) other)
                  (Record.signals r)) as [kv|] eqn:Ho.
      * now rewrite (find_app_l _ _ _ _ Ho).
      * rewrite (find_app_r _ _ _ Ho). simpl.
        replace (String.eqb name other) with false; [reflexivity|].
        symmetry. apply String.eqb_neq. congruence.
    + intros Hnd. rewrite fmap_app. apply NoDup_app. split; [exact Hnd|].
      split; [|apply NoDup_singleton].
      intros k Hk Hk'. apply list_elem_of_singleton in Hk'. subst k.
      now apply (find_none_not_in _ _ Hf).
Qed.

End GetSignal.

Lemma get_signal_finds_or_creates_witness :
  signal_at (H := Example.external)
    (fst (Record.get_signal example_record "y")) "__MEAN_x"
  = signal_at example_record "__MEAN_x".
Proof.
  apply (proj1 (proj2 (proj2 (proj2 (proj2
           (get_signal_finds_or_creates (H := Example.external)
              example_record "y")))))).
  discriminate.
Defined.

(** ** _get_data: dotted paths *)




Section Paths.
Context `{External}.





End Paths.

(** ** Device.read_schema *)

Definition is_schema_line (name line : string) : bool :=
  String.eqb line ("schema " +:+ name) || String.eqb line ("cschema " +:+ name).

(** What the call of [readline] number [k] returns, counted from 0: the
    line, and the stream and the wake-ups that it leaves. *)
Fixpoint feed_at (f : DeviceStream.feed) (k : nat)
  : option (bytes * DeviceStream.t * list bytes) :=
  match f with
  | DeviceStream.Got l s wakes next =>
      match k with
      | O => Some (l, s, wakes)
      | S k' => feed_at next k'
      end
  | DeviceStream.Starved _ => None
  end.

Lemma decode_encode (text : string) : Device.decode (Device.encode text) = text.
Proof. apply string_of_list_byte_of_string. Qed.

Lemma schema_line_not_err (name line : string) :
  is_schema_line name line = true -> startswith line "ERR" = false.
Proof.
  unfold is_schema_line. intros Hl. apply orb_prop in Hl as [Hl | Hl];
    apply String.eqb_eq in Hl; subst line; reflexivity.
Qed.

Lemma schema_line_nonempty (name line : string) :
  is_schema_line name line = true -> nonempty (Device.encode line) = true.
Proof.
  unfold is_schema_line. intros Hl. apply orb_prop in Hl as [Hl | Hl];
    apply String.eqb_eq in Hl; subst line; reflexivity.
Qed.

Section ReadSchema.
Context `{External}.

Lemma read_schema_loop_spec (pre : list string) :
  forall (f : DeviceStream.feed) (d : Device.t) (name term : string)
         (rest : list string),
    texts f = pre ++ term :: rest ->
    forallb (fun l => negb (startswith l "ERR") && negb (is_schema_line name l))
            pre = true ->
    exists (l : bytes) (s : DeviceStream.t) (wakes' : list bytes),
      feed_at f (length pre) = Some (l, s, wakes')
      /\ Device.decode l = term
      /\ (startswith term "ERR" = true ->
          Device.read_schema_loop d name f
          = Device.Raised (CommandError EmptyString term)
              (Device.set_stream d s) wakes')
      /\ (startswith term "ERR" = false ->
          is_schema_line name term = true ->
          Device.read_schema_loop d name f
          = Device.read_sized_block (Device.set_stream d s) wakes').
Proof.
  induction pre as [|p pre IH]; intros f d name term rest Hf Hp.
  - simpl in Hf.
    apply texts_cons_inv in Hf as (l & s & wakes & next & -> & Hl & Hn).
    exists l, s, wakes. split; [reflexivity|]. split; [exact Hl|].
    cbn [Device.read_schema_loop]. rewrite Hl. split.
    + now intros ->.
    + intros -> Hs. unfold is_schema_line in Hs. now rewrite Hs.
  - cbn [forallb] in Hp. apply andb_prop in Hp as [Hp1 Hp].
    apply andb_prop in Hp1 as [He Hs].
    apply negb_true_iff in He. apply negb_true_iff in Hs.
    change ((p :: pre) ++ term :: rest) with (p :: pre ++ term :: rest) in Hf.
    apply texts_cons_inv in Hf as (l & s & wakes & next & -> & Hl & Hn).
    cbn [Device.read_schema_loop feed_at length]. rewrite Hl, He.
    unfold is_schema_line in Hs. rewrite Hs. cbn [negb].
    now apply (IH next d name term rest).
Qed.

Lemma read_schema_loop_waits (f : DeviceStream.feed) :
  forall (d : Device.t) (name : string),
    forallb (fun l => negb (startswith l "ERR") && negb (is_schema_line name l))
            (texts f) = true ->
    suspended (Device.read_schema_loop d name f) = true.
Proof.
  induction f as [l s wakes next IH|s]; intros d name Hf; [|reflexivity].
  unfold texts in Hf. cbn [DeviceStream.feed_lines fmap list_fmap forallb] in Hf.
  apply andb_prop in Hf as [Hl Hf]. apply andb_prop in Hl as [He Hs].
  apply negb_true_iff in He. apply negb_true_iff in Hs.
  cbn [Device.read_schema_loop]. rewrite He.
  unfold is_schema_line in Hs. rewrite Hs. cbn [negb]. now apply IH.
Qed.

Lemma read_schema_loop_raise (f : DeviceStream.feed) :
  forall (d : Device.t) (name : string) (e : exn) (d' : Device.t)
         (wakes' : list bytes),
    Device.read_schema_loop d name f = Device.Raised e d' wakes' ->
    exists line, e = CommandError EmptyString line
                 /\ startswith line "ERR" = true
                 /\ line ∈ texts f.
Proof.
  induction f as [l s wakes next IH|s]; intros d name e d' wakes' Hr;
    [|discriminate].
  cbn [Device.read_schema_loop] in Hr. unfold texts.
  cbn [DeviceStream.feed_lines fmap list_fmap].
  destruct (startswith (Device.decode l) "ERR") eqn:He.
  - injection Hr as <- _ _. exists (Device.decode l).
    split; [reflexivity|]. split; [exact He | apply list_elem_of_here].
  - destruct (negb _).
    + destruct (IH _ _ _ _ _ Hr) as (line & -> & Hs & Hin).
      exists line. split; [reflexivity|]. split; [exact Hs|].
      now apply list_elem_of_further.
    + pose proof (read_sized_block_no_raise (Device.set_stream d s) wakes) as Hn.
      rewrite Hr in Hn. discriminate.
Qed.

(** The schema line and its block, all buffered. *)
Lemma read_schema_buffered (d : Device.t) (name line : string)
    (dl m b1 b2 b3 b4 : byte) (block extra : bytes) (wakes : list bytes) :
  is_schema_line name line = true ->
  DeviceStream._read_data (Device._stream d)
  = Device.encode line
    ++ dl :: m :: b1 :: b2 :: b3 :: b4 :: block ++ extra ->
  forallb (fun b => negb (is_newline b)) (Device.encode line) = true ->
  rstrip (Device.encode line) = Device.encode line ->
  is_newline dl = true ->
  unpack_le32 [b1; b2; b3; b4] = len block ->
  len block <= 2 ^ 24 ->
  Device.read_schema d name wakes
  = Device.Returned (Some block)
      (Device.set_stream d
         (DeviceStream.set_read_data (Device._stream d) extra))
      wakes.
Proof.
  intros Hline Hbuf Hseg Hstrip Hdl Hsize Hcap.
  unfold Device.read_schema.
  rewrite lines_unfold, readline_eq,
    (readline_try_split _ _ _ _ Hbuf Hseg Hdl), Hstrip,
    (schema_line_nonempty _ _ Hline).
  cbn [Device.read_schema_loop]. rewrite decode_encode.
  rewrite (schema_line_not_err _ _ Hline).
  unfold is_schema_line in Hline. rewrite Hline. cbn [negb].
  unfold Device.read_sized_block. cbn [Device._stream Device.set_stream].
  pose proof (read_sized_block_buffered (Device._stream d) m b1 b2 b3 b4
                block extra wakes Hsize Hcap) as Hblock.
  change (DeviceStream.set_read_data
            (DeviceStream.set_read_data (Device._stream d)
               (m :: b1 :: b2 :: b3 :: b4 :: block ++ extra))
            (m :: b1 :: b2 :: b3 :: b4 :: block ++ extra))
    with (DeviceStream.set_read_data (Device._stream d)
            (m :: b1 :: b2 :: b3 :: b4 :: block ++ extra)) in *.
  rewrite Hblock. reflexivity.
Qed.

(** X7: [read_schema] passes over every line that neither begins with [ERR]
    nor is [schema <name>] or [cschema <name>].  At the first line that
    begins with [ERR] it raises the command error with an empty command and
    that line; at the first schema line it reads the sized block from the
    stream and the wake-ups exactly as the [readline] that returned the line
    left them.  So when the schema line, its delimiter, one more byte (the
    LF after a CR), the four bytes of the length and the block are buffered,
    the block is returned and what follows it is left in the buffer.  It
    raises nothing else, and while neither kind of line has come it is still
    waiting. *)
Theorem read_schema_raises_on_error_line (d : Device.t) (name : string)
    (wakes : list bytes) :
  (forall (pre : list string) (term : string) (rest : list string),
      texts (DeviceStream.lines (Device._stream d) wakes)
      = pre ++ term :: rest ->
      forallb (fun l => negb (startswith l "ERR")
                        && negb (is_schema_line name l)) pre = true ->
      exists (l : bytes) (s : DeviceStream.t) (wakes' : list bytes),
        feed_at (DeviceStream.lines (Device._stream d) wakes) (length pre)
        = Some (l, s, wakes')
        /\ Device.decode l = term
        /\ (startswith term "ERR" = true ->
            Device.read_schema d name wakes
            = Device.Raised (CommandError EmptyString term)
                (Device.set_stream d s) wakes')
        /\ (startswith term "ERR" = false ->
            is_schema_line name term = true ->
            Device.read_schema d name wakes
            = Device.read_sized_block (Device.set_stream d s) wakes'))
  /\ (forall (line : string) (dl m b1 b2 b3 b4 : byte) (block extra : bytes),
         is_schema_line name line = true ->
         DeviceStream._read_data (Device._stream d)
         = Device.encode line
           ++ dl :: m :: b1 :: b2 :: b3 :: b4 :: block ++ extra ->
         forallb (fun b => negb (is_newline b)) (Device.encode line) = true ->
         rstrip (Device.encode line) = Device.encode line ->
         is_newline dl = true ->
         unpack_le32 [b1; b2; b3; b4] = len block ->
         len block <= 2 ^ 24 ->
         Device.read_schema d name wakes
         = Device.Returned (Some block)
             (Device.set_stream d
                (DeviceStream.set_read_data (Device._stream d) extra))
             wakes)
  /\ (forall (e : exn) (d' : Device.t) (wakes' : list bytes),
         Device.read_schema d name wakes = Device.Raised e d' wakes' ->
         exists line,
           e = CommandError EmptyString line
           /\ startswith line "ERR" = true
           /\ line ∈ texts (DeviceStream.lines (Device._stream d) wakes))
  /\ (forallb (fun l => negb (startswith l "ERR")
                        && negb (is_schema_line name l))
              (texts (DeviceStream.lines (Device._stream d) wakes)) = true ->
      suspended (Device.read_schema d name wakes) = true).
Proof.
  split; [|split; [|split]].
  - intros pre term rest. unfold Device.read_schema.
    apply read_schema_loop_spec.
  - intros line dl m b1 b2 b3 b4 block extra. apply read_schema_buffered.
  - unfold Device.read_schema. apply read_schema_loop_raise.
  - unfold Device.read_schema. apply read_schema_loop_waits.
Qed.

End ReadSchema.

(** The device sends [schema x], CR, LF, the length 1 and the block; one
    more byte follows. *)
Lemma read_schema_raises_on_error_line_witness :
  Device.read_schema
    (example_session
       [x73; x63; x68; x65; x6d; x61; x20; x78; x0d; x0a;
        x01; x00; x00; x00; x2a; x21])
    "x" []
  = Device.Returned (Some [x2a]) (example_session [x21]) [].
Proof.
  apply (proj1 (proj2 (read_schema_raises_on_error_line
                         (H := Example.external)
                         (example_session
                            [x73; x63; x68; x65; x6d; x61; x20; x78; x0d; x0a;
                             x01; x00; x00; x00; x2a; x21])
                         "x" []))
           "schema x"%string x0d x0a x01 x00 x00 x00 [x2a] [x21]);
    reflexivity || (vm_compute; intros; discriminate).
Defined.

(** ** TviewMainWindow._dispatch_until: where the frames go *)

(** The payloads of the frames that come from device [num]. *)
Definition addressed (num : Z) (events : list rx) : list bytes :=
  flat_map
    (fun r =>
       match r with
       | Read (Some m) =>
           if TviewMainWindow.source_id_of m =? num then [data m] else []
       | _ => []
       end)
    events.

(** The bytes that [process_message] takes from these payloads. *)
Definition accepted (payloads : list bytes) : bytes :=
  concat (map (fun p => slice p 3 (3 + index p 2))
              (List.filter (fun p => negb (malformed p)) payloads)).

Lemma accepted_app (ps qs : list bytes) :
  accepted (ps ++ qs) = accepted ps ++ accepted qs.
Proof. unfold accepted. now rewrite List.filter_app, map_app, concat_app. Qed.

Lemma addressed_app (num : Z) (es fs : list rx) :
  addressed num (es ++ fs) = addressed num es ++ addressed num fs.
Proof. unfold addressed. now rewrite flat_map_app. Qed.

Lemma process_message_read_data (s : DeviceStream.t) (p : bytes) :
  DeviceStream._read_data (fst (DeviceStream.process_message s p))
  = DeviceStream._read_data s ++ accepted [p].
Proof.
  rewrite process_message_cases. unfold accepted. cbn [List.filter].
  destruct (malformed p); cbn; now rewrite app_nil_r.
Qed.

Section Routing.
Context `{External}.

Definition inbox (d : Device.t) : bytes :=
  DeviceStream._read_data (Device._stream d).

(** No device before position [j] has the number of the one at [j]. *)
Definition first_of_its_number (nums : list Z) (j : nat) : Prop :=
  forall (k : nat) (nk nj : Z),
    (k < j)%nat -> nums !! k = Some nk -> nums !! j = Some nj -> nk <> nj.

Lemma first_of_its_number_tail (n : Z) (nums : list Z) (j : nat) :
  first_of_its_number (n :: nums) (S j) -> first_of_its_number nums j.
Proof.
  intros Hf k nk nj Hk Hnk Hnj. apply (Hf (S k) nk nj); [lia | exact Hnk | exact Hnj].
Qed.

Lemma route_lookup (devices : list Device.t) (src : Z) (m : message) :
  forall (j : nat) (d : Device.t),
    devices !! j = Some d ->
    first_of_its_number (Device.number <$> devices) j ->
    fst (TviewMainWindow.route devices src m) !! j
    = Some (if Device.number d =? src
            then fst (Device.process_message d (data m)) else d).
Proof.
  induction devices as [|d0 devices IH]; intros j d Hj Hfirst; [discriminate|].
  cbn [TviewMainWindow.route].
  destruct j as [|j].
  - injection Hj as ->.
    destruct (Device.number d =? src).
    + now destruct (Device.process_message d (data m)).
    + now destruct (TviewMainWindow.route devices src m).
  - cbn [lookup list_lookup] in Hj.
    assert (Hne : Device.number d0 <> Device.number d).
    { apply (Hfirst 0%nat); [lia | reflexivity|].
      rewrite list_lookup_fmap. cbn [lookup list_lookup]. now rewrite Hj. }
    destruct (Device.number d0 =? src) eqn:E0.
    + apply Z.eqb_eq in E0. destruct (Device.process_message d0 (data m)).
      cbn. rewrite Hj.
      replace (Device.number d =? src) with false; [reflexivity|].
      symmetry. apply Z.eqb_neq. lia.
    + specialize (IH j d Hj (first_of_its_number_tail _ _ _ Hfirst)).
      destruct (TviewMainWindow.route devices src m). exact IH.
Qed.

(** From [devices] to [devices'] the frames [used] were routed: the numbers
    are the same, and the device at a position that is the first of its
    number has received what [process_message] accepts of the frames that
    carry its number, in their order, and nothing else. *)
Definition routed (devices devices' : list Device.t) (used : list rx) : Prop :=
  Device.number <$> devices' = Device.number <$> devices
  /\ forall (j : nat) (d : Device.t),
       devices !! j = Some d ->
       first_of_its_number (Device.number <$> devices) j ->
       exists d' : Device.t,
         devices' !! j = Some d'
         /\ inbox d' = inbox d ++ accepted (addressed (Device.number d) used).

Definition address (d : Device.t) : Z * bytes := (Device.number d, inbox d).

Lemma routed_same (devices devices' : list Device.t) :
  address <$> devices' = address <$> devices -> routed devices devices' [].
Proof.
  intros Hv. split.
  - apply (f_equal (fmap fst)) in Hv.
    now rewrite <- !list_fmap_compose in Hv.
  - intros j d Hj _.
    assert (Hl : (address <$> devices') !! j = Some (address d))
      by now rewrite Hv, list_lookup_fmap, Hj.
    rewrite list_lookup_fmap in Hl.
    destruct (devices' !! j) as [d'|]; [|discriminate].
    exists d'. split; [reflexivity|]. injection Hl as _ Hi.
    cbn. now rewrite app_nil_r.
Qed.

Lemma routed_trans (a b c : list Device.t) (u1 u2 : list rx) :
  routed a b u1 -> routed b c u2 -> routed a c (u1 ++ u2).
Proof.
  intros [Hn1 H1] [Hn2 H2]. split; [now rewrite Hn2|].
  intros j d Hj Hfirst.
  destruct (H1 j d Hj Hfirst) as (d1 & Hj1 & Hi1).
  assert (Hnum : Device.number d1 = Device.number d).
  { assert (Hl : (Device.number <$> b) !! j = Some (Device.number d))
      by now rewrite Hn1, list_lookup_fmap, Hj.
    rewrite list_lookup_fmap, Hj1 in Hl. now injection Hl. }
  rewrite <- Hn1 in Hfirst.
  destruct (H2 j d1 Hj1 Hfirst) as (d2 & Hj2 & Hi2).
  exists d2. split; [exact Hj2|].
  now rewrite Hi2, Hi1, Hnum, addressed_app, accepted_app, app_assoc.
Qed.

Lemma routed_same_read_none (devices : list Device.t) :
  routed devices devices [Read None].
Proof.
  split; [reflexivity|]. intros j d Hj _. exists d. split; [exact Hj|].
  cbn. now rewrite app_nil_r.
Qed.

Lemma sched_numbers (devices devices' : list Device.t) :
  sched <$> devices' = sched <$> devices ->
  Device.number <$> devices' = Device.number <$> devices.
Proof.
  intros Hs. apply (f_equal (fmap num_of)) in Hs.
  now rewrite <- !list_fmap_compose in Hs.
Qed.

Lemma routed_route (devices : list Device.t) (m : message) :
  routed devices
    (fst (TviewMainWindow.route devices (TviewMainWindow.source_id_of m) m))
    [Read (Some m)].
Proof.
  split; [apply sched_numbers, route_sched|].
  intros j d Hj Hfirst. rewrite (route_lookup _ _ _ _ _ Hj Hfirst).
  eexists. split; [reflexivity|].
  unfold addressed. cbn [flat_map]. rewrite app_nil_r, Z.eqb_sym.
  destruct (TviewMainWindow.source_id_of m =? Device.number d).
  - unfold Device.process_message, inbox.
    pose proof (process_message_read_data (Device._stream d) (data m)) as Hp.
    destruct (DeviceStream.process_message (Device._stream d) (data m)).
    exact Hp.
  - cbn. now rewrite app_nil_r.
Qed.

Lemma routed_dispatch (inbound : list rx) :
  forall (devices : list Device.t) (predicate : message -> bool),
    exists used : list rx,
      inbound
      = used ++ snd (TviewMainWindow._dispatch_until devices predicate inbound)
      /\ routed devices
           (fst (fst (TviewMainWindow._dispatch_until devices predicate
                        inbound)))
           used.
Proof.
  induction inbound as [|r inbound IH]; intros devices predicate.
  - exists []. split; [reflexivity | now apply routed_same].
  - cbn [TviewMainWindow._dispatch_until]. destruct r as [[m|]|].
    + pose proof (routed_route devices m) as Hr.
      destruct (TviewMainWindow.route devices (TviewMainWindow.source_id_of m) m)
        as [devices' b]. cbn [fst] in Hr.
      destruct (predicate m).
      * exists [Read (Some m)]. split; [reflexivity | exact Hr].
      * destruct (IH devices' predicate) as (used & Hu & Hr').
        exists (Read (Some m) :: used). split.
        -- cbn [app]. now rewrite <- Hu.
        -- apply (routed_trans _ _ _ [Read (Some m)] used Hr Hr').
    + destruct (IH devices predicate) as (used & Hu & Hr').
      exists (Read None :: used). split.
      * cbn [app]. now rewrite <- Hu.
      * apply (routed_trans devices devices _ [Read None] used);
          [now apply routed_same_read_none | exact Hr'].
    + exists [Deadline]. split; [reflexivity|].
      apply (routed_trans devices devices devices [Deadline] []);
        [|now apply routed_same].
      split; [reflexivity|]. intros j d Hj _. exists d. split; [exact Hj|].
      cbn. now rewrite app_nil_r.
Qed.

Lemma routed_poll_one (st : TviewMainWindow.polling) (i : nat) :
  exists used : list rx,
    TviewMainWindow.inbound_ st
    = used ++ TviewMainWindow.inbound_ (TviewMainWindow.poll_one st i)
    /\ routed (TviewMainWindow.devices_ st)
         (TviewMainWindow.devices_ (TviewMainWindow.poll_one st i)) used.
Proof.
  unfold TviewMainWindow.poll_one.
  destruct (TviewMainWindow.devices_ st !! i) as [d|] eqn:Hi.
  2:{ exists []. split; [reflexivity | now apply routed_same]. }
  destruct (negb (Device.poll_count d =? 0)).
  - exists []. split; [reflexivity|]. apply routed_same.
    cbn [TviewMainWindow.devices_]. rewrite list_fmap_insert.
    apply list_insert_id. now rewrite list_lookup_fmap, Hi.
  - unfold Device.poll, DeviceStream.poll.
    set (device1 := Device.set_stream d _).
    set (predicate := fun x => TviewMainWindow.source_id_of x =? Device.number d).
    assert (H1 : routed (TviewMainWindow.devices_ st)
                   (<[i := device1]> (TviewMainWindow.devices_ st)) []).
    { apply routed_same. rewrite list_fmap_insert. apply list_insert_id.
      now rewrite list_lookup_fmap, Hi. }
    destruct (routed_dispatch (TviewMainWindow.inbound_ st)
                (<[i := device1]> (TviewMainWindow.devices_ st)) predicate)
      as (used & Hu & H2).
    destruct (TviewMainWindow._dispatch_until
                (<[i := device1]> (TviewMainWindow.devices_ st)) predicate
                (TviewMainWindow.inbound_ st)) as [[devices2 r] inbound'].
    cbn [fst snd] in Hu, H2. exists used.
    pose proof (routed_trans _ _ _ [] used H1 H2) as H12. cbn [app] in H12.
    destruct r as [this_data_read|];
      cbn [TviewMainWindow.devices_ TviewMainWindow.inbound_];
      (split; [exact Hu|]);
      rewrite <- (app_nil_r used);
      apply (routed_trans _ devices2 _ used [] H12);
      apply routed_same;
      rewrite (list_fmap_alter address _ (fun v => v))
        by (apply Forall_forall; intros x _; reflexivity);
      now rewrite list_alter_id.
Qed.

Lemma routed_fold (idx : list nat) :
  forall st : TviewMainWindow.polling,
    exists used : list rx,
      TviewMainWindow.inbound_ st
      = used ++ TviewMainWindow.inbound_
                  (fold_left TviewMainWindow.poll_one idx st)
      /\ routed (TviewMainWindow.devices_ st)
           (TviewMainWindow.devices_
              (fold_left TviewMainWindow.poll_one idx st)) used.
Proof.
  induction idx as [|i idx IH]; intros st.
  - exists []. split; [reflexivity | now apply routed_same].
  - cbn [fold_left].
    destruct (routed_poll_one st i) as (u1 & Hu1 & H1).
    destruct (IH (TviewMainWindow.poll_one st i)) as (u2 & Hu2 & H2).
    exists (u1 ++ u2). split.
    + now rewrite Hu1, Hu2 at 1; rewrite app_assoc.
    + exact (routed_trans _ _ _ u1 u2 H1 H2).
Qed.

Lemma emit_all_address (devices : list Device.t) :
  address <$> fst (TviewMainWindow.emit_all devices) = address <$> devices.
Proof.
  induction devices as [|d devices IH]; [reflexivity|].
  cbn [TviewMainWindow.emit_all].
  unfold Device.emit_any_writes, DeviceStream.maybe_emit_one.
  destruct (TviewMainWindow.emit_all devices) as [rest' sent'].
  cbn [fst] in IH.
  destruct (len (DeviceStream._write_data (Device._stream d)) =? 0);
    cbn [fst fmap list_fmap]; f_equal; try exact IH; reflexivity.
Qed.

Lemma routed_iteration (devices : list Device.t) (inbound : list rx) :
  exists used : list rx,
    inbound
    = used
      ++ snd (fst (fst (TviewMainWindow._run_transport_iteration devices
                          inbound)))
    /\ routed devices
         (fst (fst (fst (TviewMainWindow._run_transport_iteration devices
                           inbound))))
         used.
Proof.
  unfold TviewMainWindow._run_transport_iteration.
  pose proof (routed_same _ _ (emit_all_address devices)) as H1.
  destruct (TviewMainWindow.emit_all devices) as [devices1 written].
  cbn [fst] in H1.
  destruct (routed_fold (seq 0 (length devices1))
              (TviewMainWindow.mk_polling devices1 inbound written false))
    as (used & Hu & H2).
  cbn [TviewMainWindow.devices_ TviewMainWindow.inbound_] in Hu, H2.
  cbn [fst snd]. exists used. split; [exact Hu|].
  exact (routed_trans _ _ _ [] used H1 H2).
Qed.

Lemma routed_run (n : nat) :
  forall (devices : list Device.t) (inbound : list rx),
    exists used : list rx,
      inbound
      = used ++ snd (fst (TviewMainWindow._run_transport n devices inbound))
      /\ routed devices
           (fst (fst (TviewMainWindow._run_transport n devices inbound)))
           used.
Proof.
  induction n as [|n IH]; intros devices inbound.
  - exists []. split; [reflexivity | now apply routed_same].
  - cbn [TviewMainWindow._run_transport].
    destruct (routed_iteration devices inbound) as (u1 & Hu1 & H1).
    destruct (TviewMainWindow._run_transport_iteration devices inbound)
      as [[[devices1 inbound1] sent1] b]. cbn [fst snd] in Hu1, H1.
    destruct (IH devices1 inbound1) as (u2 & Hu2 & H2).
    destruct (TviewMainWindow._run_transport n devices1 inbound1)
      as [[devices2 inbound2] sent2]. cbn [fst snd] in Hu2, H2 |- *.
    exists (u1 ++ u2). split.
    + now rewrite Hu1, Hu2 at 1; rewrite app_assoc.
    + exact (routed_trans _ _ _ u1 u2 H1 H2).
Qed.

(** X8: over any number of scheduling cycles the transport events are used up
    from the front, and every frame used is routed by its source id alone,
    whichever device is being polled at the time: a device that is the
    first of its number receives, appended to its inbound buffer in the
    order of arrival, the data of every well-formed payload that carries
    its number, and nothing else; frames of other numbers, malformed
    payloads, empty reads and timeouts add nothing to it.  The numbers of
    the devices do not change. *)
Theorem frames_reach_their_device (n : nat) (devices : list Device.t)
    (inbound : list rx) :
  exists used : list rx,
    inbound
    = used ++ snd (fst (TviewMainWindow._run_transport n devices inbound))
    /\ Device.number
         <$> fst (fst (TviewMainWindow._run_transport n devices inbound))
       = Device.number <$> devices
    /\ forall (j : nat) (d : Device.t),
         devices !! j = Some d ->
         first_of_its_number (Device.number <$> devices) j ->
         exists d' : Device.t,
           fst (fst (TviewMainWindow._run_transport n devices inbound)) !! j
           = Some d'
           /\ inbox d'
              = inbox d ++ accepted (addressed (Device.number d) used).
Proof.
  destruct (routed_run n devices inbound) as (used & Hu & Hn & Hr).
  exists used. split; [exact Hu|]. split; [exact Hn | exact Hr].
Qed.

End Routing.

(** Two devices; while device 1 is polled a frame of device 2 comes first. *)
Lemma frames_reach_their_device_witness :
  exists d' : @Device.t Example.external,
    fst (fst (TviewMainWindow._run_transport 2 example_devices
                [Read (Some (mk_message 0x200 [x41; x01; x01; x62]));
                 Read (Some (mk_message 0x100 [x41; x01; x01; x61]))]))
      !! 1%nat = Some d'
    /\ exists used,
         inbox d' = inbox (example_device 2) ++ accepted (addressed 2 used).
Proof.
  destruct (frames_reach_their_device (H := Example.external) 2 example_devices
              [Read (Some (mk_message 0x200 [x41; x01; x01; x62]));
               Read (Some (mk_message 0x100 [x41; x01; x01; x61]))])
    as (used & _ & _ & Hd).
  destruct (Hd 1%nat (example_device 2) eq_refl) as (d' & Hj & Hi).
  - intros k nk nj Hk Hnk Hnj. destruct k as [|k]; [|lia].
    injection Hnk as <-. injection Hnj as <-. discriminate.
  - exists d'. split; [exact Hj|]. exists used. exact Hi.
Defined.

(** ** Device.start: the wait for the first polls *)

(** The number of cycles after which [r] more polls have been sent at the
    latest, from [error_count = e] and [poll_count = p], when every poll
    times out. *)
Fixpoint need (r : nat) (e p : Z) : Z :=
  match r with
  | O => 0
  | S r' => p + 1 + need r' (Z.min 1000 (e + 1)) (Z.min 1000 (e + 1))
  end.

Lemma need_nonneg (r : nat) :
  forall e p : Z, 0 <= e -> 0 <= p -> 0 <= need r e p.
Proof.
  induction r as [|r IH]; intros e p He Hp; simpl; [lia|].
  specialize (IH (Z.min 1000 (e + 1)) (Z.min 1000 (e + 1))). lia.
Qed.

Lemma need_mono (r : nat) :
  forall e p e' p' : Z,
    e <= e' -> p <= p' -> need r e p <= need r e' p'.
Proof.
  induction r as [|r IH]; intros e p e' p' He Hp; simpl; [lia|].
  specialize (IH (Z.min 1000 (e + 1)) (Z.min 1000 (e + 1))
                (Z.min 1000 (e' + 1)) (Z.min 1000 (e' + 1))). lia.
Qed.

(** What is left of the wait for the fifth poll. *)
Definition owed (v : counters) : Z :=
  let '(e, p, _, polls) := v in need (Z.to_nat (5 - polls)) e p.

Definition paced (v : counters) : Prop :=
  let '(e, p, _, _) := v in 0 <= e /\ 0 <= p.

Definition polls_of (v : counters) : Z := snd v.

Lemma paced_step (v : counters) (answered : bool) :
  paced v -> paced (backoff v answered).
Proof.
  destruct v as [[[e p] num] polls]. unfold paced, backoff.
  destruct (p =? 0) eqn:E; simpl.
  - destruct answered; lia.
  - apply Z.eqb_neq in E. lia.
Qed.

Lemma polls_step (v : counters) (answered : bool) :
  polls_of v <= polls_of (backoff v answered) <= polls_of v + 1.
Proof.
  destruct v as [[[e p] num] polls]. unfold polls_of, backoff.
  destruct (negb (p =? 0)); [simpl; lia|]. destruct answered; simpl; lia.
Qed.

Lemma owed_step (v : counters) (answered : bool) :
  paced v -> owed (backoff v answered) <= Z.max 0 (owed v - 1).
Proof.
  destruct v as [[[e p] num] polls]. unfold paced, backoff.
  intros [He Hp].
  assert (Hr : forall k : Z,
             k < 5 -> Z.to_nat (5 - k) = S (Z.to_nat (5 - (k + 1)))) by lia.
  assert (Hz : forall k : Z, 5 <= k -> Z.to_nat (5 - k) = O) by lia.
  pose proof (need_nonneg (Z.to_nat (5 - (polls + 1)))
                (Z.min 1000 (e + 1)) (Z.min 1000 (e + 1))) as Hn.
  pose proof (need_mono (Z.to_nat (5 - (polls + 1))) 0 0
                (Z.min 1000 (e + 1)) (Z.min 1000 (e + 1))) as Hm.
  destruct (Z_le_gt_dec 5 polls) as [Hk | Hk].
  - destruct (p =? 0); [destruct answered|]; cbn [negb owed];
      rewrite ?(Hz polls), ?(Hz (polls + 1)) by lia; cbn [need]; lia.
  - destruct (Z.eqb_spec p 0) as [E | E]; [destruct answered|];
      cbn [negb owed]; rewrite (Hr polls) by lia; cbn [need]; lia.
Qed.

Lemma owed_fold (answers : list bool) :
  forall v : counters,
    paced v ->
    paced (fold_left backoff answers v)
    /\ owed (fold_left backoff answers v)
       <= Z.max 0 (owed v - Z.of_nat (length answers))
    /\ polls_of v <= polls_of (fold_left backoff answers v)
       <= polls_of v + Z.of_nat (length answers).
Proof.
  induction answers as [|a answers IH]; intros v Hv.
  - simpl. split; [exact Hv|]. lia.
  - cbn [fold_left length].
    destruct (IH (backoff v a) (paced_step v a Hv)) as (Hp & Ho & Hk).
    pose proof (owed_step v a Hv). pose proof (polls_step v a).
    split; [exact Hp|]. lia.
Qed.

(** From counters at zero five polls have been sent after fifteen cycles,
    whatever was answered, and not before the fifth. *)
Lemma five_polls (answers : list bool) (num : Z) :
  let v := fold_left backoff answers (0, 0, num, 0) in
  ((length answers < 5)%nat -> polls_of v < 5)
  /\ ((15 <= length answers)%nat -> 5 <= polls_of v).
Proof.
  destruct (owed_fold answers (0, 0, num, 0)) as (Hp & Ho & Hk);
    [unfold paced; lia|].
  cbn zeta. cbn [polls_of snd] in Hk. split; [lia|]. intros Hn.
  change (owed (0, 0, num, 0)) with 15 in Ho.
  destruct (fold_left backoff answers (0, 0, num, 0)) as [[[e p] num'] polls].
  unfold owed in Ho. unfold paced in Hp. cbn [polls_of snd] in *.
  destruct (Z_le_gt_dec 5 polls) as [Hge | Hlt]; [exact Hge|].
  exfalso.
  replace (Z.to_nat (5 - polls)) with (S (Z.to_nat (5 - (polls + 1)))) in Ho
    by lia.
  cbn [need] in Ho.
  pose proof (need_nonneg (Z.to_nat (5 - (polls + 1)))
                (Z.min 1000 (e + 1)) (Z.min 1000 (e + 1))).
  lia.
Qed.

(** With every poll timing out the fifth poll is the fifteenth cycle's. *)
Lemma five_polls_silent (n : nat) (num : Z) :
  (n < 15)%nat ->
  polls_of (fold_left backoff (repeat false n) (0, 0, num, 0)) < 5.
Proof.
  intros Hn.
  do 15 (destruct n as [|n]; [vm_compute; reflexivity|]). lia.
Qed.

Section Start.
Context `{External}.

(** [Device.start] up to the end of its waiting loop: the write, and the
    condition under which the loop sleeps once more. *)
Definition start_write (d : Device.t) : Device.t :=
  Device.write d (Device.encode (CRLF +:+ "tel stop" +:+ CRLF)).

Definition start_waits (d : Device.t) : bool :=
  (DeviceStream.poll_count (Device._stream d) <? 5)
  || (DeviceStream.emit_count (Device._stream d) <? 1).

Definition emits (d : Device.t) : Z :=
  DeviceStream.emit_count (Device._stream d).

Lemma route_emits (devices : list Device.t) (source_id : Z) (m : message) :
  emits <$> fst (TviewMainWindow.route devices source_id m) = emits <$> devices.
Proof.
  induction devices as [|d devices IH]; [reflexivity|].
  cbn [TviewMainWindow.route].
  destruct (Device.number d =? source_id).
  - unfold Device.process_message.
    pose proof (process_message_keeps (Device._stream d) (data m)) as Hk.
    destruct (DeviceStream.process_message (Device._stream d) (data m))
      as [s' r]. simpl in Hk. destruct Hk as (_ & _ & He & _).
    cbn [fst fmap list_fmap]. f_equal. exact He.
  - destruct (TviewMainWindow.route devices source_id m) as [rest' r].
    cbn [fst] in *. cbn [fmap list_fmap]. f_equal. exact IH.
Qed.

Lemma dispatch_emits (inbound : list rx) :
  forall (devices : list Device.t) (predicate : message -> bool),
    emits <$> fst (fst (TviewMainWindow._dispatch_until devices predicate
                          inbound))
    = emits <$> devices.
Proof.
  induction inbound as [|r inbound IH]; intros devices predicate;
    [reflexivity|].
  cbn [TviewMainWindow._dispatch_until].
  destruct r as [[m|]|]; [|apply IH|reflexivity].
  pose proof (route_emits devices (TviewMainWindow.source_id_of m) m) as Hr.
  destruct (TviewMainWindow.route devices (TviewMainWindow.source_id_of m) m)
    as [devices' r]. cbn [fst] in Hr.
  destruct (predicate m); [exact Hr|]. now rewrite IH.
Qed.

Lemma poll_one_emits (st : TviewMainWindow.polling) (i : nat) :
  emits <$> TviewMainWindow.devices_ (TviewMainWindow.poll_one st i)
  = emits <$> TviewMainWindow.devices_ st.
Proof.
  unfold TviewMainWindow.poll_one.
  destruct (TviewMainWindow.devices_ st !! i) as [d|] eqn:Hi; [|reflexivity].
  destruct (negb (Device.poll_count d =? 0)).
  - cbn [TviewMainWindow.devices_]. rewrite list_fmap_insert.
    apply list_insert_id. now rewrite list_lookup_fmap, Hi.
  - unfold Device.poll, DeviceStream.poll.
    set (device1 := Device.set_stream d _).
    pose proof (dispatch_emits (TviewMainWindow.inbound_ st)
                  (<[i := device1]> (TviewMainWindow.devices_ st))
                  (fun x => TviewMainWindow.source_id_of x =? Device.number d))
      as Hq.
    destruct (TviewMainWindow._dispatch_until
                (<[i := device1]> (TviewMainWindow.devices_ st))
                (fun x => TviewMainWindow.source_id_of x =? Device.number d)
                (TviewMainWindow.inbound_ st)) as [[devices2 r] inbound'].
    cbn [fst] in Hq.
    assert (Hq1 : emits <$> devices2 = emits <$> TviewMainWindow.devices_ st).
    { rewrite Hq, list_fmap_insert. apply list_insert_id.
      now rewrite list_lookup_fmap, Hi. }
    destruct r as [this_data_read|]; cbn [TviewMainWindow.devices_];
      rewrite (list_fmap_alter emits _ (fun q => q))
        by (apply Forall_forall; intros x _; reflexivity);
      rewrite list_alter_id by reflexivity; exact Hq1.
Qed.

Lemma fold_poll_emits (idx : list nat) :
  forall st : TviewMainWindow.polling,
    emits <$> TviewMainWindow.devices_
                (fold_left TviewMainWindow.poll_one idx st)
    = emits <$> TviewMainWindow.devices_ st.
Proof.
  induction idx as [|j idx IH]; intros st; [reflexivity|].
  cbn [fold_left]. now rewrite IH, poll_one_emits.
Qed.

(** The first loop counts one emission for every device with bytes queued. *)
Lemma emit_all_emits (devices : list Device.t) :
  emits <$> fst (TviewMainWindow.emit_all devices)
  = (fun d => emits d + (if len (queue d) =? 0 then 0 else 1)) <$> devices.
Proof.
  induction devices as [|d devices IH]; [reflexivity|].
  cbn [TviewMainWindow.emit_all].
  unfold Device.emit_any_writes, DeviceStream.maybe_emit_one.
  destruct (TviewMainWindow.emit_all devices) as [rest' sent'].
  cbn [fst] in IH. rewrite (fmap_cons _ d devices), <- IH. unfold queue.
  destruct (len (DeviceStream._write_data (Device._stream d)) =? 0);
    cbn [fst]; rewrite fmap_cons; f_equal; unfold emits; simpl; lia.
Qed.

Lemma iteration_emits (devices : list Device.t) (inbound : list rx) :
  emits <$> fst (fst (fst (TviewMainWindow._run_transport_iteration devices
                             inbound)))
  = (fun d => emits d + (if len (queue d) =? 0 then 0 else 1)) <$> devices.
Proof.
  unfold TviewMainWindow._run_transport_iteration.
  pose proof (emit_all_emits devices) as He.
  destruct (TviewMainWindow.emit_all devices) as [devices1 written].
  cbn [fst] in He |- *. now rewrite fold_poll_emits.
Qed.

Lemma run_emits (n : nat) :
  forall (devices : list Device.t) (inbound : list rx) (i : nat)
         (d : Device.t),
    devices !! i = Some d ->
    exists d' : Device.t,
      fst (fst (TviewMainWindow._run_transport n devices inbound)) !! i
      = Some d'
      /\ emits d <= emits d'
      /\ ((0 < n)%nat -> 0 < len (queue d) -> emits d + 1 <= emits d').
Proof.
  induction n as [|n IH]; intros devices inbound i d Hd.
  - exists d. split; [exact Hd|]. split; [lia|]. lia.
  - cbn [TviewMainWindow._run_transport].
    pose proof (iteration_emits devices inbound) as He.
    destruct (TviewMainWindow._run_transport_iteration devices inbound)
      as [[[devices1 inbound1] sent1] b]. cbn [fst] in He.
    assert (Hl : (emits <$> devices1) !! i
                 = Some (emits d + (if len (queue d) =? 0 then 0 else 1)))
      by now rewrite He, list_lookup_fmap, Hd.
    rewrite list_lookup_fmap in Hl.
    destruct (devices1 !! i) as [d1|] eqn:Hd1; [|discriminate].
    injection Hl as Hl.
    destruct (IH devices1 inbound1 i d1 Hd1) as (d2 & Hd2 & Hle & _).
    destruct (TviewMainWindow._run_transport n devices1 inbound1)
      as [[devices2 inbound2] sent2]. cbn [fst] in Hd2 |- *.
    exists d2. split; [exact Hd2|].
    destruct (len (queue d) =? 0) eqn:E.
    + apply Z.eqb_eq in E. split; lia.
    + split; lia.
Qed.

(** [n] scheduling cycles, seen from the device at position [i]: one
    answer or timeout, or one turn skipped, per cycle. *)
Lemma run_answers (n : nat) :
  forall (devices : list Device.t) (inbound : list rx) (i : nat) (v : counters),
    (sched <$> devices) !! i = Some v ->
    exists answers : list bool,
      length answers = n
      /\ (sched <$> fst (fst (TviewMainWindow._run_transport n devices
                                inbound))) !! i
         = Some (fold_left backoff answers v)
      /\ (silent (num_of v) inbound -> answers = repeat false n).
Proof.
  induction n as [|n IH]; intros devices inbound i v Hv.
  - exists []. auto.
  - cbn [TviewMainWindow._run_transport].
    destruct (iteration_sched devices inbound i v Hv) as (Hsuf & a & Hv1 & Ha).
    destruct (TviewMainWindow._run_transport_iteration devices inbound)
      as [[[devices1 inbound1] sent1] b]. cbn [fst snd] in Hsuf, Hv1.
    destruct (IH devices1 inbound1 i _ Hv1) as (answers & Hlen & Hfin & Hans).
    destruct (TviewMainWindow._run_transport n devices1 inbound1)
      as [[devices2 inbound2] sent2]. cbn [fst snd] in Hfin |- *.
    exists (a :: answers). split; [simpl; now rewrite Hlen|].
    split; [exact Hfin|]. intros Hs. rewrite (Ha Hs). simpl. f_equal.
    apply Hans. rewrite num_of_backoff. now apply (silent_suffix _ _ _ Hsuf).
Qed.

(** X9: a device that calls [start] with its counters at zero, as a new device
    has them, leaves the waiting loop of [start] within fifteen scheduling
    cycles whatever the transport delivers, and not before the fifth; when
    the device never answers the loop waits for all of the first fourteen
    cycles. *)
Theorem start_waits_five_to_fifteen_cycles (devices : list Device.t)
    (i : nat) (d0 : Device.t) (inbound : list rx) (n : nat) :
  devices !! i = Some (start_write d0) ->
  Device.error_count d0 = 0 ->
  Device.poll_count d0 = 0 ->
  DeviceStream.poll_count (Device._stream d0) = 0 ->
  DeviceStream.emit_count (Device._stream d0) = 0 ->
  exists d' : Device.t,
    fst (fst (TviewMainWindow._run_transport n devices inbound)) !! i = Some d'
    /\ ((n < 5)%nat -> start_waits d' = true)
    /\ ((15 <= n)%nat -> start_waits d' = false)
    /\ (silent (Device.number d0) inbound -> (n < 15)%nat ->
        start_waits d' = true).
Proof.
  intros Hd He Hp Hk Hm.
  destruct (run_emits n devices inbound i _ Hd) as (d' & Hd' & _ & Hemit).
  assert (Hv : (sched <$> devices) !! i = Some (0, 0, Device.number d0, 0)).
  { rewrite list_lookup_fmap, Hd. unfold sched, start_write. simpl.
    now rewrite He, Hp, Hk. }
  destruct (run_answers n devices inbound i _ Hv) as (answers & Hlen & Hs & Hsil).
  rewrite list_lookup_fmap, Hd' in Hs. injection Hs as Hs.
  destruct (five_polls answers (Device.number d0)) as (Hlo & Hhi).
  rewrite Hlen in Hlo, Hhi.
  assert (Hpolls : DeviceStream.poll_count (Device._stream d')
                   = polls_of (fold_left backoff answers
                                 (0, 0, Device.number d0, 0)))
    by now rewrite <- Hs.
  exists d'. split; [exact Hd'|]. unfold start_waits. rewrite Hpolls.
  split; [|split].
  - intros Hn. specialize (Hlo Hn).
    replace (_ <? 5) with true by (symmetry; apply Z.ltb_lt; lia).
    reflexivity.
  - intros Hn. specialize (Hhi Hn).
    replace (_ <? 5) with false by (symmetry; apply Z.ltb_ge; lia).
    assert (Hq : 0 < len (queue (start_write d0))).
    { unfold queue, start_write, len. simpl. rewrite length_app. simpl. lia. }
    assert (He1 : emits (start_write d0) = 0) by exact Hm.
    specialize (Hemit ltac:(lia) Hq). unfold emits in Hemit at 2.
    replace (_ <? 1) with false by (symmetry; apply Z.ltb_ge; lia).
    reflexivity.
  - intros Hsilent Hn. rewrite (Hsil Hsilent).
    pose proof (five_polls_silent n (Device.number d0) Hn).
    replace (_ <? 5) with true by (symmetry; apply Z.ltb_lt; lia).
    reflexivity.
Qed.

End Start.

(** One new device that never answers: the fifteenth cycle sends its fifth
    poll. *)
Lemma start_waits_five_to_fifteen_cycles_witness :
  exists d' : @Device.t Example.external,
    fst (fst (TviewMainWindow._run_transport 15
                [start_write (example_device 1)] [])) !! 0%nat = Some d'
    /\ start_waits d' = false.
Proof.
  destruct (start_waits_five_to_fifteen_cycles (H := Example.external)
              [start_write (example_device 1)] 0 (example_device 1) [] 15
              eq_refl eq_refl eq_refl eq_refl eq_refl)
    as (d' & Hd' & _ & Hopen & _).
  exists d'. split; [exact Hd' | apply Hopen; lia].
Defined.

(** ** Device.run: the telemetry loop *)

(** [any([ord(x) > 127 for x in data])] *)
Definition _has_nonascii (data : string) : bool :=
  existsb (fun c => 127 <? Z.of_N (N_of_ascii c)) (list_ascii_of_string data).

(** Only the inbound buffer differs. *)
Definition kept (s s' : DeviceStream.t) : Prop :=
  s' = DeviceStream.set_read_data s (DeviceStream._read_data s').

Lemma kept_refl (s : DeviceStream.t) : kept s s.
Proof. now destruct s. Qed.

Lemma kept_set (s : DeviceStream.t) (buf : bytes) :
  kept s (DeviceStream.set_read_data s buf).
Proof. reflexivity. Qed.

Lemma kept_trans (a b c : DeviceStream.t) : kept a b -> kept b c -> kept a c.
Proof. unfold kept. intros -> ->. reflexivity. Qed.

Lemma readline_try_kept (s : DeviceStream.t) : kept s (snd (readline_try s)).
Proof.
  unfold readline_try. rewrite read_maybe_empty_line_eq.
  destruct (first_newline (DeviceStream._read_data s));
    [apply kept_set | apply kept_refl].
Qed.

Lemma readline_kept (wakes : list bytes) :
  forall s : DeviceStream.t,
    match DeviceStream.readline s wakes with
    | DeviceStream.Returned _ s' _ => kept s s'
    | DeviceStream.Suspended s' => kept s s'
    end.
Proof.
  induction wakes as [|w wakes IH]; intros s; rewrite readline_eq;
    pose proof (readline_try_kept s) as Hk;
    destruct (readline_try s) as [[l|] s1]; cbn [snd] in Hk; try exact Hk.
  specialize (IH (DeviceStream.resume s1 w)).
  assert (Hr : kept s (DeviceStream.resume s1 w))
    by (apply (kept_trans _ s1); [exact Hk | apply kept_set]).
  destruct (DeviceStream.readline (DeviceStream.resume s1 w) wakes);
    apply (kept_trans _ _ _ Hr IH).
Qed.

Lemma resynchronize_kept (wakes : list bytes) :
  forall s : DeviceStream.t,
    match DeviceStream.resynchronize s wakes with
    | DeviceStream.Returned _ s' wakes' =>
        kept s s'
        /\ (DeviceStream.pending s' wakes' < DeviceStream.pending s wakes)%nat
    | DeviceStream.Suspended s' => kept s s'
    end.
Proof.
  induction wakes as [|w wakes IH]; intros s; cbn [DeviceStream.resynchronize].
  - apply kept_refl.
  - pose proof (pending_resume s w wakes) as Hp.
    destruct (len (DeviceStream._read_data (DeviceStream.resume s w))
              =? len (DeviceStream._read_data s)).
    + split; [reflexivity|].
      unfold DeviceStream.pending in *. simpl in *. lia.
    + specialize (IH (DeviceStream.resume s w)).
      destruct (DeviceStream.resynchronize (DeviceStream.resume s w) wakes)
        as [u s' wakes'|s'].
      * destruct IH as [Hk Hlt]. split; [|lia].
        apply (kept_trans _ (DeviceStream.resume s w)); [apply kept_set|].
        exact Hk.
      * apply (kept_trans _ (DeviceStream.resume s w)); [apply kept_set|].
        exact IH.
Qed.

Lemma read_sized_block_kept (wakes : list bytes) :
  forall s : DeviceStream.t,
    match DeviceStream.read_sized_block s wakes with
    | DeviceStream.Returned _ s' wakes' =>
        kept s s'
        /\ (DeviceStream.pending s' wakes' <= DeviceStream.pending s wakes)%nat
    | DeviceStream.Suspended s' => kept s s'
    end.
Proof.
  induction wakes as [|w wakes IH]; intros s; rewrite read_sized_block_eq;
    unfold sized_block_try;
    destruct (len (DeviceStream._read_data s) >=? 5);
    try apply kept_refl;
    try (destruct (unpack_le32 (slice (DeviceStream._read_data s) 1 5)
                   >? 2 ^ 24);
         [split; [apply kept_refl | lia]|];
         destruct (len (DeviceStream._read_data s)
                   >=? 5 + unpack_le32 (slice (DeviceStream._read_data s) 1 5));
         [split; [apply kept_set|];
          unfold DeviceStream.pending, slice_from; simpl;
          rewrite length_drop; lia|]);
    try apply kept_refl.
  all: pose proof (pending_resume s w wakes) as Hp;
    specialize (IH (DeviceStream.resume s w));
    destruct (DeviceStream.read_sized_block (DeviceStream.resume s w) wakes)
      as [r s' wakes'|s'];
    [destruct IH as [Hk Hle]; split; [|lia]|];
    (apply (kept_trans _ (DeviceStream.resume s w)); [apply kept_set|]);
    assumption.
Qed.

(** A channel name as the devices send them: not empty, of printable
    ASCII characters other than the blank. *)
Definition plain_char (c : ascii) : bool :=
  let n := N_of_ascii c in ((32 <? n) && (n <? 127))%N.

Definition plain (name : string) : bool :=
  negb (String.eqb name EmptyString)
  && forallb plain_char (list_ascii_of_string name).

Lemma plain_char_spec (c : ascii) :
  plain_char c = true ->
  is_newline (byte_of_ascii c) = false
  /\ is_space (byte_of_ascii c) = false
  /\ (127 <? Z.of_N (N_of_ascii c)) = false
  /\ " "%char <> c.
Proof.
  destruct c as [[] [] [] [] [] [] [] []]; vm_compute; intros Hc;
    try discriminate Hc; repeat split; discriminate.
Qed.

Lemma encode_cons (c : ascii) (text : string) :
  Device.encode (String c text) = byte_of_ascii c :: Device.encode text.
Proof. reflexivity. Qed.

Lemma plain_bytes (name : string) :
  forallb plain_char (list_ascii_of_string name) = true ->
  forallb (fun b => negb (is_newline b)) (Device.encode name) = true
  /\ forallb (fun b => negb (is_space b)) (Device.encode name) = true
  /\ _has_nonascii name = false
  /\ split name " " = [name].
Proof.
  unfold _has_nonascii, split.
  induction name as [|c name IH]; intros Hn; [repeat split|].
  cbn [list_ascii_of_string forallb] in Hn.
  apply andb_prop in Hn as [Hc Hn].
  destruct (plain_char_spec c Hc) as (Hnl & Hsp & Hascii & Hblank).
  destruct (IH Hn) as (IH1 & IH2 & IH3 & IH4).
  rewrite encode_cons. cbn [forallb list_ascii_of_string existsb].
  rewrite Hnl, Hsp, Hascii, IH1, IH2, IH3.
  repeat split.
  cbn [split_aux String.prefix].
  destruct (ascii_dec " " c) as [E | E]; [contradiction|].
  now rewrite IH4.
Qed.

Lemma rstrip_plain (data : bytes) :
  forallb (fun b => negb (is_space b)) data = true -> rstrip data = data.
Proof.
  induction data as [|b data IH]; intros Hd; [reflexivity|].
  cbn [forallb] in Hd. apply andb_prop in Hd as [Hb Hd].
  apply negb_true_iff in Hb. cbn [rstrip]. rewrite (IH Hd), Hb.
  now destruct data.
Qed.

Lemma rstrip_app_plain (front data : bytes) :
  rstrip data = data -> data <> [] -> rstrip (front ++ data) = front ++ data.
Proof.
  intros Hd Hne. induction front as [|b front IH]; [exact Hd|].
  cbn [app rstrip]. rewrite IH.
  destruct (front ++ data) eqn:E; [|reflexivity].
  apply app_eq_nil in E as [_ E]. contradiction.
Qed.

(** The line [emit <name>] of a plain name, as [readline] and [run] see
    it. *)
Lemma emit_line (name : string) :
  plain name = true ->
  forallb (fun b => negb (is_newline b))
    (Device.encode ("emit " +:+ name)) = true
  /\ rstrip (Device.encode ("emit " +:+ name))
     = Device.encode ("emit " +:+ name)
  /\ nonempty (Device.encode ("emit " +:+ name)) = true
  /\ _has_nonascii ("emit " +:+ name) = false
  /\ startswith ("emit " +:+ name) "emit " = true
  /\ split ("emit " +:+ name) " " = ["emit"%string; name].
Proof.
  unfold plain. intros Hp. apply andb_prop in Hp as [Hne Hp].
  destruct (plain_bytes name Hp) as (Hnl & Hsp & Hascii & Hsplit).
  assert (Hnonempty : Device.encode name <> []).
  { destruct name; [discriminate | rewrite encode_cons; discriminate]. }
  split; [|split; [|split; [|split; [|split]]]].
  - rewrite encode_append, forallb_app, Hnl. reflexivity.
  - rewrite encode_append.
    apply rstrip_app_plain; [now apply rstrip_plain | exact Hnonempty].
  - reflexivity.
  - unfold _has_nonascii in *.
    change ("emit " +:+ name)
      with (String "e" (String "m" (String "i" (String "t"
              (String " " name))))).
    cbn [list_ascii_of_string existsb]. rewrite Hascii. reflexivity.
  - apply prefix_append.
  - unfold split in *.
    change ("emit " +:+ name)
      with (String "e" (String "m" (String "i" (String "t"
              (String " " name))))).
    cbn [split_aux String.prefix String.length Nat.sub].
    destruct (ascii_dec " " "e"); [discriminate|].
    destruct (ascii_dec " " "m"); [discriminate|].
    destruct (ascii_dec " " "i"); [discriminate|].
    destruct (ascii_dec " " "t"); [discriminate|].
    destruct (ascii_dec " " " "); [|congruence].
    destruct name as [|c name]; [discriminate|].
    cbn [String.prefix]. now rewrite Hsplit.
Qed.

(** What one notification brings when the device sends one sample alone:
    the line [emit <name>], CR, LF, the four bytes of the length, and the
    block. *)
Record telemetry_frame : Type := mk_telemetry_frame {
  frame_channel : string;
  frame_length : bytes;
  frame_block : bytes
}.

Definition frame_bytes (f : telemetry_frame) : bytes :=
  Device.encode ("emit " +:+ frame_channel f)
  ++ [x0d; x0a] ++ frame_length f ++ frame_block f.

Definition frame_ok (f : telemetry_frame) : Prop :=
  plain (frame_channel f) = true
  /\ length (frame_length f) = 4%nat
  /\ unpack_le32 (frame_length f) = len (frame_block f)
  /\ 0 < len (frame_block f) <= 2 ^ 24.

Section Run.
Context `{External}.

(** What one turn of the loop of [run] comes to: the next turn, or the
    coroutine left waiting for data. *)
Inductive turn : Type :=
  | Again (d : Device.t) (wakes : list bytes)
  | Asleep (d : Device.t).

(** One turn.  An exception of [do_data], or of the indexing of the split
    line, is caught by [except Exception]; the text it prints is left
    out, as is the console text of [Device.readline]. *)
Definition run_turn (d : Device.t) (wakes : list bytes) : turn :=
  match DeviceStream.readline (Device._stream d) wakes with
  | DeviceStream.Suspended s => Asleep (Device.set_stream d s)
  | DeviceStream.Returned l s wakes1 =>
      let line := Device.decode l in
      let d1 := Device.set_stream d s in
      let resynchronized :=
        if _has_nonascii line then
          match DeviceStream.resynchronize (Device._stream d1) wakes1 with
          | DeviceStream.Returned _ s2 wakes2 =>
              Again (Device.set_stream d1 s2) wakes2
          | DeviceStream.Suspended s2 => Asleep (Device.set_stream d1 s2)
          end
        else Again d1 wakes1 in
      match resynchronized with
      | Asleep d2 => Asleep d2
      | Again d2 wakes2 =>
          if startswith line "emit " then
            match split line " " with
            | _ :: name :: _ =>
                match Device.do_data d2 name wakes2 with
                | Device.Returned _ d3 wakes3 => Again d3 wakes3
                | Device.Raised _ d3 wakes3 => Again d3 wakes3
                | Device.Suspended d3 => Asleep d3
                end
            | _ => Again d2 wakes2
            end
          else Again d2 wakes2
      end
  end.

(** At most [n] turns of [while True]; [None] when they are all taken. *)
Fixpoint run (n : nat) (d : Device.t) (wakes : list bytes)
  : option Device.t :=
  match n with
  | O => None
  | S n' =>
      match run_turn d wakes with
      | Asleep d' => Some d'
      | Again d' wakes' => run n' d' wakes'
      end
  end.

(** What [run] leaves alone: the scheduling counters, the number, all of
    the stream but its inbound buffer, and the names of the telemetry
    records. *)
Definition steady (d d' : Device.t) : Prop :=
  Device.error_count d' = Device.error_count d
  /\ Device.poll_count d' = Device.poll_count d
  /\ Device.number d' = Device.number d
  /\ kept (Device._stream d) (Device._stream d')
  /\ forall name : string,
       is_Some (Device._telemetry_records d' !! name)
       <-> is_Some (Device._telemetry_records d !! name).

Lemma steady_refl (d : Device.t) : steady d d.
Proof. repeat split; auto using kept_refl. Qed.

Lemma steady_trans (a b c : Device.t) : steady a b -> steady b c -> steady a c.
Proof.
  intros (He & Hp & Hn & Hk & Hr) (He' & Hp' & Hn' & Hk' & Hr').
  repeat split; try congruence.
  - exact (kept_trans _ _ _ Hk Hk').
  - intros Hx. apply Hr, Hr', Hx.
  - intros Hx. apply Hr', Hr, Hx.
Qed.

Lemma steady_stream (d : Device.t) (s : DeviceStream.t) :
  kept (Device._stream d) s -> steady d (Device.set_stream d s).
Proof. intros Hk. repeat split; auto. Qed.

Definition left (d : Device.t) (wakes : list bytes) : nat :=
  DeviceStream.pending (Device._stream d) wakes.

Lemma do_data_steady (d : Device.t) (name : string) (wakes : list bytes) :
  match Device.do_data d name wakes with
  | Device.Returned _ d' wakes' =>
      steady d d' /\ (left d' wakes' <= left d wakes)%nat
  | Device.Raised _ d' wakes' =>
      steady d d' /\ (left d' wakes' <= left d wakes)%nat
  | Device.Suspended d' => steady d d'
  end.
Proof.
  unfold Device.do_data, Device.read_sized_block.
  pose proof (read_sized_block_kept wakes (Device._stream d)) as Hk.
  destruct (DeviceStream.read_sized_block (Device._stream d) wakes)
    as [data s wakes1|s]; [|now apply steady_stream].
  destruct Hk as [Hk Hle].
  pose proof (steady_stream d s Hk) as Hs.
  destruct (Device.falsy data); [now split|].
  cbn [Device._telemetry_records Device.set_stream].
  destruct (Device._telemetry_records d !! name) as [record|] eqn:Hrec;
    [|now split].
  destruct (archive_read _ _) as [struct|]; [|now split].
  destruct (Record.update record struct) as [[record1 calls] r].
  assert (Hs2 : steady d
                  (Device.set_telemetry_records (Device.set_stream d s)
                     (<[name := record1]> (Device._telemetry_records d)))).
  { repeat split; auto; cbn [Device._telemetry_records
                               Device.set_telemetry_records];
      destruct (decide (name = name0)) as [<- | Hne];
      rewrite ?lookup_insert_eq, ?lookup_insert_ne by assumption;
      rewrite ?Hrec; eauto. }
  destruct r; now split.
Qed.

Lemma run_turn_steady (d : Device.t) (wakes : list bytes) :
  match run_turn d wakes with
  | Again d' wakes' => steady d d' /\ (left d' wakes' < left d wakes)%nat
  | Asleep d' => steady d d'
  end.
Proof.
  unfold run_turn.
  pose proof (readline_kept wakes (Device._stream d)) as Hk.
  pose proof (readline_sound wakes (Device._stream d)) as Hsound.
  destruct (DeviceStream.readline (Device._stream d) wakes)
    as [l s wakes1|s]; [|now apply steady_stream].
  destruct (Hsound l s wakes1 eq_refl) as (_ & _ & Hlt).
  pose proof (steady_stream d s Hk) as Hs1.
  set (d1 := Device.set_stream d s) in *.
  assert (Hl1 : (left d1 wakes1 < left d wakes)%nat) by exact Hlt.
  assert (Hres :
            match
              (if _has_nonascii (Device.decode l) then
                 match DeviceStream.resynchronize (Device._stream d1) wakes1
                 with
                 | DeviceStream.Returned _ s2 wakes2 =>
                     Again (Device.set_stream d1 s2) wakes2
                 | DeviceStream.Suspended s2 =>
                     Asleep (Device.set_stream d1 s2)
                 end
               else Again d1 wakes1)
            with
            | Again d2 wakes2 =>
                steady d d2 /\ (left d2 wakes2 < left d wakes)%nat
            | Asleep d2 => steady d d2
            end).
  { destruct (_has_nonascii (Device.decode l)); [|now split].
    pose proof (resynchronize_kept wakes1 (Device._stream d1)) as Hr.
    destruct (DeviceStream.resynchronize (Device._stream d1) wakes1)
      as [u s2 wakes2|s2].
    - destruct Hr as [Hr Hlt2]. split.
      + apply (steady_trans _ d1); [exact Hs1 | now apply steady_stream].
      + unfold left in *. cbn [Device._stream Device.set_stream] in *. lia.
    - apply (steady_trans _ d1); [exact Hs1 | now apply steady_stream]. }
  destruct (if _has_nonascii (Device.decode l) then _ else _)
    as [d2 wakes2|d2]; [|exact Hres].
  destruct Hres as [Hs2 Hl2].
  destruct (startswith (Device.decode l) "emit "); [|now split].
  destruct (split (Device.decode l) " ") as [|x [|name rest]];
    [now split | now split|].
  pose proof (do_data_steady d2 name wakes2) as Hd.
  destruct (Device.do_data d2 name wakes2) as [u d3 wakes3|e d3 wakes3|d3].
  - destruct Hd as [Hs3 Hl3]. split; [|lia].
    exact (steady_trans _ _ _ Hs2 Hs3).
  - destruct Hd as [Hs3 Hl3]. split; [|lia].
    exact (steady_trans _ _ _ Hs2 Hs3).
  - exact (steady_trans _ _ _ Hs2 Hd).
Qed.

Lemma run_enough (n : nat) :
  forall (d : Device.t) (wakes : list bytes),
    (left d wakes < n)%nat ->
    exists d' : Device.t,
      steady d d'
      /\ forall m : nat, (left d wakes < m)%nat -> run m d wakes = Some d'.
Proof.
  induction n as [|n IH]; intros d wakes Hn; [lia|].
  pose proof (run_turn_steady d wakes) as Ht.
  destruct (run_turn d wakes) as [d1 wakes1|d1] eqn:E.
  - destruct Ht as [Hs Hlt].
    destruct (IH d1 wakes1 ltac:(lia)) as (d' & Hs' & Hrun).
    exists d'. split; [exact (steady_trans _ _ _ Hs Hs')|].
    intros m Hm. destruct m as [|m]; [lia|].
    cbn [run]. rewrite E. apply Hrun. lia.
  - exists d1. split; [exact Ht|].
    intros m Hm. destruct m as [|m]; [lia|]. cbn [run]. now rewrite E.
Qed.

(** What [do_data] makes of the block of a frame: the record of the
    channel takes the decoded sample; an unknown channel and a block that
    the decoder refuses change nothing. *)
Definition deliver (records : gmap string Record.t) (f : telemetry_frame)
  : gmap string Record.t :=
  match records !! frame_channel f with
  | Some record =>
      match archive_read (Record.archive_ record) (frame_block f) with
      | Some struct =>
          <[frame_channel f := fst (fst (Record.update record struct))]>
            records
      | None => records
      end
  | None => records
  end.

Lemma run_turn_frame (d : Device.t) (f : telemetry_frame)
    (wakes : list bytes) :
  DeviceStream._read_data (Device._stream d) = [] ->
  frame_ok f ->
  exists d' : Device.t,
    run_turn d (frame_bytes f :: wakes) = Again d' wakes
    /\ Device._telemetry_records d' = deliver (Device._telemetry_records d) f
    /\ DeviceStream._read_data (Device._stream d') = [].
Proof.
  intros Hempty (Hplain & Hlen & Hsize & Hpos & Hcap).
  destruct (emit_line _ Hplain)
    as (Hnl & Hstrip & Hne & Hascii & Hstart & Hsplit).
  destruct f as [name hdr block]. cbn [frame_channel frame_length frame_block]
    in *.
  destruct hdr as [|b1 [|b2 [|b3 [|b4 [|b5 hdr]]]]]; try discriminate Hlen.
  unfold run_turn, frame_bytes.
  cbn [frame_channel frame_length frame_block].
  rewrite readline_eq, readline_try_none by (rewrite Hempty; reflexivity).
  assert (Hbuf : DeviceStream._read_data
                   (DeviceStream.resume (Device._stream d)
                      (Device.encode ("emit " +:+ name)
                       ++ [x0d; x0a] ++ [b1; b2; b3; b4] ++ block))
                 = Device.encode ("emit " +:+ name)
                   ++ x0d :: x0a :: b1 :: b2 :: b3 :: b4 :: block ++ []).
  { cbn [DeviceStream.resume DeviceStream._read_data
         DeviceStream.set_read_data].
    rewrite Hempty, app_nil_r. reflexivity. }
  rewrite readline_eq,
    (readline_try_split _ _ _ _ Hbuf Hnl eq_refl), Hstrip, Hne.
  rewrite decode_encode, Hascii, Hstart, Hsplit.
  unfold Device.do_data, Device.read_sized_block.
  cbn [Device._stream Device.set_stream].
  rewrite (read_sized_block_buffered _ x0a b1 b2 b3 b4 block [] wakes Hsize
             Hcap).
  assert (Hfalsy : Device.falsy (Some block) = false).
  { destruct block; [unfold len in Hpos; simpl in Hpos; lia | reflexivity]. }
  rewrite Hfalsy. unfold deliver.
  cbn [Device._telemetry_records Device.set_stream frame_channel
       frame_block].
  destruct (Device._telemetry_records d !! name) as [record|];
    [|eexists; split; [reflexivity|]; split; reflexivity].
  destruct (archive_read (Record.archive_ record) block) as [struct|];
    [|eexists; split; [reflexivity|]; split; reflexivity].
  destruct (Record.update record struct) as [[record1 calls] r].
  destruct r; eexists; (split; [reflexivity|]); split; reflexivity.
Qed.

Lemma run_frames (frames : list telemetry_frame) :
  forall d : Device.t,
    DeviceStream._read_data (Device._stream d) = [] ->
    Forall frame_ok frames ->
    exists d' : Device.t,
      (forall n : nat,
          (length frames < n)%nat ->
          run n d (frame_bytes <$> frames) = Some d')
      /\ Device._telemetry_records d'
         = fold_left deliver frames (Device._telemetry_records d)
      /\ DeviceStream._read_data (Device._stream d') = [].
Proof.
  induction frames as [|f frames IH]; intros d Hempty Hok.
  - exists (Device.set_stream d (Device._stream d)).
    split; [|split; [reflexivity | exact Hempty]].
    intros n Hn. destruct n as [|n]; [simpl in Hn; lia|].
    cbn [run fmap list_fmap]. unfold run_turn.
    rewrite readline_eq, readline_try_none by (rewrite Hempty; reflexivity).
    reflexivity.
  - apply Forall_cons in Hok as [Hf Hok].
    destruct (run_turn_frame d f (frame_bytes <$> frames) Hempty Hf)
      as (d1 & Hturn & Hrec1 & Hempty1).
    destruct (IH d1 Hempty1 Hok) as (d' & Hrun & Hrec & Hempty').
    exists d'. split; [|split; [|exact Hempty']].
    + intros n Hn. destruct n as [|n]; [simpl in Hn; lia|].
      cbn [run fmap list_fmap]. rewrite Hturn. apply Hrun.
      cbn [length] in Hn. lia.
    + cbn [fold_left]. now rewrite Hrec, Hrec1.
Qed.

(** X10: [run] neither returns nor raises: whatever the device sends, in
    however many pieces, after at most one turn per byte or notification
    received the loop is suspended, waiting for a notification, an exception
    of [do_data] being caught.  By then nothing of the device has changed
    but the inbound buffer and the contents of the telemetry records: the
    scheduling counters, the number, the outbound queue and the names of
    the records are as they were.  When every notification brings one
    sample alone (the line [emit <name>] of a plain name, CR, LF, the four
    bytes of the length and a block of that length, not empty and of at most
    2^24 bytes), the loop takes one turn per sample and hands the blocks to
    the records of their channels in the order received: the record of a
    known channel is updated with the decoded sample, samples of unknown
    channels and blocks that the decoder refuses are dropped, and the
    buffer is empty afterwards. *)
Theorem run_only_ever_waits (d : Device.t) (wakes : list bytes) :
  (exists d' : Device.t,
      (forall n : nat,
          (DeviceStream.pending (Device._stream d) wakes < n)%nat ->
          run n d wakes = Some d')
      /\ Device.error_count d' = Device.error_count d
      /\ Device.poll_count d' = Device.poll_count d
      /\ Device.number d' = Device.number d
      /\ Device._stream d'
         = DeviceStream.set_read_data (Device._stream d)
             (DeviceStream._read_data (Device._stream d'))
      /\ forall name : string,
           is_Some (Device._telemetry_records d' !! name)
           <-> is_Some (Device._telemetry_records d !! name))
  /\ (forall frames : list telemetry_frame,
         DeviceStream._read_data (Device._stream d) = [] ->
         Forall frame_ok frames ->
         exists d' : Device.t,
           (forall n : nat,
               (length frames < n)%nat ->
               run n d (frame_bytes <$> frames) = Some d')
           /\ Device._telemetry_records d'
              = fold_left deliver frames (Device._telemetry_records d)
           /\ DeviceStream._read_data (Device._stream d') = []).
Proof.
  split.
  - destruct (run_enough (S (left d wakes)) d wakes ltac:(lia))
      as (d' & Hs & Hrun).
    exists d'. split; [exact Hrun | exact Hs].
  - intros frames. apply run_frames.
Qed.

End Run.

(** One sample for the channel [x]: the line [emit x], CR, LF, the length 1
    and the block. *)
Definition example_frame : telemetry_frame :=
  mk_telemetry_frame "x" [x01; x00; x00; x00] [x07].

Lemma example_frame_ok : frame_ok example_frame.
Proof.
  unfold frame_ok. cbn. repeat split; try reflexivity.
  intros Hc. discriminate Hc.
Qed.

(** A device that knows the channel [x], with no sample yet. *)
Definition example_records : gmap string (@Record.t Example.external) :=
  {[ "x"%string := @Record.__init__ Example.external tt ]}.

Lemma run_only_ever_waits_witness :
  exists d' : @Device.t Example.external,
    run 2 (Device.set_telemetry_records (example_device 1) example_records)
      [frame_bytes example_frame]
    = Some d'
    /\ @Record.history Example.external
         <$> (Device._telemetry_records d' !! "x"%string)
       = Some [sample 7]
    /\ DeviceStream._read_data (Device._stream d') = [].
Proof.
  destruct (proj2 (run_only_ever_waits (H := Example.external)
                     (Device.set_telemetry_records (example_device 1)
                        example_records) [])
              [example_frame] eq_refl
              (Forall_cons_2 _ _ _ example_frame_ok (Forall_nil_2 _)))
    as (d' & Hrun & Hrec & Hempty).
  exists d'. split; [apply (Hrun 2%nat); simpl; lia|].
  split; [|exact Hempty].
  rewrite Hrec. vm_compute. reflexivity.
Defined.

(** ** TviewMainWindow._run_transport: no device is left out for good *)

(** The backoff never exceeds its cap. *)
Definition bounded (v : counters) : Prop :=
  let '(e, p, _, _) := v in 0 <= p <= e /\ e <= 1000.

Definition wait_of (v : counters) : Z := snd (fst (fst v)).

Lemma bounded_step (v : counters) (answered : bool) :
  bounded v -> bounded (backoff v answered).
Proof.
  destruct v as [[[e p] num] polls]. unfold bounded, backoff.
  destruct (Z.eqb_spec p 0) as [E | E]; cbn [negb];
    [destruct answered|]; lia.
Qed.

Lemma polled_again (answers : list bool) :
  forall v : counters,
    bounded v ->
    bounded (fold_left backoff answers v)
    /\ (wait_of v < Z.of_nat (length answers) ->
        polls_of v + 1 <= polls_of (fold_left backoff answers v)).
Proof.
  induction answers as [|a answers IH]; intros v Hv.
  - split; [exact Hv|]. destruct v as [[[e p] num] polls].
    unfold bounded, wait_of in *. simpl. lia.
  - cbn [fold_left length].
    destruct (IH (backoff v a) (bounded_step v a Hv)) as (Hb & Hnext).
    split; [exact Hb|]. intros Hw.
    destruct (owed_fold answers (backoff v a)) as (_ & _ & Hmono).
    { destruct v as [[[e p] num] polls]. unfold bounded in Hv.
      apply paced_step. unfold paced. lia. }
    destruct v as [[[e p] num] polls]. unfold bounded in Hv.
    unfold wait_of in Hw. cbn [fst snd] in Hw.
    unfold backoff in Hnext, Hmono |- *.
    destruct (Z.eqb_spec p 0) as [E | E]; cbn [negb] in Hnext, Hmono |- *.
    + destruct a; cbn [polls_of snd] in Hmono |- *; lia.
    + cbn [polls_of snd wait_of fst] in Hnext |- *. apply Hnext. lia.
Qed.

Section Fairness.
Context `{External}.

(** X11: whatever the transport delivers, the backoff of a device stays within
    its cap, [0 <= poll_count <= error_count <= 1000], and the device is
    polled again as soon as [poll_count] cycles have passed: at the latest
    in the 1001st cycle, however often it has failed to answer. *)
Theorem no_device_is_starved (devices : list Device.t) (i : nat)
    (d : Device.t) (inbound : list rx) (n : nat) :
  devices !! i = Some d ->
  0 <= Device.poll_count d <= Device.error_count d ->
  Device.error_count d <= 1000 ->
  exists d' : Device.t,
    fst (fst (TviewMainWindow._run_transport n devices inbound)) !! i = Some d'
    /\ 0 <= Device.poll_count d' <= Device.error_count d'
    /\ Device.error_count d' <= 1000
    /\ polls d <= polls d' <= polls d + Z.of_nat n
    /\ (Device.poll_count d < Z.of_nat n -> polls d + 1 <= polls d').
Proof.
  intros Hd Hp He.
  assert (Hv : (sched <$> devices) !! i = Some (sched d))
    by now rewrite list_lookup_fmap, Hd.
  destruct (run_answers n devices inbound i _ Hv) as (answers & Hlen & Hs & _).
  rewrite list_lookup_fmap in Hs.
  destruct (fst (fst (TviewMainWindow._run_transport n devices inbound)) !! i)
    as [d'|]; [|discriminate].
  injection Hs as Hs. exists d'. split; [reflexivity|].
  assert (Hb : bounded (sched d)) by (unfold bounded, sched; lia).
  destruct (polled_again answers (sched d) Hb) as (Hb' & Hnext).
  destruct (owed_fold answers (sched d)) as (_ & _ & Hmono);
    [unfold paced, sched; lia|].
  rewrite <- Hs in Hb', Hnext, Hmono. rewrite Hlen in Hnext, Hmono.
  unfold bounded, sched in Hb'. unfold polls.
  cbn [polls_of wait_of sched fst snd] in Hnext, Hmono.
  destruct Hb' as [Hp' He']. split; [exact Hp'|]. split; [exact He'|].
  split; [exact Hmono | exact Hnext].
Qed.

End Fairness.

(** A new device alone on a transport that delivers nothing: polled in the
    first cycle. *)
Lemma no_device_is_starved_witness :
  exists d' : @Device.t Example.external,
    fst (fst (TviewMainWindow._run_transport 1 [example_device 1] []))
      !! 0%nat = Some d'
    /\ polls (example_device 1) + 1 <= polls d'.
Proof.
  destruct (no_device_is_starved (H := Example.external)
              [example_device 1] 0 (example_device 1) [] 1 eq_refl)
    as (d' & Hd' & _ & _ & _ & Hnext).
  - simpl. lia.
  - simpl. lia.
  - exists d'. split; [exact Hd' | apply Hnext; simpl; lia].
Defined.

(** ** _console_escape *)

Definition NUL : ascii := "000"%char.

(** ['\x00' in value] *)
Definition has_nul (value : string) : bool :=
  existsb (Ascii.eqb NUL) (list_ascii_of_string value).

(** [value.replace('\x00', '*')]: every occurrence of the one character is
    replaced. *)
Fixpoint replace_nul (value : string) : string :=
  match value with
  | EmptyString => EmptyString
  | String c rest =>
      String (if Ascii.eqb c NUL then "*"%char else c) (replace_nul rest)
  end.

Definition _console_escape (value : string) : string :=
  if has_nul value then replace_nul value else value.

Lemma replace_nul_clean (value : string) :
  has_nul (replace_nul value) = false.
Proof.
  induction value as [|c value IH]; [reflexivity|].
  unfold has_nul in *. cbn [replace_nul list_ascii_of_string existsb].
  rewrite IH. destruct (Ascii.eqb_spec c NUL) as [-> | Hne]; [reflexivity|].
  rewrite orb_false_r. apply Ascii.eqb_neq. congruence.
Qed.

Lemma replace_nul_id (value : string) :
  has_nul value = false -> replace_nul value = value.
Proof.
  induction value as [|c value IH]; [reflexivity|].
  unfold has_nul in *. cbn [replace_nul list_ascii_of_string existsb].
  intros Hn. apply orb_false_elim in Hn as [Hc Hn].
  rewrite (IH Hn). rewrite Ascii.eqb_sym in Hc. now rewrite Hc.
Qed.

Lemma replace_nul_get (value : string) :
  forall i : nat,
    String.get i (replace_nul value)
    = (fun c => if Ascii.eqb c NUL then "*"%char else c)
        <$> String.get i value.
Proof.
  induction value as [|c value IH]; intros i; [reflexivity|].
  destruct i as [|i]; [reflexivity|]. cbn [replace_nul String.get]. apply IH.
Qed.

(** X12: the text handed to the console has no NUL character: each one has
    become [*], every other character is where it was, and escaping an
    escaped text changes nothing. *)
Theorem console_escape_removes_nul (value : string) :
  has_nul (_console_escape value) = false
  /\ (forall i : nat,
         String.get i (_console_escape value)
         = (fun c => if Ascii.eqb c NUL then "*"%char else c)
             <$> String.get i value)
  /\ String.length (_console_escape value) = String.length value
  /\ _console_escape (_console_escape value) = _console_escape value.
Proof.
  assert (Hclean : has_nul (_console_escape value) = false).
  { unfold _console_escape. destruct (has_nul value) eqn:E;
      [apply replace_nul_clean | exact E]. }
  split; [exact Hclean|]. split; [|split].
  - intros i. unfold _console_escape. destruct (has_nul value) eqn:E;
      [apply replace_nul_get|].
    rewrite <- (replace_nul_id value E) at 1. apply replace_nul_get.
  - unfold _console_escape. destruct (has_nul value); [|reflexivity].
    clear Hclean. induction value as [|c value IH]; [reflexivity|].
    cbn [replace_nul String.length]. now rewrite IH.
  - unfold _console_escape at 1. now rewrite Hclean.
Qed.

(** ** Device.config_item_changed *)

(** [c in value], for one character. *)
Definition has_char (c : ascii) (value : string) : bool :=
  existsb (Ascii.eqb c) (list_ascii_of_string value).


(** [value.lstrip(chars)] *)
Fixpoint lstrip_chars (chars value : string) : string :=
  match value with
  | EmptyString => EmptyString
  | String a rest =>
      if has_char a chars then lstrip_chars chars rest else value
  end.

(** [value.rstrip(chars)] *)
Fixpoint rstrip_chars (chars value : string) : string :=
  match value with
  | EmptyString => EmptyString
  | String a rest =>
      match rstrip_chars chars rest with
      | EmptyString =>
          if has_char a chars then EmptyString else String a EmptyString
      | tail => String a tail
      end
  end.

(** [value.strip(chars)] *)
Definition strip_chars (chars value : string) : string :=
  rstrip_chars chars (lstrip_chars chars value).




Lemma has_char_app (c : ascii) (s t : string) :
  has_char c (s +:+ t) = has_char c s || has_char c t.
Proof.
  unfold has_char. induction s as [|a s IH]; [reflexivity|].
  change (String a s +:+ t) with (String a (s +:+ t)).
  cbn [list_ascii_of_string existsb]. now rewrite IH, orb_assoc.
Qed.








Section ConfigItem.
Context `{External}.



End ConfigItem.


(** ** Device.update_telemetry *)

(** The characters of latin-1 that [str.strip()] removes: those for which
    [str.isspace] holds. *)
Definition whitespace : string :=
  String "009" (String "010" (String "011" (String "012" (String "013"
  (String "028" (String "029" (String "030" (String "031" (String "032"
  (String "133" (String "160" EmptyString))))))))))).

(** [value.strip()] *)
Definition strip (value : string) : string := strip_chars whitespace value.

Definition nonblank (name : string) : bool :=
  negb (String.eqb (strip name) EmptyString).

(** Nothing but the stream differs. *)
Definition same_but_stream `{External} (d d' : Device.t) : Prop :=
  d' = Device.set_stream d (Device._stream d').

Lemma readlines_kept (n : nat) :
  forall (s0 s : DeviceStream.t) (wakes : list bytes),
    kept s0 s -> feed_forall (kept s0) (DeviceStream.readlines n s wakes).
Proof.
  induction n as [|n IH]; intros s0 s wakes Hs; [exact Hs|].
  cbn [DeviceStream.readlines].
  pose proof (readline_kept wakes s) as Hk.
  destruct (DeviceStream.readline s wakes) as [l s1 wakes1|s1];
    cbn [feed_forall].
  - pose proof (kept_trans _ _ _ Hs Hk) as H1. split; [exact H1|].
    now apply IH.
  - exact (kept_trans _ _ _ Hs Hk).
Qed.

Section UpdateTelemetry.
Context `{External}.

(** [reader.Type.from_binary(io.BytesIO(schema), name=name)] of the moteus
    library; [None] when it raises. *)
Variable from_binary : bytes -> string -> option archive.

(** The loop over the channel names.  A schema block that is [False] makes
    [io.BytesIO] raise.  The tree item and the console text are left out. *)
Fixpoint telemetry_channels (names : list string) (d : Device.t)
    (wakes : list bytes) : Device.outcome unit :=
  match names with
  | [] => Device.Returned tt d wakes
  | name :: names' =>
      if String.eqb (strip name) EmptyString
      then telemetry_channels names' d wakes
      else
        let d1 := Device.write_line d ("tel schema " +:+ name +:+ CRLF) in
        match Device.read_schema d1 name wakes with
        | Device.Suspended d2 => Device.Suspended d2
        | Device.Raised e d2 wakes2 => Device.Raised e d2 wakes2
        | Device.Returned schema d2 wakes2 =>
            match
              match schema with
              | Some block => from_binary block name
              | None => None
              end
            with
            | None => Device.Raised Exception d2 wakes2
            | Some a =>
                telemetry_channels names'
                  (Device.set_telemetry_records d2
                     (<[name := Record.__init__ a]>
                        (Device._telemetry_records d2)))
                  wakes2
            end
        end
  end.

Definition update_telemetry (d : Device.t) (wakes : list bytes)
  : Device.outcome unit :=
  let d0 := Device.set_telemetry_records d ∅ in
  match Device.command d0 "tel list" wakes with
  | Device.Suspended d1 => Device.Suspended d1
  | Device.Raised e d1 wakes1 => Device.Raised e d1 wakes1
  | Device.Returned channels d1 wakes1 =>
      telemetry_channels (split channels LF) d1 wakes1
  end.

Lemma command_rest_device (f : DeviceStream.feed) :
  forall (d : Device.t) (message result : string),
    same_but_stream d (device_of (Device.command_rest d message result f)).
Proof.
  induction f as [l s wakes next IH|s]; intros d message result;
    cbn [Device.command_rest]; [|reflexivity].
  destruct (startswith (Device.decode l) "ERR"); [reflexivity|].
  destruct (startswith (Device.decode l) "OK"); [reflexivity|]. apply IH.
Qed.

Lemma read_sized_block_device (d : Device.t) (wakes : list bytes) :
  same_but_stream d (device_of (Device.read_sized_block d wakes))
  /\ kept (Device._stream d)
       (Device._stream (device_of (Device.read_sized_block d wakes))).
Proof.
  unfold Device.read_sized_block.
  pose proof (read_sized_block_kept wakes (Device._stream d)) as Hk.
  destruct (DeviceStream.read_sized_block (Device._stream d) wakes)
    as [r s wakes'|s]; cbn [device_of]; [destruct Hk as [Hk _]|];
    (split; [reflexivity | exact Hk]).
Qed.

Lemma read_schema_loop_device (f : DeviceStream.feed) :
  forall (s0 : DeviceStream.t) (d : Device.t) (name : string),
    feed_forall (kept s0) f ->
    same_but_stream d (device_of (Device.read_schema_loop d name f))
    /\ kept s0 (Device._stream (device_of (Device.read_schema_loop d name f))).
Proof.
  induction f as [l s wakes next IH|s]; intros s0 d name Hf;
    cbn [Device.read_schema_loop feed_forall] in *.
  - destruct Hf as [Hs Hnext].
    destruct (startswith (Device.decode l) "ERR");
      [split; [reflexivity | exact Hs]|].
    destruct (negb _); [now apply IH|].
    destruct (read_sized_block_device (Device.set_stream d s) wakes)
      as [Hd Hk].
    split.
    + unfold same_but_stream in *. rewrite Hd at 1. reflexivity.
    + exact (kept_trans _ _ _ Hs Hk).
  - split; [reflexivity | exact Hf].
Qed.

(** [read_schema] and [command] change the stream only, and of the stream
    [read_schema] changes the inbound buffer only. *)
Lemma read_schema_device (d : Device.t) (name : string) (wakes : list bytes) :
  same_but_stream d (device_of (Device.read_schema d name wakes))
  /\ kept (Device._stream d)
       (Device._stream (device_of (Device.read_schema d name wakes))).
Proof.
  apply read_schema_loop_device. apply readlines_kept, kept_refl.
Qed.

Lemma command_device (d : Device.t) (message : string) (wakes : list bytes) :
  same_but_stream d (device_of (Device.command d message wakes)).
Proof.
  unfold Device.command.
  pose proof (command_rest_device
                (Device.command_first
                   (DeviceStream.lines
                      (Device._stream (Device.write_line d (message +:+ CRLF)))
                      wakes))
                (Device.write_line d (message +:+ CRLF)) message EmptyString)
    as Hd.
  unfold same_but_stream in *. rewrite Hd at 1. reflexivity.
Qed.

(** A record as [Record(archive)] makes it, from a schema block. *)
Definition fresh (name : string) (r : Record.t) : Prop :=
  Record.history r = []
  /\ Record.signals r = []
  /\ exists block : bytes, from_binary block name = Some (Record.archive_ r).

Definition tel_schema (name : string) : bytes :=
  Device.encode ("tel schema " +:+ name +:+ CRLF).

Lemma telemetry_channels_spec (names : list string) :
  forall (d : Device.t) (wakes : list bytes),
    let d' := device_of (telemetry_channels names d wakes) in
    Device.error_count d' = Device.error_count d
    /\ Device.poll_count d' = Device.poll_count d
    /\ Device.number d' = Device.number d
    /\ (forall (name : string) (r : Record.t),
           Device._telemetry_records d' !! name = Some r ->
           Device._telemetry_records d !! name = Some r \/ fresh name r)
    /\ (raises (telemetry_channels names d wakes) = false ->
        suspended (telemetry_channels names d wakes) = false ->
        (forall name : string,
            is_Some (Device._telemetry_records d' !! name)
            <-> is_Some (Device._telemetry_records d !! name)
                \/ name ∈ List.filter nonblank names)
        /\ (forall name : string,
               name ∈ List.filter nonblank names ->
               exists r : Record.t,
                 Device._telemetry_records d' !! name = Some r
                 /\ fresh name r)
        /\ queue d'
           = queue d ++ concat (tel_schema <$> List.filter nonblank names)).
Proof.
  induction names as [|name names IH]; intros d wakes.
  - cbn [telemetry_channels device_of List.filter]. cbv zeta.
    do 3 (split; [reflexivity|]). split; [intros name r Hr; now left|].
    intros _ _. split; [|split].
    + intros name. split; [intros Hs; now left|].
      intros [Hs | Hin]; [exact Hs|]. now apply elem_of_nil in Hin.
    + intros name Hin. now apply elem_of_nil in Hin.
    + cbn. now rewrite app_nil_r.
  - cbn [telemetry_channels List.filter].
    assert (Hnb : nonblank name = negb (String.eqb (strip name) EmptyString))
      by reflexivity.
    rewrite Hnb. clear Hnb.
    destruct (String.eqb (strip name) EmptyString) eqn:Hblank; cbn [negb].
    { apply IH. }
    set (d1 := Device.write_line d ("tel schema " +:+ name +:+ CRLF)).
    destruct (read_schema_device d1 name wakes) as [Hsame Hkept].
    destruct (Device.read_schema d1 name wakes) as [schema d2 wakes2
                                                   |e d2 wakes2|d2];
      cbn [device_of] in Hsame, Hkept.
    2:{ cbn [device_of raises suspended]. cbv zeta. rewrite Hsame.
        do 3 (split; [reflexivity|]). split; [intros k r Hk; now left|].
        intros Hr Hs. discriminate Hr. }
    2:{ cbn [device_of raises suspended]. cbv zeta. rewrite Hsame.
        do 3 (split; [reflexivity|]). split; [intros k r Hk; now left|].
        intros Hr Hs. discriminate Hs. }
    destruct (match schema with
              | Some block => from_binary block name
              | None => None
              end) as [a|] eqn:Hbin.
    2:{ cbn [device_of raises suspended]. cbv zeta. rewrite Hsame.
        do 3 (split; [reflexivity|]). split; [intros k r Hk; now left|].
        intros Hr Hs. discriminate Hr. }
    assert (Hfresh : fresh name (Record.__init__ a)).
    { split; [reflexivity|]. split; [reflexivity|].
      destruct schema as [block|]; [|discriminate]. now exists block. }
    set (d3 := Device.set_telemetry_records d2
                 (<[name := Record.__init__ a]>
                    (Device._telemetry_records d2))).
    assert (Hrec : Device._telemetry_records d2 = Device._telemetry_records d)
      by now rewrite Hsame.
    assert (Hq : queue d3 = queue d ++ tel_schema name).
    { unfold queue, d3. cbn [Device._stream Device.set_telemetry_records].
      unfold kept in Hkept. rewrite Hkept. reflexivity. }
    assert (Hc3 : Device.error_count d3 = Device.error_count d
                  /\ Device.poll_count d3 = Device.poll_count d
                  /\ Device.number d3 = Device.number d).
    { unfold d3. cbn [Device.error_count Device.poll_count Device.number
                        Device.set_telemetry_records].
      now rewrite Hsame. }
    destruct Hc3 as (He3 & Hp3 & Hn3).
    specialize (IH d3 wakes2). cbv zeta in IH |- *.
    destruct IH as (He & Hp & Hn & Hold & Hdone).
    split; [now rewrite He|]. split; [now rewrite Hp|].
    split; [now rewrite Hn|]. split.
    + intros k r Hk. destruct (Hold k r Hk) as [H3 | Hf]; [|now right].
      unfold d3 in H3. cbn [Device._telemetry_records
                              Device.set_telemetry_records] in H3.
      rewrite Hrec in H3.
      destruct (decide (name = k)) as [<- | Hne].
      * rewrite lookup_insert_eq in H3. injection H3 as <-. now right.
      * rewrite lookup_insert_ne in H3 by assumption. now left.
    + intros Hr Hs. destruct (Hdone Hr Hs) as (Hkeys & Hall & Hqueue).
      assert (H3 : forall k : string,
                 Device._telemetry_records d3 !! k
                 = if decide (name = k) then Some (Record.__init__ a)
                   else Device._telemetry_records d !! k).
      { intros k. unfold d3. cbn [Device._telemetry_records
                                    Device.set_telemetry_records].
        rewrite Hrec. destruct (decide (name = k)) as [<- | Hne].
        - now rewrite lookup_insert_eq.
        - now rewrite lookup_insert_ne. }
      split; [|split].
      * intros k. rewrite Hkeys, H3, elem_of_cons.
        destruct (decide (name = k)) as [<- | Hne].
        -- split; [intros _; right; now left | intros _; left; eauto].
        -- split; [intros [Hk | Hk]; auto | intros [Hk | [Hk | Hk]]; auto].
           congruence.
      * intros k Hin.
        destruct (decide (k ∈ List.filter nonblank names)) as [Hk | Hk];
          [now apply Hall|].
        apply elem_of_cons in Hin as [-> | Hin]; [|contradiction].
        assert (Hsome : is_Some (Device._telemetry_records
                                   (device_of (telemetry_channels names d3
                                                 wakes2)) !! name)).
        { apply Hkeys. left. rewrite H3, decide_True by reflexivity. eauto. }
        destruct Hsome as [r Hr']. exists r. split; [exact Hr'|].
        destruct (Hold name r Hr') as [Hin3 | Hf]; [|exact Hf].
        rewrite H3, decide_True in Hin3 by reflexivity.
        injection Hin3 as <-. exact Hfresh.
      * rewrite Hqueue, Hq. cbn [fmap list_fmap concat].
        now rewrite app_assoc.
Qed.

(** The schema blocks that the calls of [read_schema] in the loop return,
    channel after channel, each call made after the line that the loop
    writes for it. *)
Fixpoint schema_blocks (names : list string) (d : Device.t)
    (wakes : list bytes) : list (string * bytes) :=
  match names with
  | [] => []
  | name :: names' =>
      if String.eqb (strip name) EmptyString
      then schema_blocks names' d wakes
      else
        match
          Device.read_schema
            (Device.write_line d ("tel schema " +:+ name +:+ CRLF)) name wakes
        with
        | Device.Returned (Some block) d2 wakes2 =>
            (name, block) :: schema_blocks names' d2 wakes2
        | _ => []
        end
  end.

(** [Record(archive)] for the archive of the block, stored under the name. *)
Definition register (records : gmap string Record.t)
    (received : string * bytes) : gmap string Record.t :=
  match from_binary (snd received) (fst received) with
  | Some a => <[fst received := Record.__init__ a]> records
  | None => records
  end.

Definition with_records {A : Type} (records : gmap string Record.t)
    (o : Device.outcome A) : Device.outcome A :=
  match o with
  | Device.Returned a d wakes =>
      Device.Returned a (Device.set_telemetry_records d records) wakes
  | Device.Raised e d wakes =>
      Device.Raised e (Device.set_telemetry_records d records) wakes
  | Device.Suspended d =>
      Device.Suspended (Device.set_telemetry_records d records)
  end.

Lemma read_schema_loop_records (f : DeviceStream.feed) :
  forall (d : Device.t) (name : string) (records : gmap string Record.t),
    Device.read_schema_loop (Device.set_telemetry_records d records) name f
    = with_records records (Device.read_schema_loop d name f).
Proof.
  induction f as [l s wakes next IH|s]; intros d name records;
    cbn [Device.read_schema_loop]; [|reflexivity].
  destruct (startswith (Device.decode l) "ERR"); [reflexivity|].
  destruct (negb _); [apply IH|].
  unfold Device.read_sized_block. cbn [Device._stream Device.set_stream].
  now destruct (DeviceStream.read_sized_block s wakes).
Qed.

(** The records play no part in [read_schema]. *)
Lemma read_schema_records (d : Device.t) (name : string)
    (wakes : list bytes) (records : gmap string Record.t) :
  Device.read_schema (Device.set_telemetry_records d records) name wakes
  = with_records records (Device.read_schema d name wakes).
Proof. unfold Device.read_schema. apply read_schema_loop_records. Qed.

Lemma telemetry_channels_blocks (names : list string) :
  forall (d0 : Device.t) (records : gmap string Record.t)
         (wakes : list bytes) (d' : Device.t) (wakes' : list bytes),
    telemetry_channels names (Device.set_telemetry_records d0 records) wakes
    = Device.Returned tt d' wakes' ->
    Device._telemetry_records d'
    = fold_left register (schema_blocks names d0 wakes) records
    /\ fst <$> schema_blocks names d0 wakes = List.filter nonblank names
    /\ Forall (fun received =>
                 is_Some (from_binary (snd received) (fst received)))
         (schema_blocks names d0 wakes).
Proof.
  induction names as [|name names IH]; intros d0 records wakes d' wakes' Hret.
  - cbn [telemetry_channels schema_blocks] in *. injection Hret as <- _.
    split; [reflexivity|]. split; [reflexivity | constructor].
  - cbn [telemetry_channels schema_blocks List.filter] in *.
    assert (Hnb : nonblank name = negb (String.eqb (strip name) EmptyString))
      by reflexivity.
    rewrite Hnb. clear Hnb.
    destruct (String.eqb (strip name) EmptyString); cbn [negb].
    { exact (IH _ _ _ _ _ Hret). }
    change (Device.write_line (Device.set_telemetry_records d0 records)
              ("tel schema " +:+ name +:+ CRLF))
      with (Device.set_telemetry_records
              (Device.write_line d0 ("tel schema " +:+ name +:+ CRLF))
              records) in Hret.
    rewrite read_schema_records in Hret.
    destruct (Device.read_schema
                (Device.write_line d0 ("tel schema " +:+ name +:+ CRLF))
                name wakes) as [schema d2 wakes2|e d2 wakes2|d2];
      cbn [with_records] in Hret; try discriminate.
    destruct schema as [block|]; [|discriminate].
    destruct (from_binary block name) as [a|] eqn:Hbin; [|discriminate].
    cbn [Device._telemetry_records Device.set_telemetry_records] in Hret.
    change (Device.set_telemetry_records
              (Device.set_telemetry_records d2 records)
              (<[name := Record.__init__ a]> records))
      with (Device.set_telemetry_records d2
              (<[name := Record.__init__ a]> records)) in Hret.
    destruct (IH _ _ _ _ _ Hret) as (Hrec & Hnames & Hall).
    split; [|split].
    + rewrite Hrec. cbn [fold_left]. f_equal. unfold register.
      cbn [fst snd]. now rewrite Hbin.
    + cbn [fmap list_fmap fst]. now rewrite <- Hnames.
    + constructor; [cbn [fst snd]; rewrite Hbin; eauto | exact Hall].
Qed.

(** X14: when [update_telemetry] returns, the telemetry records are exactly
    the channels that the device listed in its reply to [tel list], blank
    lines left out: [read_schema] has returned a block for each of them in
    turn, and the record of a channel is a new one, with no history and no
    signal, whose archive is decoded from the block that [read_schema]
    returned for that channel (the last such block when a name is listed
    twice); no earlier record is left.  The device was sent [tel list] and
    then one [tel schema] for every channel, in the order listed, and its
    scheduling counters and number are unchanged. *)
Theorem update_telemetry_registers_listed_channels (d : Device.t)
    (wakes : list bytes) (d' : Device.t) (wakes' : list bytes) :
  update_telemetry d wakes = Device.Returned tt d' wakes' ->
  exists (channels : string) (d1 : Device.t) (wakes1 : list bytes),
    Device.command (Device.set_telemetry_records d ∅) "tel list" wakes
    = Device.Returned channels d1 wakes1
    /\ fst <$> schema_blocks (split channels LF) d1 wakes1
       = List.filter nonblank (split channels LF)
    /\ Forall (fun received =>
                 is_Some (from_binary (snd received) (fst received)))
         (schema_blocks (split channels LF) d1 wakes1)
    /\ Device._telemetry_records d'
       = fold_left register (schema_blocks (split channels LF) d1 wakes1) ∅
    /\ (forall name : string,
           is_Some (Device._telemetry_records d' !! name)
           <-> name ∈ List.filter nonblank (split channels LF))
    /\ (forall (name : string) (r : Record.t),
           Device._telemetry_records d' !! name = Some r -> fresh name r)
    /\ queue d'
       = queue d
         ++ Device.encode ("tel list" +:+ CRLF)
         ++ concat (tel_schema <$> List.filter nonblank (split channels LF))
    /\ Device.error_count d' = Device.error_count d
    /\ Device.poll_count d' = Device.poll_count d
    /\ Device.number d' = Device.number d.
Proof.
  unfold update_telemetry. intros Hret.
  set (d0 := Device.set_telemetry_records d ∅) in *.
  pose proof (command_device d0 "tel list" wakes) as Hsame.
  pose proof (proj1 (command_spec d0 "tel list" wakes)) as Hq.
  destruct (Device.command d0 "tel list" wakes)
    as [channels d1 wakes1|e d1 wakes1|d1]; try discriminate.
  cbn [device_of] in Hsame, Hq.
  exists channels, d1, wakes1. split; [reflexivity|].
  pose proof (telemetry_channels_spec (split channels LF) d1 wakes1) as Hspec.
  rewrite Hret in Hspec. cbn [device_of raises suspended] in Hspec.
  cbv zeta in Hspec. destruct Hspec as (He & Hp & Hn & Hold & Hdone).
  destruct (Hdone eq_refl eq_refl) as (Hkeys & _ & Hqueue).
  assert (Hempty : Device._telemetry_records d1 = ∅) by now rewrite Hsame.
  assert (Hd1 : d1 = Device.set_telemetry_records d1 ∅).
  { rewrite <- Hempty. now destruct d1. }
  rewrite Hd1 in Hret.
  destruct (telemetry_channels_blocks _ _ _ _ _ _ Hret)
    as (Hrec & Hnames & Hall).
  split; [exact Hnames|]. split; [exact Hall|]. split; [exact Hrec|].
  split; [|split; [|split; [|split; [|split]]]].
  - intros name. rewrite Hkeys, Hempty, lookup_empty.
    split; [intros [[x Hx] | Hin]; [discriminate | exact Hin] | now right].
  - intros name r Hr. destruct (Hold name r Hr) as [Hin | Hf]; [|exact Hf].
    rewrite Hempty, lookup_empty in Hin. discriminate.
  - rewrite Hqueue. unfold queue at 1. rewrite Hq.
    rewrite <- app_assoc. f_equal.
  - now rewrite He, Hsame.
  - now rewrite Hp, Hsame.
  - now rewrite Hn, Hsame.
Qed.

End UpdateTelemetry.

(** The device lists the one channel [a] and then sends its schema, a block
    of one byte; each piece arrives at a wake-up of its own. *)
Definition example_listing : list bytes :=
  [[x61; x0d; x0a];
   [x4f; x4b; x0d; x0a];
   [x73; x63; x68; x65; x6d; x61; x20; x61; x0d; x0a;
    x01; x00; x00; x00; x2a]].

(** A decoder that takes the block [0x2a] and no other. *)
Definition example_from_binary (block : bytes) (name : string)
  : option unit :=
  match block with
  | [b] => if Byte.eqb b x2a then Some tt else None
  | _ => None
  end.

Lemma update_telemetry_registers_listed_channels_witness :
  exists (d' : @Device.t Example.external) (wakes' : list bytes),
    update_telemetry (H := Example.external) example_from_binary
      (example_device 1) example_listing
    = Device.Returned tt d' wakes'
    /\ forall name : string,
         is_Some (Device._telemetry_records d' !! name)
         <-> name ∈ ["a"%string].
Proof.
  assert (Hr : raises (update_telemetry (H := Example.external)
                         example_from_binary (example_device 1)
                         example_listing) = false)
    by (vm_compute; reflexivity).
  assert (Hs : suspended (update_telemetry (H := Example.external)
                            example_from_binary (example_device 1)
                            example_listing) = false)
    by (vm_compute; reflexivity).
  destruct (update_telemetry (H := Example.external)
              example_from_binary (example_device 1) example_listing)
    as [[] d' wakes'|e d' wakes'|d'] eqn:E;
    [|discriminate Hr|discriminate Hs].
  exists d', wakes'. split; [reflexivity|].
  destruct (update_telemetry_registers_listed_channels
              (H := Example.external) example_from_binary
              (example_device 1) example_listing d' wakes' E)
    as (channels & d1 & wakes1 & Hcmd & _ & _ & _ & Hkeys & _).
  apply (f_equal (fun o => match o with
                           | Device.Returned c _ _ => c
                           | _ => EmptyString
                           end)) in Hcmd.
  vm_compute in Hcmd. subst channels. exact Hkeys.
Defined.

(** ** Device.add_config_line: the configuration tree *)

(** A [QTreeWidgetItem] as [add_config_line] uses it: the texts of its two
    columns, whether [setFlags] has made it editable, and its children in
    the order they were added. *)
Inductive tree_item : Type :=
  | TreeItem (text0 text1 : string) (editable : bool)
      (children : list tree_item).

Definition text0 (item : tree_item) : string :=
  let 'TreeItem t0 _ _ _ := item in t0.

Definition text1 (item : tree_item) : string :=
  let 'TreeItem _ t1 _ _ := item in t1.

Definition editable (item : tree_item) : bool :=
  let 'TreeItem _ _ e _ := item in e.

Definition children (item : tree_item) : list tree_item :=
  let 'TreeItem _ _ _ cs := item in cs.

(** [QTreeWidgetItem(parent)] followed by [setText(0, name)], before it is
    appended to the children of [parent]. *)
Definition new_item (name : string) : tree_item :=
  TreeItem name EmptyString false [].

(** [s.split(sep, 1)] for a separator of one character: the text before
    the first [sep] and, when there is one, the text after it. *)
Fixpoint split1 (sep : ascii) (s : string) : string * option string :=
  match s with
  | EmptyString => (EmptyString, None)
  | String c rest =>
      if Ascii.eqb c sep then (EmptyString, Some rest)
      else let '(head, tail) := split1 sep rest in (String c head, tail)
  end.

(** The loop over [range(item.childCount())]: the position of the first
    child whose first text is [field]. *)
Fixpoint child_index (field : string) (cs : list tree_item) : option nat :=
  match cs with
  | [] => None
  | c :: cs' =>
      if String.eqb (text0 c) field then Some O
      else S <$> child_index field cs'
  end.

(** The inner function [add_config]; it calls itself with a shorter key,
    so [n] calls are enough for a key of fewer than [n] characters. *)
Fixpoint add_config (n : nat) (item : tree_item) (key value : string)
  : tree_item :=
  match n with
  | O => item
  | S n' =>
      let 'TreeItem t0 t1 e cs := item in
      if String.eqb key EmptyString then TreeItem t0 value true cs
      else
        let '(this_field, tail) := split1 "." key in
        let next_key :=
          match tail with
          | Some rest => rest
          | None => EmptyString
          end in
        match child_index this_field cs with
        | Some i =>
            TreeItem t0 t1 e
              (alter (fun child => add_config n' child next_key value) i cs)
        | None =>
            TreeItem t0 t1 e
              (cs ++ [add_config n' (new_item this_field) next_key value])
        end
  end.

(** The children of [_config_tree_item], and [_config_tree_items], which
    maps a name to one of them: to its position. *)
Record config_tree : Type := mk_config_tree {
  _config_tree_item : list tree_item;
  _config_tree_items : gmap string nat
}.

(** [None] is the [ValueError] of an unpacking that finds one part only. *)
Definition add_config_line (st : config_tree) (line : string)
  : option config_tree :=
  match split1 " " line with
  | (key, Some value) =>
      match split1 "." key with
      | (name, Some rest) =>
          let '(items, index, i) :=
            match _config_tree_items st !! name with
            | Some i => (_config_tree_item st, _config_tree_items st, i)
            | None =>
                (_config_tree_item st ++ [new_item name],
                 <[name := length (_config_tree_item st)]>
                   (_config_tree_items st),
                 length (_config_tree_item st))
            end in
          Some (mk_config_tree
                  (alter (fun item =>
                            add_config (S (String.length rest)) item rest
                              value)
                         i items)
                  index)
      | (_, None) => None
      end
  | (_, None) => None
  end.

(** The fields of a key in the order [add_config] takes them. *)
Fixpoint fields (n : nat) (key : string) : list string :=
  match n with
  | O => []
  | S n' =>
      if String.eqb key EmptyString then []
      else
        let '(this_field, tail) := split1 "." key in
        this_field
        :: fields n' match tail with
                     | Some rest => rest
                     | None => EmptyString
                     end
  end.

Definition config_path (key : string) : list string :=
  fields (S (String.length key)) key.

(** The item found from [item] by taking, field after field, the first
    child of that name. *)
Fixpoint lookup_path (item : tree_item) (path : list string)
  : option tree_item :=
  match path with
  | [] => Some item
  | field :: path' =>
      match child_index field (children item) with
      | Some i =>
          match children item !! i with
          | Some child => lookup_path child path'
          | None => None
          end
      | None => None
      end
  end.

Lemma split1_found (sep : ascii) (a b : string) :
  has_char sep a = false ->
  split1 sep (a +:+ String sep b) = (a, Some b).
Proof.
  induction a as [|c a IH]; intros Ha.
  - change (EmptyString +:+ String sep b) with (String sep b).
    cbn [split1]. now rewrite Ascii.eqb_refl.
  - change (String c a +:+ String sep b) with (String c (a +:+ String sep b)).
    unfold has_char in Ha. cbn [list_ascii_of_string existsb] in Ha.
    apply orb_false_elim in Ha as [Hc Ha].
    cbn [split1]. rewrite Ascii.eqb_sym, Hc. now rewrite (IH Ha).
Qed.

Lemma split1_missing (sep : ascii) (s : string) :
  has_char sep s = false -> split1 sep s = (s, None).
Proof.
  induction s as [|c s IH]; intros Hs; [reflexivity|].
  unfold has_char in Hs. cbn [list_ascii_of_string existsb] in Hs.
  apply orb_false_elim in Hs as [Hc Hs].
  cbn [split1]. rewrite Ascii.eqb_sym, Hc. now rewrite (IH Hs).
Qed.

Lemma split1_shorter (sep : ascii) (s : string) :
  match snd (split1 sep s) with
  | Some rest => (String.length rest < String.length s)%nat
  | None => True
  end.
Proof.
  induction s as [|c s IH]; [exact I|].
  cbn [split1]. destruct (Ascii.eqb c sep); [simpl; lia|].
  destruct (split1 sep s) as [head [rest|]]; cbn [snd] in *; [|exact I].
  simpl. lia.
Qed.

Lemma next_key_shorter (key : string) (n : nat) :
  key <> EmptyString ->
  (String.length key < S n)%nat ->
  (String.length match snd (split1 "." key) with
                 | Some rest => rest
                 | None => EmptyString
                 end < n)%nat.
Proof.
  intros Hne Hn. pose proof (split1_shorter "." key) as Hs.
  destruct (snd (split1 "." key)) as [rest|]; [lia|].
  destruct key; [congruence | simpl in *; lia].
Qed.

Lemma child_index_lookup (field : string) (cs : list tree_item) (i : nat) :
  child_index field cs = Some i ->
  exists c : tree_item, cs !! i = Some c /\ text0 c = field.
Proof.
  revert i. induction cs as [|c cs IH]; intros i; [discriminate|].
  cbn [child_index]. destruct (String.eqb_spec (text0 c) field) as [E | E].
  - intros [= <-]. now exists c.
  - destruct (child_index field cs) as [j|]; [|discriminate].
    intros [= <-]. destruct (IH j eq_refl) as (c' & Hc & Ht). now exists c'.
Qed.

Lemma child_index_alter (field : string) (g : tree_item -> tree_item)
    (i : nat) (cs : list tree_item) :
  (forall c : tree_item, text0 (g c) = text0 c) ->
  child_index field (alter g i cs) = child_index field cs.
Proof.
  intros Hg. revert i. induction cs as [|c cs IH]; intros i; [reflexivity|].
  destruct i as [|i]; cbn [alter list_alter child_index].
  - now rewrite Hg.
  - change (list_alter g i cs) with (alter g i cs). now rewrite IH.
Qed.

Lemma child_index_app (field : string) (cs : list tree_item)
    (c : tree_item) :
  child_index field (cs ++ [c])
  = match child_index field cs with
    | Some i => Some i
    | None => if String.eqb (text0 c) field then Some (length cs) else None
    end.
Proof.
  induction cs as [|c0 cs IH]; cbn [app child_index length].
  - now destruct (String.eqb (text0 c) field).
  - destruct (String.eqb (text0 c0) field); [reflexivity|].
    rewrite IH. destruct (child_index field cs); [reflexivity|].
    now destruct (String.eqb (text0 c) field).
Qed.

Lemma child_index_differs (f f' : string) (cs : list tree_item) (i j : nat) :
  f <> f' -> child_index f cs = Some i -> child_index f' cs = Some j ->
  i <> j.
Proof.
  intros Hne Hi Hj ->.
  destruct (child_index_lookup _ _ _ Hi) as (c & Hc & Ht).
  destruct (child_index_lookup _ _ _ Hj) as (c' & Hc' & Ht').
  congruence.
Qed.

Lemma add_config_text0 (n : nat) :
  forall (item : tree_item) (key value : string),
    text0 (add_config n item key value) = text0 item.
Proof.
  destruct n as [|n]; intros [t0 t1 e cs] key value; [reflexivity|].
  cbn [add_config]. destruct (String.eqb key EmptyString); [reflexivity|].
  destruct (split1 "." key) as [this_field tail].
  now destruct (child_index this_field cs).
Qed.

(** The item at the end of the path of the key holds the value and can be
    edited. *)
Lemma add_config_sets (n : nat) :
  forall (item : tree_item) (key value : string),
    (String.length key < n)%nat ->
    exists leaf : tree_item,
      lookup_path (add_config n item key value) (fields n key) = Some leaf
      /\ text1 leaf = value
      /\ editable leaf = true.
Proof.
  induction n as [|n IH]; intros [t0 t1 e cs] key value Hn; [lia|].
  cbn [add_config fields].
  destruct (String.eqb_spec key EmptyString) as [E | E].
  - eexists. split; [reflexivity|]. split; reflexivity.
  - pose proof (next_key_shorter key n E Hn) as Hnext.
    destruct (split1 "." key) as [this_field tail]. cbn [snd] in Hnext.
    set (next_key := match tail with
                     | Some rest => rest
                     | None => EmptyString
                     end) in *.
    destruct (child_index this_field cs) as [i|] eqn:Hi.
    + destruct (child_index_lookup _ _ _ Hi) as (c & Hc & Ht).
      destruct (IH c next_key value Hnext) as (leaf & Hleaf & Hv & He).
      exists leaf. split; [|split; assumption].
      cbn [lookup_path children].
      rewrite child_index_alter by (intros x; apply add_config_text0).
      rewrite Hi, list_lookup_alter_eq, Hc. exact Hleaf.
    + destruct (IH (new_item this_field) next_key value Hnext)
        as (leaf & Hleaf & Hv & He).
      exists leaf. split; [|split; assumption].
      cbn [lookup_path children].
      rewrite child_index_app, Hi, add_config_text0.
      cbn [new_item text0]. rewrite String.eqb_refl.
      rewrite lookup_app_r by lia. rewrite Nat.sub_diag. exact Hleaf.
Qed.

(** Every item that was there is found where it was, with its texts. *)
Lemma add_config_keeps (n : nat) :
  forall (item : tree_item) (key value : string) (path : list string)
         (x : tree_item),
    path <> fields n key ->
    lookup_path item path = Some x ->
    exists x' : tree_item,
      lookup_path (add_config n item key value) path = Some x'
      /\ text0 x' = text0 x
      /\ text1 x' = text1 x
      /\ editable x' = editable x.
Proof.
  induction n as [|n IH]; intros [t0 t1 e cs] key value path x Hne Hx.
  - exists x. now cbn [add_config].
  - cbn [add_config fields] in *.
    destruct (String.eqb key EmptyString).
    { destruct path as [|field path]; [congruence|].
      exists x. split; [exact Hx|]. now repeat split. }
    destruct (split1 "." key) as [this_field tail].
    set (next_key := match tail with
                     | Some rest => rest
                     | None => EmptyString
                     end) in *.
    destruct path as [|field path].
    { injection Hx as <-.
      destruct (child_index this_field cs); eexists;
        (split; [reflexivity|]); now repeat split. }
    cbn [lookup_path children] in Hx.
    destruct (child_index field cs) as [j|] eqn:Hj; [|discriminate].
    destruct (cs !! j) as [c|] eqn:Hc; [|discriminate].
    destruct (child_index this_field cs) as [i|] eqn:Hi.
    + cbn [lookup_path children].
      rewrite child_index_alter by (intros y; apply add_config_text0).
      rewrite Hj.
      destruct (decide (i = j)) as [-> | Hij].
      * rewrite list_lookup_alter_eq, Hc. cbn [fmap option_fmap option_map].
        destruct (String.eqb_spec field this_field) as [-> | Hf].
        -- apply IH; [congruence | exact Hx].
        -- exfalso. exact (child_index_differs _ _ _ _ _ Hf Hj Hi eq_refl).
      * rewrite list_lookup_alter_ne, Hc by assumption.
        exists x. split; [exact Hx|]. now repeat split.
    + cbn [lookup_path children].
      rewrite child_index_app, Hj.
      rewrite lookup_app_l by (apply lookup_lt_Some in Hc; exact Hc).
      rewrite Hc. exists x. split; [exact Hx|]. now repeat split.
Qed.

(** Every name of [_config_tree_items] refers to an item of the tree. *)
Definition config_tree_ok (st : config_tree) : Prop :=
  forall (name : string) (i : nat),
    _config_tree_items st !! name = Some i ->
    (i < length (_config_tree_item st))%nat.

Lemma config_tree_ok_init : config_tree_ok (mk_config_tree [] ∅).
Proof. intros name i Hi. cbn in Hi. now rewrite lookup_empty in Hi. Qed.

(** X15: a line [name.rest value] puts [value] at the item reached from the
    item of [name] along the fields of [rest], making the items on the way
    that are not there yet (the item of [name] too) and making that item
    editable.  Nothing else changes: the other names keep their items, and
    every item that was there before is found where it was, with its
    texts.  A line without a blank, and a line whose key has no dot, raise
    and change nothing. *)
Theorem add_config_line_sets_value (st : config_tree)
    (name rest value : string) :
  has_char "." name = false ->
  has_char " " name = false ->
  has_char " " rest = false ->
  config_tree_ok st ->
  (exists (st' : config_tree) (i : nat) (top leaf : tree_item),
      add_config_line st ((name +:+ "." +:+ rest) +:+ " " +:+ value)
      = Some st'
      /\ _config_tree_items st' !! name = Some i
      /\ _config_tree_item st' !! i = Some top
      /\ lookup_path top (config_path rest) = Some leaf
      /\ text1 leaf = value
      /\ editable leaf = true
      /\ config_tree_ok st'
      /\ (forall other : string,
             other <> name ->
             _config_tree_items st' !! other = _config_tree_items st !! other)
      /\ (forall (j : nat) (item : tree_item),
             j <> i ->
             _config_tree_item st !! j = Some item ->
             _config_tree_item st' !! j = Some item)
      /\ (forall (old : tree_item) (path : list string) (x : tree_item),
             _config_tree_item st !! i = Some old ->
             path <> config_path rest ->
             lookup_path old path = Some x ->
             exists x' : tree_item,
               lookup_path top path = Some x'
               /\ text0 x' = text0 x
               /\ text1 x' = text1 x
               /\ editable x' = editable x))
  /\ (forall line : string,
         has_char " " line = false -> add_config_line st line = None)
  /\ (forall key text : string,
         has_char " " key = false ->
         has_char "." key = false ->
         add_config_line st (key +:+ " " +:+ text) = None).
Proof.
  intros Hdot Hname Hrest Hok. split; [|split].
  - unfold add_config_line.
    change (" " +:+ value) with (String " " value).
    rewrite split1_found.
    2:{ rewrite has_char_app, Hname.
        change ("." +:+ rest) with (String "." rest).
        unfold has_char in *. cbn [list_ascii_of_string existsb orb].
        exact Hrest. }
    change ("." +:+ rest) with (String "." rest).
    rewrite (split1_found _ _ _ Hdot).
    set (g := fun item =>
                add_config (S (String.length rest)) item rest value).
    destruct (_config_tree_items st !! name) as [i|] eqn:Hi.
    + pose proof (Hok name i Hi) as Hlt.
      destruct (lookup_lt_is_Some_2 (_config_tree_item st) i Hlt)
        as [old Hold].
      destruct (add_config_sets (S (String.length rest)) old rest value
                  ltac:(lia)) as (leaf & Hleaf & Hv & He).
      exists (mk_config_tree (alter g i (_config_tree_item st))
                (_config_tree_items st)), i, (g old), leaf.
      cbn [_config_tree_item _config_tree_items].
      split; [reflexivity|]. split; [exact Hi|].
      split; [now rewrite list_lookup_alter_eq, Hold|].
      split; [exact Hleaf|]. split; [exact Hv|]. split; [exact He|].
      split; [|split; [|split]].
      * intros k j Hk. cbn [_config_tree_item _config_tree_items] in *.
        rewrite length_alter. exact (Hok k j Hk).
      * reflexivity.
      * intros j item Hj Hitem. now rewrite list_lookup_alter_ne.
      * intros old' path x Hold' Hpath Hx.
        rewrite Hold in Hold'. injection Hold' as <-.
        exact (add_config_keeps _ old rest value path x Hpath Hx).
    + set (i := length (_config_tree_item st)).
      destruct (add_config_sets (S (String.length rest)) (new_item name)
                  rest value ltac:(lia)) as (leaf & Hleaf & Hv & He).
      exists (mk_config_tree
                (alter g i (_config_tree_item st ++ [new_item name]))
                (<[name := i]> (_config_tree_items st))),
        i, (g (new_item name)), leaf.
      cbn [_config_tree_item _config_tree_items].
      assert (Hnew : (_config_tree_item st ++ [new_item name]) !! i
                     = Some (new_item name)).
      { rewrite lookup_app_r by (unfold i; lia).
        unfold i. now rewrite Nat.sub_diag. }
      split; [reflexivity|]. split; [now rewrite lookup_insert_eq|].
      split; [now rewrite list_lookup_alter_eq, Hnew|].
      split; [exact Hleaf|]. split; [exact Hv|]. split; [exact He|].
      split; [|split; [|split]].
      * intros k j Hk. cbn [_config_tree_item _config_tree_items] in *.
        rewrite length_alter, length_app. cbn [length].
        destruct (decide (name = k)) as [<- | Hne].
        -- rewrite lookup_insert_eq in Hk. injection Hk as <-. unfold i. lia.
        -- rewrite lookup_insert_ne in Hk by assumption.
           pose proof (Hok k j Hk). lia.
      * intros other Hother. now rewrite lookup_insert_ne.
      * intros j item Hj Hitem. rewrite list_lookup_alter_ne by auto.
        rewrite lookup_app_l by (apply lookup_lt_Some in Hitem; exact Hitem).
        exact Hitem.
      * intros old path x Hold. exfalso.
        apply lookup_lt_Some in Hold. unfold i in Hold. lia.
  - intros line Hline. unfold add_config_line.
    now rewrite (split1_missing _ _ Hline).
  - intros key text Hkey Hnodot. unfold add_config_line.
    change (" " +:+ text) with (String " " text).
    rewrite (split1_found _ _ _ Hkey). now rewrite (split1_missing _ _ Hnodot).
Qed.

(** The first line of an enumeration, on an empty tree. *)
Lemma add_config_line_sets_value_witness :
  exists (st' : config_tree) (i : nat) (top leaf : tree_item),
    add_config_line (mk_config_tree [] ∅) "servo.pid.kp 4.0" = Some st'
    /\ _config_tree_items st' !! "servo"%string = Some i
    /\ _config_tree_item st' !! i = Some top
    /\ lookup_path top ["pid"%string; "kp"%string] = Some leaf
    /\ text1 leaf = "4.0"%string.
Proof.
  destruct (proj1 (add_config_line_sets_value (mk_config_tree [] ∅)
                     "servo" "pid.kp" "4.0" eq_refl eq_refl eq_refl
                     config_tree_ok_init))
    as (st' & i & top & leaf & Hadd & Hi & Htop & Hleaf & Hv & _).
  exists st', i, top, leaf. repeat split; assumption.
Defined.
